(** * PREVIS: observability thresholds and survey reporting

    A shallow embedding of [previs/instr.py] (magnitude/flux conversion,
    MATISSE limit tables and their provider, the GRAVITY / MATISSE /
    PIONIER / CHARA threshold rules) and of [previs/display.py] (survey
    aggregation and the per-star VLTI and CHARA diagrams).

    Python floats are IEEE-754 binary64 values: they are modelled by
    Rocq's primitive floats, so that a source literal such as [4.2]
    denotes the very same double and [<=], [<], [>=], [>] are the IEEE
    comparisons (false as soon as one operand is not-a-number).  A
    dictionary with a fixed set of keys is a record, a dictionary keyed
    by star or band names is a [gmap], and a call that can raise returns
    a [result].

    The file has three parts: the program, the predicates and sample
    data the properties are stated with, and the properties. *)

From Stdlib Require Import ZArith Lia Bool List String QArith.
From Stdlib Require Import Floats.
From Stdlib Require Import Reals Lra.
From stdpp Require Import gmap strings list fin_maps.

Open Scope string_scope.

(** ** Python exceptions and the error monad *)

Inductive exn : Type :=
| KeyError
| IndexError
| TypeError
| ZeroDivisionError
| OverflowError
| FileNotFoundError
| URLError
| ValueError.

Inductive result (A : Type) : Type :=
| Ok (a : A)
| Raise (e : exn).
Arguments Ok {A} a.
Arguments Raise {A} e.

#[global] Instance result_ret : MRet result := fun A a => Ok a.

#[global] Instance result_bind : MBind result := fun A B k m =>
  match m with
  | Ok a => k a
  | Raise e => Raise e
  end.

(** ** IEEE comparisons *)

Module FloatOrder.

Local Open Scope float_scope.

(** Python [a >= b] and [a > b]. *)
Definition geb (a b : float) : bool := b <=? a.
Definition gtb (a b : float) : bool := b <? a.

(** Anything but not-a-number (infinities included). *)
Definition is_number (a : float) : bool := negb (is_nan a).

End FloatOrder.

(** ** instr.py: magnitude / flux conversion *)

Module Flux.

(** The arithmetic [MagToJy] needs: literals, [*], [/], [**] and
    [numpy.log10].  [**] is the one operation of the forward branch that
    can raise ([OverflowError] on Python floats); the divisors met in
    this function are non-zero literals, so [/] is total here. *)
Class Arith (N : Type) : Type := {
  of_dec : Q -> N;
  mul : N -> N -> N;
  div : N -> N -> N;
  pow : N -> N -> result N;
  log10 : N -> N;
  not_a_number : N
}.

Record flux_entry : Type := { wl : Q; F0 : Q }.

(** The [conv_flux] dictionary (Allen's astrophysical quantities). *)
Definition conv_flux : gmap string flux_entry :=
  list_to_map
    [ ("B", {| wl := 0.44;   F0 := 4260 |});
      ("V", {| wl := 0.5556; F0 := 3540 |});
      ("R", {| wl := 0.64;   F0 := 3080 |});
      ("I", {| wl := 0.79;   F0 := 2550 |});
      ("J", {| wl := 1.215;  F0 := 1630 |});
      ("H", {| wl := 1.654;  F0 := 1050 |});
      ("K", {| wl := 2.179;  F0 := 655 |});
      ("L", {| wl := 3.547;  F0 := 276 |});
      ("M", {| wl := 4.769;  F0 := 160 |});
      ("N", {| wl := 10.2;   F0 := 42.7 |});
      ("Q", {| wl := 20.13;  F0 := 9.7 |}) ]%Q.

(** [conv_flux[band]['F0']]: a missing key raises [KeyError]. *)
Definition conv_flux_F0 (band : string) : result Q :=
  match conv_flux !! band with
  | Some e => Ok (F0 e)
  | None => Raise KeyError
  end.

(** [try: ... except: out = h] with a bare [except]. *)
Definition try_except {A : Type} (body : result A) (h : A) : A :=
  match body with
  | Ok a => a
  | Raise _ => h
  end.

Section MagToJy.
Context {N : Type} `{Arith N}.

Definition MagToJy (m : N) (band : string) (reverse : bool) : result N :=
  if negb reverse then
    Ok (try_except
          (f0 ← conv_flux_F0 band;
           p ← pow (of_dec 10) (div m (of_dec (-2.5)));
           mret (mul (of_dec f0) p))
          not_a_number)
  else
    f0 ← conv_flux_F0 band;
    mret (mul (of_dec (-2.5)) (log10 (div m (of_dec f0)))).
End MagToJy.

(** Exact real arithmetic, with one undefined value standing for
    not-a-number: every operation propagates it.  The reals have no
    infinities, so the logarithm is left undefined at zero (where numpy
    answers minus infinity) as well as on negative numbers (where numpy
    answers not-a-number).  [**] never overflows here. *)
Inductive xreal : Type :=
| XNaN
| XReal (r : R).

Definition xlift2 (f : R -> R -> R) (a b : xreal) : xreal :=
  match a, b with
  | XReal x, XReal y => XReal (f x y)
  | _, _ => XNaN
  end.

Definition xlog10 (a : xreal) : xreal :=
  match a with
  | XReal x => if Rlt_dec 0 x then XReal (ln x / ln 10) else XNaN
  | XNaN => XNaN
  end.

Definition xpow (a b : xreal) : result xreal :=
  match a, b with
  | XReal x, XReal y => Ok (XReal (Rpower x y))
  | _, _ => Ok XNaN
  end.

#[global] Instance xreal_arith : Arith xreal := {|
  of_dec q := XReal (Q2R q);
  mul := xlift2 Rmult;
  div := xlift2 Rdiv;
  pow := xpow;
  log10 := xlog10;
  not_a_number := XNaN
|}.

End Flux.

(** ** instr.py: limit tables and threshold rules *)

Module Instr.

Import FloatOrder.
Local Open Scope float_scope.

(* Decimal literals denote the nearest double, as they do in Python. *)
Set Warnings "-inexact-float".

(** *** MATISSE limit tables

    [dic[tel][mode][band]] is a list of limiting magnitudes. *)

Record band_limits : Type := { lim_L : list float; lim_M : list float; lim_N : list float }.
Record mode_limits : Type := { lim_noft : band_limits; lim_ft : band_limits }.
Record limit_table : Type := { lim_at : mode_limits; lim_ut : mode_limits }.

(** The table assembled by [limit_ESO_matisse_web] from the magnitudes
    obtained from the scraped page: AT with fringe tracker in N and
    every UT fringe-tracker slot are left empty. *)
Definition dic_web (at_noft_L at_noft_M at_noft_N
                    ut_noft_L ut_noft_M ut_noft_N
                    at_ft_L at_ft_M : list float) : limit_table :=
  let at_ft_N := [] in
  {| lim_at := {| lim_noft := {| lim_L := at_noft_L; lim_M := at_noft_M; lim_N := at_noft_N |};
                  lim_ft := {| lim_L := at_ft_L; lim_M := at_ft_M; lim_N := at_ft_N |} |};
     lim_ut := {| lim_noft := {| lim_L := ut_noft_L; lim_M := ut_noft_M; lim_N := ut_noft_N |};
                  lim_ft := {| lim_L := []; lim_M := []; lim_N := [] |} |} |}.

Definition limit_commissioning_matisse : limit_table :=
  let at_noft_L := [4.2; 0.9; -1.5] in
  let at_noft_M := [3.24; 1] in
  let at_noft_N := [-0.35; -2.2] in
  let at_ft_L := [7.7; 6.1; 4.2] in
  let at_ft_M := [5.24; 1.6] in
  let at_ft_N := [1.6; 0.1] in
  let ut_noft_L := [7; 3.7; 1.3] in
  let ut_noft_M := [6.03; 3.83] in
  let ut_noft_N := [2.7; 0.8] in
  let ut_ft_L := [10.3; 8.8; 6.9] in
  let ut_ft_M := [5; 5] in
  let ut_ft_N := [4.6; 3.2] in
  {| lim_at := {| lim_noft := {| lim_L := at_noft_L; lim_M := at_noft_M; lim_N := at_noft_N |};
                  lim_ft := {| lim_L := at_ft_L; lim_M := at_ft_M; lim_N := at_ft_N |} |};
     lim_ut := {| lim_noft := {| lim_L := ut_noft_L; lim_M := ut_noft_M; lim_N := ut_noft_N |};
                  lim_ft := {| lim_L := ut_ft_L; lim_M := ut_ft_M; lim_N := ut_ft_N |} |} |}.

(** The dictionary keys ['AT'/'UT'] (['at'/'ut'] in the limit tables),
    ['noft'/'ft'] and ['L'/'M'/'N']. *)
Inductive tel : Type := tel_AT | tel_UT.
Inductive mode : Type := mode_noft | mode_ft.
Inductive band : Type := band_L | band_M | band_N.

(** [table[tel][mode][band]] *)
Definition limits (table : limit_table) (t : tel) (m : mode) (b : band) : list float :=
  let by_tel := match t with tel_AT => lim_at table | tel_UT => lim_ut table end in
  let by_mode := match m with mode_noft => lim_noft by_tel | mode_ft => lim_ft by_tel end in
  match b with
  | band_L => lim_L by_mode
  | band_M => lim_M by_mode
  | band_N => lim_N by_mode
  end.

(** [lim[i]] for a literal index [i >= 0]. *)
Definition index (lim : list float) (i : nat) : result float :=
  match nth_error lim i with
  | Some x => Ok x
  | None => Raise IndexError
  end.

(** *** GRAVITY *)

Record res_MR_HR : Type := { MR : bool; HR : bool }.
Record gravity_dic : Type := { g_UT_K : res_MR_HR; g_AT_K : res_MR_HR; V_cond : string }.

Definition gravity_limit (magV magK : float) : gravity_dic :=
  let v_cond :=
    if magV <=? 11 then "AT"
    else if gtb magV 11 && (magV <=? 16) then "UT"
    else "TooFaint" in
  if geb magK (-4) && (magK <=? -1) then
    {| g_UT_K := {| MR := false; HR := false |};
       g_AT_K := {| MR := false; HR := true |}; V_cond := v_cond |}
  else if gtb magK (-1) && (magK <=? 1) then
    {| g_UT_K := {| MR := false; HR := false |};
       g_AT_K := {| MR := true; HR := true |}; V_cond := v_cond |}
  else if gtb magK 1 && (magK <=? 4) then
    {| g_UT_K := {| MR := false; HR := true |};
       g_AT_K := {| MR := true; HR := true |}; V_cond := v_cond |}
  else if gtb magK 4 && (magK <=? 8) then
    {| g_UT_K := {| MR := true; HR := true |};
       g_AT_K := {| MR := true; HR := true |}; V_cond := v_cond |}
  else if gtb magK 8 && (magK <=? 9) then
    {| g_UT_K := {| MR := true; HR := true |};
       g_AT_K := {| MR := false; HR := false |}; V_cond := v_cond |}
  else
    {| g_UT_K := {| MR := false; HR := false |};
       g_AT_K := {| MR := false; HR := false |}; V_cond := v_cond |}.

(** *** MATISSE *)

Record res_L : Type := { L_LR : bool; L_MR : bool; L_HR : bool }.
Record res_LR_HR : Type := { LR : bool; HR' : bool }.
Record mat_bands : Type := { mat_L : res_L; mat_M : res_LR_HR; mat_N : res_LR_HR }.
Record mat_modes : Type := { mat_ft : mat_bands; mat_noft : mat_bands }.
Record limK_dic : Type := { limK_UT : bool; limK_AT : bool }.
Record matisse_dic : Type := { mat_AT : mat_modes; mat_UT : mat_modes; limK : limK_dic }.

(** [dic[tel][mode]] *)
Definition observable (dic : matisse_dic) (t : tel) (m : mode) : mat_bands :=
  let by_tel := match t with tel_AT => mat_AT dic | tel_UT => mat_UT dic end in
  match m with mode_noft => mat_noft by_tel | mode_ft => mat_ft by_tel end.

(** The four-way chain applied to an L-band list (as at lines 251-266,
    and again for UT/noft, AT/ft and AT/noft).  [lim[2]] is read first. *)
Definition chain_L (lim : list float) (magL : float) : result res_L :=
  l2 ← index lim 2;
  if magL <=? l2 then
    Ok {| L_LR := true; L_MR := true; L_HR := true |}
  else
    l1 ← index lim 1;
    if gtb magL l2 && (magL <=? l1) then
      Ok {| L_LR := true; L_MR := true; L_HR := false |}
    else
      l0 ← index lim 0;
      if gtb magL l1 && (magL <=? l0) then
        Ok {| L_LR := true; L_MR := false; L_HR := false |}
      else
        Ok {| L_LR := false; L_MR := false; L_HR := false |}.

(** The three-way chain applied to an M- or N-band list (as at lines
    284-292).  [lim[1]] is read first. *)
Definition chain_2 (lim : list float) (mag : float) : result res_LR_HR :=
  l1 ← index lim 1;
  if mag <=? l1 then
    Ok {| LR := true; HR' := true |}
  else
    l0 ← index lim 0;
    if gtb mag l1 && (mag <=? l0) then
      Ok {| LR := true; HR' := false |}
    else
      Ok {| LR := false; HR' := false |}.

(** The single test of the UT/ft M-band block (lines 273-278). *)
Definition chain_1 (lim : list float) (mag : float) : result res_LR_HR :=
  l0 ← index lim 0;
  if mag <=? l0 then
    Ok {| LR := true; HR' := true |}
  else
    Ok {| LR := false; HR' := false |}.

(** [if len(lim) == 0: lim = limit_commissioning_matisse()[...]]. *)
Definition or_commissioning (lim estimated : list float) : list float :=
  if Nat.eqb (length lim) 0 then estimated else lim.

(** The chosen table [dic_limit]; [eso] is the table returned by
    [limit_ESO_matisse_web(check=check)] (scraped, or loaded from the
    cache file). *)
Definition chosen_table (eso : limit_table) (source : string) : limit_table :=
  if String.eqb source "ESO" then eso else limit_commissioning_matisse.

(** [matisse_limit] once the table is there: [eso] is what
    [limit_ESO_matisse_web(check=check)] returned.  The call as a
    whole, with the fetch that can fail, is [Web.matisse_limit]. *)
Definition matisse_limit (eso : limit_table) (magL magM magN magK : float)
    (source : string) : result matisse_dic :=
  let dic_limit := chosen_table eso source in
  let dic_matisse := limit_commissioning_matisse in
  (* Fringe tracker K band limit *)
  let limk :=
    if magK <=? 7.5 then {| limK_UT := true; limK_AT := true |}
    else if gtb magK 7.5 && (magK <=? 10) then {| limK_UT := true; limK_AT := false |}
    else {| limK_UT := false; limK_AT := false |} in
  (* UT, ft *)
  ut_ft_L ← chain_L (lim_L (lim_ft (lim_ut dic_matisse))) magL;
  ut_ft_M ← chain_1 (or_commissioning (lim_M (lim_ft (lim_ut dic_limit)))
                       (lim_M (lim_ft (lim_ut limit_commissioning_matisse)))) magM;
  ut_ft_N ← chain_2 (or_commissioning (lim_N (lim_ft (lim_ut dic_limit)))
                       (lim_N (lim_ft (lim_ut limit_commissioning_matisse)))) magN;
  (* UT, noft *)
  ut_noft_L ← chain_L (lim_L (lim_noft (lim_ut dic_limit))) magL;
  ut_noft_M ← chain_2 (lim_M (lim_noft (lim_ut dic_limit))) magM;
  ut_noft_N ← chain_2 (lim_N (lim_noft (lim_ut dic_limit))) magN;
  (* AT, ft *)
  at_ft_L ← chain_L (lim_L (lim_ft (lim_at dic_limit))) magL;
  at_ft_M ← chain_2 (lim_M (lim_ft (lim_at dic_limit))) magM;
  at_ft_N ← chain_2 (or_commissioning (lim_N (lim_ft (lim_at dic_limit)))
                       (lim_N (lim_ft (lim_at limit_commissioning_matisse)))) magN;
  (* AT, noft *)
  at_noft_L ← chain_L (lim_L (lim_noft (lim_at dic_limit))) magL;
  at_noft_M ← chain_2 (lim_M (lim_noft (lim_at dic_limit))) magM;
  at_noft_N ← chain_2 (lim_N (lim_noft (lim_at dic_limit))) magN;
  Ok {| mat_AT := {| mat_ft := {| mat_L := at_ft_L; mat_M := at_ft_M; mat_N := at_ft_N |};
                     mat_noft := {| mat_L := at_noft_L; mat_M := at_noft_M; mat_N := at_noft_N |} |};
        mat_UT := {| mat_ft := {| mat_L := ut_ft_L; mat_M := ut_ft_M; mat_N := ut_ft_N |};
                     mat_noft := {| mat_L := ut_noft_L; mat_M := ut_noft_M; mat_N := ut_noft_N |} |};
        limK := limk |}.

(** *** PIONIER *)

Record pionier_dic : Type := { pio_H : bool }.

Definition pionier_limit (magH magV : float) : pionier_dic :=
  if geb magH (-1) && (magH <=? 9) then {| pio_H := true |} else {| pio_H := false |}.

(** *** CHARA *)

Record classic_dic : Type := { CLASSIC_K : bool; CLASSIC_H : bool; CLASSIC_V : bool }.
Record mirc_dic : Type := { MIRC_H : bool; MIRC_K : bool }.
Record vega_dic : Type := { VEGA_LR : bool; VEGA_MR : bool; VEGA_HR : bool }.
Record chara_dic : Type := {
  PAVO_R : bool;
  CLASSIC : classic_dic;
  CLIMB_K : bool;
  MIRC : mirc_dic;
  MYSTIC_K : bool;
  VEGA : vega_dic;
  Guiding : bool
}.

(** [numpy.min] of a two-element array: not-a-number propagates. *)
Definition np_min (a b : float) : float :=
  if is_nan a || is_nan b then nan else if a <=? b then a else b.

Definition chara_limit (magK magH magR magV : float) : chara_dic :=
  let guiding := if np_min magV magR <=? 10 then true else false in
  {| PAVO_R := magR <=? 7;
     CLASSIC := {| CLASSIC_K := magK <=? 6.5; CLASSIC_H := magH <=? 7; CLASSIC_V := magV <=? 10 |};
     CLIMB_K := magK <=? 6;
     MIRC := {| MIRC_H := magH <=? 6.5; MIRC_K := magK <=? 3 |};
     MYSTIC_K := magK <=? 6;
     VEGA := {| VEGA_LR := magV <=? 7.2; VEGA_MR := magV <=? 5.8; VEGA_HR := magV <=? 4.2 |};
     Guiding := guiding |}.

End Instr.

(** ** instr.py: the limit-table provider and the call of [matisse_limit] *)

Module Web.

Import Instr.
Local Open Scope float_scope.

(** The magnitudes [limit_ESO_matisse_web] computes from the three
    tables of the ESO page.  Every list is written out entry by entry
    ([np.array([at_lim_good[0], at_lim_good[2], at_lim_good_rel[3]])],
    and so on): three entries for an L list, two for an M or N list. *)
Record web_limits : Type := {
  at_noft_L : float * float * float;
  at_noft_M : float * float;
  at_noft_N : float * float;
  ut_noft_L : float * float * float;
  ut_noft_M : float * float;
  ut_noft_N : float * float;
  at_ft_L : float * float * float;
  at_ft_M : float * float
}.

Definition array3 (x : float * float * float) : list float :=
  let '(a, b, c) := x in [a; b; c].
Definition array2 (x : float * float) : list float :=
  let '(a, b) := x in [a; b].

(** The dictionary [dic_web] assembled from them. *)
Definition dic_web_of (l : web_limits) : limit_table :=
  dic_web (array3 (at_noft_L l)) (array2 (at_noft_M l)) (array2 (at_noft_N l))
          (array3 (ut_noft_L l)) (array2 (ut_noft_M l)) (array2 (ut_noft_N l))
          (array3 (at_ft_L l)) (array2 (at_ft_M l)).

(** What the provider acts on.  [eso_page] is the outcome of fetching
    the page, reading its tables 4, 5 and 6 and converting the fluxes:
    the magnitudes, or the exception raised on the way (no network, a
    missing table or row, a cell that is not a flux).  [cache_file] is
    [files/eso_limits_matisse.dpy], [None] when the file does not
    exist; its only writer is the refresh below, so it holds a
    [dic_web].  [stdout] is what was printed. *)
Record world : Type := {
  eso_page : result web_limits;
  cache_file : option web_limits;
  stdout : list string
}.

Definition limit_ESO_matisse_web (check : bool) (w : world) : result limit_table * world :=
  if check then
    let out := (stdout w ++ ["Check MATISSE limits from ESO web site..."])%list in
    match eso_page w with
    | Ok l =>
        (Ok (dic_web_of l),
         {| eso_page := eso_page w; cache_file := Some l; stdout := out |})
    | Raise e =>
        (Raise e, {| eso_page := eso_page w; cache_file := cache_file w; stdout := out |})
    end
  else
    match cache_file w with
    | Some l => (Ok (dic_web_of l), w)
    | None => (Raise FileNotFoundError, w)
    end.

(** The first statements of [matisse_limit] (lines 229-233): the
    table [dic_limit]. *)
Definition dic_limit (source : string) (check : bool) (w : world)
    : result limit_table * world :=
  if String.eqb source "ESO" then limit_ESO_matisse_web check w
  else (Ok limit_commissioning_matisse, w).

(** [matisse_limit(magL, magM, magN, magK, source, check)] as it is
    called: the table is obtained first, and an exception of the
    provider ends the call. *)
Definition matisse_limit (magL magM magN magK : float) (source : string) (check : bool)
    (w : world) : result matisse_dic * world :=
  let '(table, w') := dic_limit source check w in
  (eso ← table; Instr.matisse_limit eso magL magM magN magK source, w').

End Web.

(** ** display.py: survey records, aggregation and the VLTI diagram *)

Module Display.

Import Instr.

(** *** Survey records *)

(** [data['Guiding_star']]: a string (the upstream process gives
    ['Science star']), a list holding two lists of candidate identifiers,
    or anything else ([None] when no guide star was looked up). *)
Inductive guiding_star : Type :=
| Guiding_str (s : string)
| Guiding_list (primary secondary : list string)
| Guiding_absent.

Record gaia_info : Type := { check : bool; Dkpc : float }.
Record observability : Type := { VLTI : bool; CHARA : bool }.
Record magnitudes : Type := {
  magV : float; magR : float; magG : float; magH : float;
  magK : float; magL : float; magM : float; magN : float
}.

(** [data['Ins']]: one subtree per instrument family. *)
Record instruments : Type := {
  MATISSE : matisse_dic;
  GRAVITY : gravity_dic;
  PIONIER : pionier_dic;
  CHARA_ins : chara_dic
}.

Record survey_record : Type := {
  Name : string;
  Simbad : bool;
  SED : option (list float);
  Gaia_dr2 : gaia_info;
  Guiding_star : guiding_star;
  Observability : observability;
  Mag : magnitudes;
  Ins : option instruments
}.

(** *** Dictionary keys used by the loops *)

Inductive mat_band : Type := mb_L | mb_N.
Inductive mat_res : Type := mr_LR | mr_HR.
Inductive grav_res : Type := gr_MR | gr_HR.
Inductive mirc_band : Type := mi_H | mi_K.
Inductive vega_res : Type := vr_LR | vr_MR | vr_HR.
Inductive classic_band : Type := cb_V | cb_H | cb_K.

(** [ins['MATISSE'][tel][ft][band][res]] *)
Definition matisse_leaf (d : matisse_dic) (t : tel) (m : mode) (b : mat_band) (r : mat_res) : bool :=
  let by_mode := observable d t m in
  match b, r with
  | mb_L, mr_LR => L_LR (mat_L by_mode)
  | mb_L, mr_HR => L_HR (mat_L by_mode)
  | mb_N, mr_LR => LR (mat_N by_mode)
  | mb_N, mr_HR => HR' (mat_N by_mode)
  end.

(** [ins['GRAVITY'][tel]['K'][res]] *)
Definition gravity_leaf (d : gravity_dic) (t : tel) (r : grav_res) : bool :=
  let k := match t with tel_AT => g_AT_K d | tel_UT => g_UT_K d end in
  match r with gr_MR => MR k | gr_HR => HR k end.

Definition mirc_leaf (d : chara_dic) (b : mirc_band) : bool :=
  match b with mi_H => MIRC_H (MIRC d) | mi_K => MIRC_K (MIRC d) end.

Definition vega_leaf (d : chara_dic) (r : vega_res) : bool :=
  match r with
  | vr_LR => VEGA_LR (VEGA d)
  | vr_MR => VEGA_MR (VEGA d)
  | vr_HR => VEGA_HR (VEGA d)
  end.

Definition classic_leaf (d : chara_dic) (b : classic_band) : bool :=
  match b with
  | cb_V => CLASSIC_V (CLASSIC d)
  | cb_H => CLASSIC_H (CLASSIC d)
  | cb_K => CLASSIC_K (CLASSIC d)
  end.

(** *** The Count Result

    The nested dictionary of star-name lists built by [count_survey],
    addressed by the path of keys leading to a list. *)
Inductive bucket : Type :=
| b_MATISSE (t : tel) (m : mode) (b : mat_band) (r : mat_res)
| b_GRAVITY (t : tel) (r : grav_res)
| b_PIONIER
| b_PAVO
| b_CLASSIC (b : classic_band)
| b_CLIMB
| b_MYSTIC
| b_MIRC (b : mirc_band)
| b_VEGA (r : vega_res).

#[global] Instance tel_eq_dec : EqDecision tel.
Proof. solve_decision. Defined.
#[global] Instance mode_eq_dec : EqDecision mode.
Proof. solve_decision. Defined.
#[global] Instance mat_band_eq_dec : EqDecision mat_band.
Proof. solve_decision. Defined.
#[global] Instance mat_res_eq_dec : EqDecision mat_res.
Proof. solve_decision. Defined.
#[global] Instance grav_res_eq_dec : EqDecision grav_res.
Proof. solve_decision. Defined.
#[global] Instance mirc_band_eq_dec : EqDecision mirc_band.
Proof. solve_decision. Defined.
#[global] Instance vega_res_eq_dec : EqDecision vega_res.
Proof. solve_decision. Defined.
#[global] Instance classic_band_eq_dec : EqDecision classic_band.
Proof. solve_decision. Defined.
#[global] Instance bucket_eq_dec : EqDecision bucket.
Proof. solve_decision. Defined.

Definition count_dic : Type := bucket -> list string.

(** The literal [dic = {...}]: every list starts empty. *)
Definition empty_dic : count_dic := fun _ => [].

(** [dic[...path...].append(star)] *)
Definition append (b : bucket) (star : string) (dic : count_dic) : count_dic :=
  fun b' => if decide (b' = b) then (dic b' ++ [star])%list else dic b'.

(** [if cond: dic[...].append(star)] *)
Definition append_if (cond : bool) (b : bucket) (star : string) (dic : count_dic) : count_dic :=
  if cond then append b star dic else dic.

(** [for x in keys: dic = body x dic] *)
Definition for_keys {K : Type} (keys : list K) (body : K -> count_dic -> count_dic)
    (dic : count_dic) : count_dic :=
  foldl (fun d k => body k d) dic keys.

Definition add_vs_mode_matisse (ins : instruments) (dic : count_dic) (star : string)
    (cond_VLTI cond_guid : bool) : count_dic :=
  for_keys [tel_AT; tel_UT] (fun t =>
    for_keys [mode_noft; mode_ft] (fun ft =>
      for_keys [mb_L; mb_N] (fun band =>
        for_keys [mr_LR; mr_HR] (fun res =>
          let cond_ins := matisse_leaf (MATISSE ins) t ft band res in
          append_if (cond_VLTI && cond_guid && cond_ins) (b_MATISSE t ft band res) star)))) dic.

Definition add_vs_mode_gravity (ins : instruments) (dic : count_dic) (star : string)
    (cond_VLTI cond_guid : bool) : count_dic :=
  for_keys [tel_AT; tel_UT] (fun t =>
    for_keys [gr_MR; gr_HR] (fun res =>
      let cond_ins := gravity_leaf (GRAVITY ins) t res in
      append_if (cond_VLTI && cond_guid && cond_ins) (b_GRAVITY t res) star)) dic.

(** *** Console output *)

Inductive console : Type :=
| cprint (text : string) (color : string)
| cprint_header (n_star : nat)
| print_observability (n_vlti : nat) (pct_vlti : Q) (n_chara : nat) (pct_chara : Q).

(** [100*float(n)/n_star], as an exact rational; Python raises
    [ZeroDivisionError] when [n_star] is zero. *)
Definition percentage (n n_star : nat) : result Q :=
  if Nat.eqb n_star 0 then Raise ZeroDivisionError
  else Ok (100 * inject_Z (Z.of_nat n) / inject_Z (Z.of_nat n_star))%Q.

(** *** count_survey *)

(** The first loop: stars with a Simbad match and an SED, per site. *)
Definition count_sites (stars : list (string * survey_record)) : nat * nat :=
  foldl (fun '(n_chara, n_vlti) '(_, x) =>
           if Simbad x then
             if negb (bool_decide (SED x = None)) then
               let n_vlti := if VLTI (Observability x) then S n_vlti else n_vlti in
               let n_chara := if CHARA (Observability x) then S n_chara else n_chara in
               (n_chara, n_vlti)
             else (n_chara, n_vlti)
           else (n_chara, n_vlti))
        (0, 0)%nat stars.

(** The guide-availability flag of the second loop. *)
Definition guid_of (g : guiding_star) : bool :=
  match g with
  | Guiding_list primary secondary =>
      if (0 <? length primary)%nat || (0 <? length secondary)%nat then true else false
  | Guiding_str s => if String.eqb s "Science star" then true else false
  | Guiding_absent => false
  end.

(** [survey[star]['Ins'][...]]: subscripting [None] raises [TypeError]. *)
Definition subscript_Ins (x : survey_record) : result instruments :=
  match Ins x with
  | Some ins => Ok ins
  | None => Raise TypeError
  end.

(** The body of the second loop for one star. *)
Definition count_star (star : string) (x : survey_record)
    (st : count_dic * list string) : result (count_dic * list string) :=
  let '(dic, list_no_simbad) := st in
  if Simbad x then
    let guid := guid_of (Guiding_star x) in
    let cond_VLTI := VLTI (Observability x) in
    let cond_guid := guid in
    let cond_CHARA := CHARA (Observability x) in
    ins ← subscript_Ins x;
    let cond_tilt := Guiding (CHARA_ins ins) in
    let dic := add_vs_mode_matisse ins dic star cond_VLTI cond_guid in
    let dic := add_vs_mode_gravity ins dic star cond_VLTI cond_guid in
    let cond_ins := pio_H (PIONIER ins) in
    let dic := append_if (cond_VLTI && cond_guid && cond_ins) b_PIONIER star dic in
    let dic := for_keys [mi_H; mi_K] (fun band =>
                 let cond_ins := mirc_leaf (CHARA_ins ins) band in
                 append_if (cond_CHARA && cond_ins && cond_tilt) (b_MIRC band) star) dic in
    let dic := for_keys [vr_LR; vr_HR] (fun res =>
                 let cond_ins := vega_leaf (CHARA_ins ins) res in
                 append_if (cond_CHARA && cond_ins && cond_tilt) (b_VEGA res) star) dic in
    let dic := for_keys [cb_V; cb_H; cb_K] (fun band =>
                 let cond_ins := classic_leaf (CHARA_ins ins) band in
                 append_if (cond_CHARA && cond_ins && cond_tilt) (b_CLASSIC band) star) dic in
    let dic := append_if (cond_CHARA && PAVO_R (CHARA_ins ins) && cond_tilt) b_PAVO star dic in
    let dic := append_if (cond_CHARA && MYSTIC_K (CHARA_ins ins) && cond_tilt) b_MYSTIC star dic in
    let dic := append_if (cond_CHARA && CLIMB_K (CHARA_ins ins) && cond_tilt) b_CLIMB star dic in
    Ok (dic, list_no_simbad)
  else
    Ok (dic, (list_no_simbad ++ [star])%list).

Fixpoint count_stars (stars : list (string * survey_record))
    (st : count_dic * list string) : result (count_dic * list string) :=
  match stars with
  | [] => Ok st
  | (star, x) :: rest => st' ← count_star star x st; count_stars rest st'
  end.

(** [count_survey] returns what was printed together with the returned
    pair or the exception that ended the call. *)
Definition count_survey (survey : gmap string survey_record)
    : list console * result (count_dic * list string) :=
  let list_star := map_to_list survey in
  let n_star := length list_star in
  let '(n_chara, n_vlti) := count_sites list_star in
  let out := [cprint_header n_star] in
  match percentage n_vlti n_star, percentage n_chara n_star with
  | Ok p_vlti, Ok p_chara =>
      ((out ++ [print_observability n_vlti p_vlti n_chara p_chara])%list,
       count_stars list_star (empty_dic, []))
  | Raise e, _ | _, Raise e => (out, Raise e)
  end.

(** *** plot_VLTI *)

(** [data['Guiding_star'][0] > 0]: Python 3 does not order a list and an
    integer. *)
Definition list_gt_int (l : list string) (n : Z) : result (list bool) :=
  Raise TypeError.

(** The guide-star label of [plot_VLTI]. *)
Definition aff_guide (g : guiding_star) : result string :=
  match g with
  | Guiding_str _ => Ok "Science"
  | Guiding_list primary secondary =>
      c ← list_gt_int primary 0;
      if (0 <? length c)%nat then Ok "Off axis"
      else if (0 <? length secondary)%nat then Ok "Off axis*"
      else Ok "X"
  | Guiding_absent => Ok "X"
  end.

Definition c_guid (aff : string) : string :=
  if String.eqb aff "X" then "#ed929d"
  else if String.eqb aff "Science" then "#8ee38e"
  else "#fbe570".

(** What the drawing shows of the guide star; the fixed layout of the
    figure is not modelled. *)
Record figure : Type := { fig_star : string; fig_guide : string; fig_guide_color : string }.

Definition plot_VLTI (data : survey_record) : list console * result (option figure) :=
  let star := Name data in
  match Ins data with
  | None => ([cprint ("## Error: " ++ star ++ " not in Simbad!") "red"], Ok None)
  | Some ins =>
      ([], aff ← aff_guide (Guiding_star data);
           Ok (Some {| fig_star := star; fig_guide := aff; fig_guide_color := c_guid aff |}))
  end.

End Display.

(** ** display.py: the markers of the per-star diagrams *)

Module Diagram.

Import Flux Instr Display.

(** The global [color] dictionary, subscripted with [str] of a boolean. *)
Definition color (b : bool) : string := if b then "g" else "#e23449".

(** The resolution keys [plot_mat] asks for. *)
Inductive res_key : Type := key_LR | key_MR | key_HR.

(** [ins['MATISSE'][tel][ft][band][res]]: the L band holds the three
    resolutions; the M and N bands have no ['MR'] key. *)
Definition subscript_res (d : matisse_dic) (t : tel) (m : mode) (b : band) (r : res_key)
    : result bool :=
  let by_mode := observable d t m in
  match b, r with
  | band_L, key_LR => Ok (L_LR (mat_L by_mode))
  | band_L, key_MR => Ok (L_MR (mat_L by_mode))
  | band_L, key_HR => Ok (L_HR (mat_L by_mode))
  | band_M, key_LR => Ok (LR (mat_M by_mode))
  | band_M, key_HR => Ok (HR' (mat_M by_mode))
  | band_N, key_LR => Ok (LR (mat_N by_mode))
  | band_N, key_HR => Ok (HR' (mat_N by_mode))
  | band_M, key_MR | band_N, key_MR => Raise KeyError
  end.

(** One [try: ... plt.scatter(...) except: pass] block of [plot_mat]:
    the colour of the marker, or no marker when the block raised. *)
Definition mat_marker (data : survey_record) (t : tel) (m : mode) (b : band) (r : res_key)
    : option string :=
  try_except
    (ins ← subscript_Ins data;
     leaf ← subscript_res (MATISSE ins) t m b r;
     let c := if leaf && VLTI (Observability data) then true else false in
     mret (Some (color c)))
    None.

(** The markers of one row: at [x0], [x0 + 0.5*off] and [x0 + off]. *)
Record mat_markers : Type := {
  at_x0 : option string;
  at_half_off : option string;
  at_off : option string
}.

(** [plot_mat(data, 'MATISSE', tel, ft, band, x0, y0, off)]; the
    positions are not modelled. *)
Definition plot_mat (data : survey_record) (t : tel) (m : mode) (b : band) : mat_markers :=
  {| at_x0 := mat_marker data t m b key_LR;
     at_half_off := mat_marker data t m b key_MR;
     at_off := mat_marker data t m b key_HR |}.

(** The markers of [plot_VLTI]: one row per MATISSE telescope, mode and
    band, four GRAVITY markers and the PIONIER one. *)
Record VLTI_markers : Type := {
  mk_MATISSE : tel -> mode -> band -> mat_markers;
  mk_GRAVITY : tel -> grav_res -> string;
  mk_PIONIER : string
}.

(** The section [# Observabilities] of [plot_VLTI]. *)
Definition VLTI_observabilities (data : survey_record) (ins : instruments) : VLTI_markers :=
  let cond_VLTI := VLTI (Observability data) in
  {| mk_MATISSE := fun t m b => plot_mat data t m b;
     mk_GRAVITY := fun t r => color (gravity_leaf (GRAVITY ins) t r && cond_VLTI);
     mk_PIONIER := color (pio_H (PIONIER ins) && cond_VLTI) |}.

(** [plot_VLTI] with its markers: they are drawn once the guide-star
    label has been worked out. *)
Definition plot_VLTI_markers (data : survey_record)
    : list console * result (option (figure * VLTI_markers)) :=
  match Ins data with
  | None => ((plot_VLTI data).1, Ok None)
  | Some ins =>
      ((plot_VLTI data).1,
       fig ← (plot_VLTI data).2;
       mret (match fig with
             | Some f => Some (f, VLTI_observabilities data ins)
             | None => None
             end))
  end.

(** What [plot_CHARA] draws: the edge of the star's circle, the
    tip-tilt box and eight markers. *)
Record CHARA_figure : Type := {
  ch_site_color : string;
  ch_guide_color : string;
  ch_VEGA : vega_res -> string;
  ch_PAVO : string;
  ch_MIRC : string;
  ch_CLIMB : string;
  ch_CLASSIC_H : string;
  ch_CLASSIC_K : string
}.

(** [ins['PAVO']] and [ins['CLIMB']] are dictionaries holding one key,
    which Python takes for true: [d and cond_CHARA and cond_tilt] is
    [cond_CHARA and cond_tilt] for them. *)
Definition plot_CHARA (data : survey_record) : list console * option CHARA_figure :=
  let star := Name data in
  match Ins data with
  | None => ([cprint ("## Error: " ++ star ++ " not in Simbad!") "red"], None)
  | Some all =>
      let ins := CHARA_ins all in
      let cond_CHARA := CHARA (Observability data) in
      let cond_tilt := Guiding ins in
      let c_guid := if cond_tilt then "#8ee38e" else "#ed929d" in
      ([], Some {| ch_site_color := color cond_CHARA;
                   ch_guide_color := c_guid;
                   ch_VEGA := fun r => color (vega_leaf ins r && cond_CHARA && cond_tilt);
                   ch_PAVO := color (cond_CHARA && cond_tilt);
                   ch_MIRC := color (MIRC_H (MIRC ins) && cond_CHARA && cond_tilt);
                   ch_CLIMB := color (cond_CHARA && cond_tilt);
                   ch_CLASSIC_H := color (CLASSIC_H (CLASSIC ins) && cond_CHARA && cond_tilt);
                   ch_CLASSIC_K := color (CLASSIC_K (CLASSIC ins) && cond_CHARA && cond_tilt) |})
  end.

End Diagram.

(** * What the claims speak of

    Predicates, reference rules and sample data used to state the
    properties below.  None of them is part of the program. *)

(** ** About instr.py *)

Module InstrSpec.

Import FloatOrder Instr.
Local Open Scope float_scope.
Set Warnings "-inexact-float".

(** *** GRAVITY *)

(** The four K-band flags are false. *)
Definition K_all_false (d : gravity_dic) : Prop :=
  MR (g_UT_K d) = false /\ HR (g_UT_K d) = false /\
  MR (g_AT_K d) = false /\ HR (g_AT_K d) = false.

(** *** MATISSE: lists, chains and tables *)

(** The list each slot of [matisse_limit] is compared against: the
    commissioning list for UT/ft/L, the chosen list with the fall-back
    for UT/ft/M, UT/ft/N and AT/ft/N, and the chosen list elsewhere. *)
Definition compared_list (chosen : limit_table) (t : tel) (m : mode) (b : band) : list float :=
  match t, m, b with
  | tel_UT, mode_ft, band_L => limits limit_commissioning_matisse t m b
  | tel_UT, mode_ft, band_M | tel_UT, mode_ft, band_N | tel_AT, mode_ft, band_N =>
      or_commissioning (limits chosen t m b) (limits limit_commissioning_matisse t m b)
  | _, _, _ => limits chosen t m b
  end.

(** The chain run on the M band: a single test for UT/ft. *)
Definition chain_M (t : tel) (m : mode) : list float -> float -> result res_LR_HR :=
  match t, m with
  | tel_UT, mode_ft => chain_1
  | _, _ => chain_2
  end.

(** The fringe-tracker gate as a function of [magK]. *)
Definition limK_of (magK : float) : limK_dic :=
  if magK <=? 7.5 then {| limK_UT := true; limK_AT := true |}
  else if gtb magK 7.5 && (magK <=? 10) then {| limK_UT := true; limK_AT := false |}
  else {| limK_UT := false; limK_AT := false |}.

(** The entries [matisse_limit] reads must exist: three for an L list,
    two for an M or N list; the three slots with a fall-back may also be
    empty, the UT/ft M list may have any length, and the UT/ft L list of
    the chosen table is never read. *)
Definition limits_well_formed (chosen : limit_table) : bool :=
  let full (n : nat) (l : list float) := (n <=? length l)%nat in
  let full_or_empty (n : nat) (l : list float) :=
    (length l =? 0)%nat || (n <=? length l)%nat in
  full_or_empty 2%nat (limits chosen tel_UT mode_ft band_N)
  && full 3%nat (limits chosen tel_UT mode_noft band_L)
  && full 2%nat (limits chosen tel_UT mode_noft band_M)
  && full 2%nat (limits chosen tel_UT mode_noft band_N)
  && full 3%nat (limits chosen tel_AT mode_ft band_L)
  && full 2%nat (limits chosen tel_AT mode_ft band_M)
  && full_or_empty 2%nat (limits chosen tel_AT mode_ft band_N)
  && full 3%nat (limits chosen tel_AT mode_noft band_L)
  && full 2%nat (limits chosen tel_AT mode_noft band_M)
  && full 2%nat (limits chosen tel_AT mode_noft band_N).

(** *** Not-a-number and boundaries (C7) *)

(** Every leaf fed by a not-a-number magnitude is false (and the GRAVITY
    guide label falls to its last branch). *)
Definition nan_compares_false (eso : limit_table) (source : string) : Prop :=
  (forall magV, K_all_false (gravity_limit magV nan)) /\
  (forall magK, V_cond (gravity_limit nan magK) = "TooFaint") /\
  (forall magV, pio_H (pionier_limit nan magV) = false) /\
  (forall magH magR magV,
     let d := chara_limit nan magH magR magV in
     CLASSIC_K (CLASSIC d) = false /\ CLIMB_K d = false /\
     MIRC_K (MIRC d) = false /\ MYSTIC_K d = false) /\
  (forall magK magR magV,
     let d := chara_limit magK nan magR magV in
     CLASSIC_H (CLASSIC d) = false /\ MIRC_H (MIRC d) = false) /\
  (forall magK magH magV,
     let d := chara_limit magK magH nan magV in
     PAVO_R d = false /\ Guiding d = false) /\
  (forall magK magH magR,
     let d := chara_limit magK magH magR nan in
     CLASSIC_V (CLASSIC d) = false /\ VEGA_LR (VEGA d) = false /\
     VEGA_MR (VEGA d) = false /\ VEGA_HR (VEGA d) = false /\ Guiding d = false) /\
  (forall magM magN magK d t m,
     matisse_limit eso nan magM magN magK source = Ok d ->
     mat_L (observable d t m) = {| L_LR := false; L_MR := false; L_HR := false |}) /\
  (forall magL magN magK d t m,
     matisse_limit eso magL nan magN magK source = Ok d ->
     mat_M (observable d t m) = {| LR := false; HR' := false |}) /\
  (forall magL magM magK d t m,
     matisse_limit eso magL magM nan magK source = Ok d ->
     mat_N (observable d t m) = {| LR := false; HR' := false |}) /\
  (forall magL magM magN d,
     matisse_limit eso magL magM magN nan source = Ok d ->
     limK d = {| limK_UT := false; limK_AT := false |}).

(** Each threshold is granted at the magnitude equal to it. *)
Definition boundaries_inclusive (eso : limit_table) (source : string) : Prop :=
  (forall magK,
     V_cond (gravity_limit 11 magK) = "AT" /\ V_cond (gravity_limit 16 magK) = "UT") /\
  (forall magV,
     g_AT_K (gravity_limit magV (-4)) = {| MR := false; HR := true |} /\
     g_AT_K (gravity_limit magV (-1)) = {| MR := false; HR := true |} /\
     g_AT_K (gravity_limit magV 1) = {| MR := true; HR := true |} /\
     g_UT_K (gravity_limit magV 4) = {| MR := false; HR := true |} /\
     g_UT_K (gravity_limit magV 8) = {| MR := true; HR := true |} /\
     g_AT_K (gravity_limit magV 8) = {| MR := true; HR := true |} /\
     g_UT_K (gravity_limit magV 9) = {| MR := true; HR := true |}) /\
  (forall magV,
     pio_H (pionier_limit (-1) magV) = true /\ pio_H (pionier_limit 9 magV) = true) /\
  (forall magK magH magR magV,
     CLASSIC_K (CLASSIC (chara_limit 6.5 magH magR magV)) = true /\
     CLASSIC_H (CLASSIC (chara_limit magK 7 magR magV)) = true /\
     CLASSIC_V (CLASSIC (chara_limit magK magH magR 10)) = true /\
     CLIMB_K (chara_limit 6 magH magR magV) = true /\
     PAVO_R (chara_limit magK magH 7 magV) = true /\
     MIRC_H (MIRC (chara_limit magK 6.5 magR magV)) = true /\
     MIRC_K (MIRC (chara_limit 3 magH magR magV)) = true /\
     MYSTIC_K (chara_limit 6 magH magR magV) = true /\
     VEGA_HR (VEGA (chara_limit magK magH magR 4.2)) = true /\
     VEGA_MR (VEGA (chara_limit magK magH magR 5.8)) = true /\
     VEGA_LR (VEGA (chara_limit magK magH magR 7.2)) = true) /\
  (forall magK magH mag,
     is_number mag = true ->
     Guiding (chara_limit magK magH mag 10) = true /\
     Guiding (chara_limit magK magH 10 mag) = true) /\
  (forall magL magM magN d,
     (matisse_limit eso magL magM magN 7.5 source = Ok d ->
      limK d = {| limK_UT := true; limK_AT := true |}) /\
     (matisse_limit eso magL magM magN 10 source = Ok d ->
      limK d = {| limK_UT := true; limK_AT := false |})) /\
  (forall t m b0 b1 b2 rest magM magN magK d,
     compared_list (chosen_table eso source) t m band_L = b0 :: b1 :: b2 :: rest ->
     is_number b0 && is_number b1 && is_number b2 = true ->
     (matisse_limit eso b2 magM magN magK source = Ok d ->
      L_HR (mat_L (observable d t m)) = true) /\
     (matisse_limit eso b1 magM magN magK source = Ok d ->
      L_MR (mat_L (observable d t m)) = true) /\
     (matisse_limit eso b0 magM magN magK source = Ok d ->
      L_LR (mat_L (observable d t m)) = true)) /\
  (forall t m b0 b1 rest magL magN magK d,
     compared_list (chosen_table eso source) t m band_M = b0 :: b1 :: rest ->
     is_number b0 && is_number b1 = true ->
     (matisse_limit eso magL b1 magN magK source = Ok d ->
      (t, m) <> (tel_UT, mode_ft) ->
      HR' (mat_M (observable d t m)) = true) /\
     (matisse_limit eso magL b0 magN magK source = Ok d ->
      LR (mat_M (observable d t m)) = true)) /\
  (forall t m b0 b1 rest magL magM magK d,
     compared_list (chosen_table eso source) t m band_N = b0 :: b1 :: rest ->
     is_number b0 && is_number b1 = true ->
     (matisse_limit eso magL magM b1 magK source = Ok d ->
      HR' (mat_N (observable d t m)) = true) /\
     (matisse_limit eso magL magM b0 magK source = Ok d ->
      LR (mat_N (observable d t m)) = true)).

(** *** Sample tables and the lists the claims name (C3, C4) *)

(** A table of the scraped shape: the slots left empty by
    [limit_ESO_matisse_web] are filled by the fall-back. *)
Definition example_web : limit_table :=
  dic_web [4; 1; -1.5] [3; 1] [-0.5; -2] [7; 3.5; 1] [6; 3.5] [2.5; 1] [7.5; 6; 4] [5; 1.5].

(** The list C3 names for a slot: the chosen table's list, or the
    commissioning table's list when the chosen one is empty. *)
Definition claimed_list (chosen : limit_table) (t : tel) (m : mode) (b : band) : list float :=
  match limits chosen t m b with
  | [] => limits limit_commissioning_matisse t m b
  | l => l
  end.

(** What [matisse_limit] returns on [example_web] for magnitudes 5. *)
Definition example_dic : matisse_dic :=
  Eval vm_compute in
    match matisse_limit example_web 5 5 5 5 "ESO" with
    | Ok d => d
    | Raise _ =>
        let none := {| mat_L := {| L_LR := false; L_MR := false; L_HR := false |};
                       mat_M := {| LR := false; HR' := false |};
                       mat_N := {| LR := false; HR' := false |} |} in
        {| mat_AT := {| mat_ft := none; mat_noft := none |};
           mat_UT := {| mat_ft := none; mat_noft := none |};
           limK := {| limK_UT := false; limK_AT := false |} |}
    end.

(** The two-tier rule of the specification over a list [b0, b1]. *)
Definition two_tier_rule (b0 b1 mag : float) (r : res_LR_HR) : Prop :=
  ((mag <=? b1) = true -> LR r = true /\ HR' r = true) /\
  (gtb mag b1 = true /\ (mag <=? b0) = true -> LR r = true /\ HR' r = false) /\
  (gtb mag b0 = true -> LR r = false /\ HR' r = false).

(** The tables this program builds itself: the commissioning table, or
    a table of the scraped shape holding the entries [matisse_limit]
    reads. *)
Definition own_table (T : limit_table) : Prop :=
  T = limit_commissioning_matisse \/
  exists at_noft_L at_noft_M at_noft_N ut_noft_L ut_noft_M ut_noft_N at_ft_L at_ft_M,
    T = dic_web at_noft_L at_noft_M at_noft_N ut_noft_L ut_noft_M ut_noft_N at_ft_L at_ft_M /\
    limits_well_formed T = true.

(** *** Flags of two results *)

(** The flags of every slot are nested: high resolution implies medium
    resolution implies low resolution. *)
Definition nested_flags (d : matisse_dic) : Prop :=
  forall t m,
    (L_HR (mat_L (observable d t m)) = true -> L_MR (mat_L (observable d t m)) = true) /\
    (L_MR (mat_L (observable d t m)) = true -> L_LR (mat_L (observable d t m)) = true) /\
    (HR' (mat_M (observable d t m)) = true -> LR (mat_M (observable d t m)) = true) /\
    (HR' (mat_N (observable d t m)) = true -> LR (mat_N (observable d t m)) = true).

(** Every flag that is true in [d] is true in [d']. *)
Definition flags_kept (d d' : matisse_dic) : Prop :=
  (forall t m,
     (L_LR (mat_L (observable d t m)) = true -> L_LR (mat_L (observable d' t m)) = true) /\
     (L_MR (mat_L (observable d t m)) = true -> L_MR (mat_L (observable d' t m)) = true) /\
     (L_HR (mat_L (observable d t m)) = true -> L_HR (mat_L (observable d' t m)) = true) /\
     (LR (mat_M (observable d t m)) = true -> LR (mat_M (observable d' t m)) = true) /\
     (HR' (mat_M (observable d t m)) = true -> HR' (mat_M (observable d' t m)) = true) /\
     (LR (mat_N (observable d t m)) = true -> LR (mat_N (observable d' t m)) = true) /\
     (HR' (mat_N (observable d t m)) = true -> HR' (mat_N (observable d' t m)) = true)) /\
  (limK_UT (limK d) = true -> limK_UT (limK d') = true) /\
  (limK_AT (limK d) = true -> limK_AT (limK d') = true).

(** The third entry of every L-band list that is read is a number. *)
Definition L_floor_is_number (chosen : limit_table) : Prop :=
  forall t m x, index (compared_list chosen t m band_L) 2 = Ok x -> is_number x = true.

(** What [matisse_limit] answers on [example_web] at magnitude 1. *)
Definition example_dic_bright : matisse_dic :=
  Eval vm_compute in
    match matisse_limit example_web 1 1 1 1 "ESO" with
    | Ok d => d
    | Raise _ => example_dic
    end.

(** What [matisse_limit] answers on the commissioning table at
    magnitude 5. *)
Definition example_dic_commissioning : matisse_dic :=
  Eval vm_compute in
    match matisse_limit limit_commissioning_matisse 5 5 5 5 "consortium" with
    | Ok d => d
    | Raise _ => example_dic
    end.

End InstrSpec.

(** ** About the provider *)

Module WebSpec.

Import FloatOrder Instr InstrSpec.
Local Open Scope float_scope.
Set Warnings "-inexact-float".

(** The reading of C3, for a call that returned [d] on the table
    [chosen]: every slot is compared against the chosen list, or
    against the commissioning list when the chosen one is empty. *)
Definition compares_as_claimed (chosen : limit_table) (magL magM magN : float)
    (d : matisse_dic) : Prop :=
  (forall t m,
     chain_L (claimed_list chosen t m band_L) magL = Ok (mat_L (observable d t m)) /\
     chain_M t m (claimed_list chosen t m band_M) magM = Ok (mat_M (observable d t m)) /\
     chain_2 (claimed_list chosen t m band_N) magN = Ok (mat_N (observable d t m))) /\
  (limits chosen tel_AT mode_ft band_N = [] ->
     chain_2 [1.6; 0.1] magN = Ok (mat_N (observable d tel_AT mode_ft))).

(** The magnitudes of [example_web], as a page gives them. *)
Definition example_page : Web.web_limits :=
  {| Web.at_noft_L := (4, 1, -1.5); Web.at_noft_M := (3, 1); Web.at_noft_N := (-0.5, -2);
     Web.ut_noft_L := (7, 3.5, 1); Web.ut_noft_M := (6, 3.5); Web.ut_noft_N := (2.5, 1);
     Web.at_ft_L := (7.5, 6, 4); Web.at_ft_M := (5, 1.5) |}.

(** The page can be fetched; nothing is cached yet. *)
Definition online : Web.world :=
  {| Web.eso_page := Ok example_page; Web.cache_file := None; Web.stdout := [] |}.

(** No network, and nothing cached. *)
Definition offline : Web.world :=
  {| Web.eso_page := Raise URLError; Web.cache_file := None; Web.stdout := [] |}.

(** [online] after a refresh. *)
Definition refreshed : Web.world :=
  {| Web.eso_page := Ok example_page; Web.cache_file := Some example_page;
     Web.stdout := ["Check MATISSE limits from ESO web site..."] |}.

End WebSpec.

(** ** About display.py *)

Module DisplaySpec.

Import FloatOrder Instr Display.
Local Open Scope float_scope.

(** *** Who enters which list (C1) *)

(** The lists of the CHARA suite. *)
Definition is_CHARA_bucket (b : bucket) : bool :=
  match b with
  | b_MATISSE _ _ _ _ | b_GRAVITY _ _ | b_PIONIER => false
  | b_PAVO | b_CLASSIC _ | b_CLIMB | b_MYSTIC | b_MIRC _ | b_VEGA _ => true
  end.

(** The Observability Result leaf a list of the Count Result goes with. *)
Definition leaf (ins : instruments) (b : bucket) : bool :=
  match b with
  | b_MATISSE t m bd r => matisse_leaf (MATISSE ins) t m bd r
  | b_GRAVITY t r => gravity_leaf (GRAVITY ins) t r
  | b_PIONIER => pio_H (PIONIER ins)
  | b_PAVO => PAVO_R (CHARA_ins ins)
  | b_CLASSIC bd => classic_leaf (CHARA_ins ins) bd
  | b_CLIMB => CLIMB_K (CHARA_ins ins)
  | b_MYSTIC => MYSTIC_K (CHARA_ins ins)
  | b_MIRC bd => mirc_leaf (CHARA_ins ins) bd
  | b_VEGA r => vega_leaf (CHARA_ins ins) r
  end.

(** The site-observability flag that goes with a list. *)
Definition site_flag (x : survey_record) (b : bucket) : bool :=
  if is_CHARA_bucket b then CHARA (Observability x) else VLTI (Observability x).

(** The condition C1 states: site flag, guide availability, leaf and, for
    the CHARA suite, the tip-tilt flag as well. *)
Definition claimed_cond (x : survey_record) (ins : instruments) (b : bucket) : bool :=
  site_flag x b && guid_of (Guiding_star x) && leaf ins b
  && (if is_CHARA_bucket b then Guiding (CHARA_ins ins) else true).

(** The condition the code tests: the guide availability enters the VLTI
    lists only; the CHARA lists test the tip-tilt flag instead. *)
Definition tested_cond (x : survey_record) (ins : instruments) (b : bucket) : bool :=
  if is_CHARA_bucket b then
    CHARA (Observability x) && leaf ins b && Guiding (CHARA_ins ins)
  else
    VLTI (Observability x) && guid_of (Guiding_star x) && leaf ins b.

(** What [count_star] appends; the VEGA loop runs over ['LR'] and ['HR']
    and leaves the ['MR'] list alone. *)
Definition appended (x : survey_record) (ins : instruments) (b : bucket) : bool :=
  if decide (b = b_VEGA vr_MR) then false else tested_cond x ins b.

(** *** A small survey *)

Definition example_mags : magnitudes :=
  {| magV := 5; magR := 5; magG := 5; magH := 5;
     magK := 5; magL := 5; magM := 5; magN := 5 |}.

Definition example_ins : instruments :=
  {| MATISSE := InstrSpec.example_dic;
     GRAVITY := gravity_limit 5 5;
     PIONIER := pionier_limit 5 5;
     CHARA_ins := chara_limit 5 5 5 5 |}.

(** Matched in Simbad, observable from both sites, no guide star. *)
Definition star_A : survey_record :=
  {| Name := "HD 1"; Simbad := true; SED := Some [];
     Gaia_dr2 := {| check := true; Dkpc := 1 |};
     Guiding_star := Guiding_absent;
     Observability := {| VLTI := true; CHARA := true |};
     Mag := example_mags; Ins := Some example_ins |}.

(** Not in Simbad. *)
Definition star_B : survey_record :=
  {| Name := "HD 9"; Simbad := false; SED := None;
     Gaia_dr2 := {| check := false; Dkpc := 0 |};
     Guiding_star := Guiding_absent;
     Observability := {| VLTI := false; CHARA := false |};
     Mag := example_mags; Ins := None |}.

(** Matched in Simbad, with one off-axis guide candidate. *)
Definition star_C : survey_record :=
  {| Name := "HD 2"; Simbad := true; SED := Some [];
     Gaia_dr2 := {| check := true; Dkpc := 1 |};
     Guiding_star := Guiding_list ["HD 3"] [];
     Observability := {| VLTI := true; CHARA := true |};
     Mag := example_mags; Ins := Some example_ins |}.

Definition example_survey : gmap string survey_record :=
  <["HD 1" := star_A]> (<["HD 9" := star_B]> ∅).

(** What [count_survey] prints and returns on [example_survey]. *)
Definition example_out : list console := (count_survey example_survey).1.

Definition example_count : count_dic :=
  match (count_survey example_survey).2 with
  | Ok (dic, _) => dic
  | Raise _ => empty_dic
  end.

Definition example_unmatched : list string :=
  match (count_survey example_survey).2 with
  | Ok (_, list_no_simbad) => list_no_simbad
  | Raise _ => []
  end.

(** *** The summary counts (C10) *)

(** A star counted for a site: Simbad-matched, SED present, observable
    from the site. *)
Definition counted (site : observability -> bool) (p : string * survey_record) : bool :=
  Simbad p.2 && negb (bool_decide (SED p.2 = None)) && site (Observability p.2).

(** The number of stars counted for a site. *)
Definition site_count (site : observability -> bool)
    (survey : gmap string survey_record) : nat :=
  length (filter (fun p => counted site p = true) (map_to_list survey)).

(** 100 times the count over the number of stars. *)
Definition site_percentage (site : observability -> bool)
    (survey : gmap string survey_record) : Q :=
  (100 * inject_Z (Z.of_nat (site_count site survey))
   / inject_Z (Z.of_nat (size survey)))%Q.

(** *** What the collection holds *)

(** What [count_survey] returns splits the stars of the collection. *)
Definition splits_the_stars (survey : gmap string survey_record)
    (dic : count_dic) (unmatched : list string) : Prop :=
  (forall name,
     name ∈ unmatched <-> exists x, survey !! name = Some x /\ Simbad x = false) /\
  (forall name b,
     name ∈ dic b -> exists x, survey !! name = Some x /\ Simbad x = true) /\
  (forall name b, name ∈ dic b -> name ∉ unmatched).

(** A Simbad-matched star whose [Ins] tree is absent. *)
Definition has_matched_star_without_Ins (survey : gmap string survey_record) : Prop :=
  exists name x, survey !! name = Some x /\ Simbad x = true /\ Ins x = None.

(** The trees of a collection come from the VLTI threshold functions. *)
Definition VLTI_trees_from_limits (survey : gmap string survey_record) : Prop :=
  forall name x ins, survey !! name = Some x -> Ins x = Some ins ->
    (exists eso magL magM magN magK source,
        matisse_limit eso magL magM magN magK source = Ok (MATISSE ins)) /\
    (exists magV magK, GRAVITY ins = gravity_limit magV magK).

(** The trees of a collection come from [chara_limit]. *)
Definition CHARA_trees_from_limits (survey : gmap string survey_record) : Prop :=
  forall name x ins, survey !! name = Some x -> Ins x = Some ins ->
    exists magK magH magR magV, CHARA_ins ins = chara_limit magK magH magR magV.

End DisplaySpec.

(** ** About the diagrams *)

Module DiagramSpec.

Import Instr Display DisplaySpec Diagram.

Definition band_of (b : mat_band) : band :=
  match b with mb_L => band_L | mb_N => band_N end.

(** The marker of a MATISSE row that goes with a resolution counted by
    [count_survey]: low resolution at [x0], high resolution at [x0 + off]. *)
Definition at_res (r : mat_res) (row : mat_markers) : option string :=
  match r with mr_LR => at_x0 row | mr_HR => at_off row end.

(** The marker of [plot_VLTI] that goes with a list of the Count Result. *)
Definition VLTI_marker (mk : VLTI_markers) (b : bucket) : option string :=
  match b with
  | b_MATISSE t m bd r => at_res r (mk_MATISSE mk t m (band_of bd))
  | b_GRAVITY t r => Some (mk_GRAVITY mk t r)
  | b_PIONIER => Some (mk_PIONIER mk)
  | _ => None
  end.

(** The marker of [plot_CHARA] that goes with a list of the Count
    Result; MIRC K, MYSTIC and CLASSIC V have a list and no marker. *)
Definition CHARA_marker (fig : CHARA_figure) (b : bucket) : option string :=
  match b with
  | b_VEGA r => Some (ch_VEGA fig r)
  | b_PAVO => Some (ch_PAVO fig)
  | b_MIRC mi_H => Some (ch_MIRC fig)
  | b_CLIMB => Some (ch_CLIMB fig)
  | b_CLASSIC cb_H => Some (ch_CLASSIC_H fig)
  | b_CLASSIC cb_K => Some (ch_CLASSIC_K fig)
  | _ => None
  end.

(** The CHARA lists whose marker tests the same leaf as the list. *)
Definition leaf_marked (b : bucket) : bool :=
  match b with
  | b_VEGA vr_LR | b_VEGA vr_HR | b_MIRC mi_H | b_CLASSIC cb_H | b_CLASSIC cb_K => true
  | _ => false
  end.

(** Every marker of [plot_VLTI] is red. *)
Definition all_red_VLTI (mk : VLTI_markers) : Prop :=
  (forall t m b c,
     at_x0 (mk_MATISSE mk t m b) = Some c \/
     at_half_off (mk_MATISSE mk t m b) = Some c \/
     at_off (mk_MATISSE mk t m b) = Some c -> c = color false) /\
  (forall t r, mk_GRAVITY mk t r = color false) /\
  mk_PIONIER mk = color false.

(** Every marker of [plot_CHARA] is red. *)
Definition all_red_CHARA (fig : CHARA_figure) : Prop :=
  (forall r, ch_VEGA fig r = color false) /\
  ch_PAVO fig = color false /\ ch_MIRC fig = color false /\
  ch_CLIMB fig = color false /\
  ch_CLASSIC_H fig = color false /\ ch_CLASSIC_K fig = color false.

(** Magnitude 5 in every band but R, where the star is of magnitude 8:
    too faint for PAVO's test on R. *)
Definition mags_S : magnitudes :=
  {| magV := 5; magR := 8; magG := 5; magH := 5;
     magK := 5; magL := 5; magM := 5; magN := 5 |}.

(** The trees the threshold functions give for these magnitudes. *)
Definition ins_S : instruments :=
  {| MATISSE := InstrSpec.example_dic;
     GRAVITY := gravity_limit 5 5;
     PIONIER := pionier_limit 5 5;
     CHARA_ins := chara_limit 5 5 8 5 |}.

(** Matched in Simbad, the science star is its own guide star. *)
Definition star_S : survey_record :=
  {| Name := "HD 4"; Simbad := true; SED := Some [];
     Gaia_dr2 := {| check := true; Dkpc := 1 |};
     Guiding_star := Guiding_str "Science star";
     Observability := {| VLTI := true; CHARA := true |};
     Mag := mags_S; Ins := Some ins_S |}.

(** The same star, out of reach of both sites. *)
Definition star_far : survey_record :=
  {| Name := "HD 5"; Simbad := true; SED := Some [];
     Gaia_dr2 := {| check := true; Dkpc := 1 |};
     Guiding_star := Guiding_str "Science star";
     Observability := {| VLTI := false; CHARA := false |};
     Mag := mags_S; Ins := Some ins_S |}.

Definition survey_S : gmap string survey_record := <["HD 4" := star_S]> ∅.

Definition count_S : count_dic :=
  match (count_survey survey_S).2 with
  | Ok (dic, _) => dic
  | Raise _ => empty_dic
  end.

End DiagramSpec.

(** * Properties *)

(** ** Order facts about the IEEE comparisons

    Derived from the specification of the primitive comparisons over
    [spec_float]: the comparison is lexicographic on sign, exponent and
    mantissa, and undefined as soon as one side is not-a-number. *)

Module FloatFacts.

Import FloatOrder.
Local Open Scope float_scope.

Local Ltac sf_cases :=
  repeat match goal with
  | H : context [Z.compare ?a ?b] |- _ => destruct (Z.compare_spec a b)
  | |- context [Z.compare ?a ?b] => destruct (Z.compare_spec a b)
  | H : context [Pos.compare_cont Eq ?a ?b] |- _ =>
      change (Pos.compare_cont Eq a b) with (Pos.compare a b) in H;
      destruct (Pos.compare_spec a b)
  | |- context [Pos.compare_cont Eq ?a ?b] =>
      change (Pos.compare_cont Eq a b) with (Pos.compare a b);
      destruct (Pos.compare_spec a b)
  end;
  simpl in *; try reflexivity; try discriminate; try lia.

Local Ltac sf_destruct x :=
  let s := fresh "s" in
  destruct x as [s|s| |s ? ?]; try destruct s.

Lemma SFltb_SFleb_trans (x y z : spec_float) :
  SFltb x y = true -> SFleb y z = true -> SFltb x z = true.
Proof.
  unfold SFltb, SFleb, SFcompare.
  sf_destruct x; sf_destruct y; sf_destruct z;
    intros H1 H2; try discriminate; try reflexivity; sf_cases.
Qed.

Lemma SFleb_SFltb_trans (x y z : spec_float) :
  SFleb x y = true -> SFltb y z = true -> SFltb x z = true.
Proof.
  unfold SFltb, SFleb, SFcompare.
  sf_destruct x; sf_destruct y; sf_destruct z;
    intros H1 H2; try discriminate; try reflexivity; sf_cases.
Qed.

Lemma SFleb_trans (x y z : spec_float) :
  SFleb x y = true -> SFleb y z = true -> SFleb x z = true.
Proof.
  unfold SFleb, SFcompare.
  sf_destruct x; sf_destruct y; sf_destruct z;
    intros H1 H2; try discriminate; try reflexivity; sf_cases.
Qed.

Lemma SFltb_SFleb_false (x y : spec_float) :
  SFltb x y = true -> SFleb y x = false.
Proof.
  unfold SFltb, SFleb, SFcompare.
  sf_destruct x; sf_destruct y;
    intros H1; try discriminate; try reflexivity; sf_cases.
Qed.

Lemma SFleb_SFltb_false (x y : spec_float) :
  SFleb x y = true -> SFltb y x = false.
Proof.
  unfold SFltb, SFleb, SFcompare.
  sf_destruct x; sf_destruct y;
    intros H1; try discriminate; try reflexivity; sf_cases.
Qed.

Lemma SFleb_refl (x : spec_float) : x <> S754_nan -> SFleb x x = true.
Proof.
  unfold SFleb, SFcompare.
  sf_destruct x; intros H; try reflexivity; try congruence; sf_cases.
Qed.

Lemma SFleb_total (x y : spec_float) :
  x <> S754_nan -> y <> S754_nan -> SFleb x y = true \/ SFltb y x = true.
Proof.
  unfold SFltb, SFleb, SFcompare.
  sf_destruct x; sf_destruct y; intros Hx Hy; try congruence;
    try (left; reflexivity); try (right; reflexivity).
  all: sf_cases; try (left; reflexivity); try (right; reflexivity).
Qed.

Lemma Prim2SF_nan : Prim2SF nan = S754_nan.
Proof. reflexivity. Qed.

Lemma Prim2SF_not_nan (x : float) : x <> nan -> Prim2SF x <> S754_nan.
Proof.
  intros Hx H. apply Hx. apply Prim2SF_inj. rewrite H. reflexivity.
Qed.

(** A not-a-number operand makes every comparison false. *)
Lemma leb_nan_l (x : float) : (nan <=? x) = false.
Proof. rewrite leb_spec. reflexivity. Qed.

Lemma leb_nan_r (x : float) : (x <=? nan) = false.
Proof. rewrite leb_spec, Prim2SF_nan. unfold SFleb. destruct (Prim2SF x) as [[]|[]| |[] ? ?]; reflexivity. Qed.

Lemma ltb_nan_l (x : float) : (nan <? x) = false.
Proof. rewrite ltb_spec. reflexivity. Qed.

Lemma ltb_nan_r (x : float) : (x <? nan) = false.
Proof. rewrite ltb_spec, Prim2SF_nan. unfold SFltb. destruct (Prim2SF x) as [[]|[]| |[] ? ?]; reflexivity. Qed.

Lemma leb_refl (x : float) : x <> nan -> (x <=? x) = true.
Proof. intros H. rewrite leb_spec. apply SFleb_refl, Prim2SF_not_nan, H. Qed.

Lemma leb_trans (x y z : float) :
  (x <=? y) = true -> (y <=? z) = true -> (x <=? z) = true.
Proof. rewrite !leb_spec. apply SFleb_trans. Qed.

Lemma ltb_leb_trans (x y z : float) :
  (x <? y) = true -> (y <=? z) = true -> (x <? z) = true.
Proof. rewrite !ltb_spec, !leb_spec. apply SFltb_SFleb_trans. Qed.

Lemma leb_ltb_trans (x y z : float) :
  (x <=? y) = true -> (y <? z) = true -> (x <? z) = true.
Proof. rewrite !ltb_spec, !leb_spec. apply SFleb_SFltb_trans. Qed.

Lemma ltb_leb_false (x y : float) : (x <? y) = true -> (y <=? x) = false.
Proof. rewrite ltb_spec, leb_spec. apply SFltb_SFleb_false. Qed.

Lemma leb_ltb_false (x y : float) : (x <=? y) = true -> (y <? x) = false.
Proof. rewrite ltb_spec, leb_spec. apply SFleb_SFltb_false. Qed.

Lemma leb_total (x y : float) :
  x <> nan -> y <> nan -> (x <=? y) = true \/ (y <? x) = true.
Proof.
  intros Hx Hy. rewrite ltb_spec, leb_spec.
  apply SFleb_total; apply Prim2SF_not_nan; assumption.
Qed.

Lemma leb_true_not_nan_l (x y : float) : (x <=? y) = true -> x <> nan.
Proof. intros H ->. rewrite leb_nan_l in H. discriminate. Qed.

Lemma leb_true_not_nan_r (x y : float) : (x <=? y) = true -> y <> nan.
Proof. intros H ->. rewrite leb_nan_r in H. discriminate. Qed.


Lemma SFltb_SFleb (x y : spec_float) : SFltb x y = true -> SFleb x y = true.
Proof.
  unfold SFltb, SFleb. destruct (SFcompare x y) as [[]|]; intros; try discriminate; reflexivity.
Qed.

Lemma ltb_leb (x y : float) : (x <? y) = true -> (x <=? y) = true.
Proof. rewrite ltb_spec, leb_spec. apply SFltb_SFleb. Qed.

Lemma ltb_asym (x y : float) : (x <? y) = true -> (y <? x) = false.
Proof. intros H. apply leb_ltb_false, ltb_leb, H. Qed.

(** [x < c <= c'] refutes both [c' <= x] and [c' < x]. *)
Lemma below_const (x c c' : float) :
  (x <? c) = true -> (c <=? c') = true ->
  (c' <=? x) = false /\ (c' <? x) = false.
Proof.
  intros Hx Hc. pose proof (ltb_leb_trans _ _ _ Hx Hc) as H.
  split; [apply ltb_leb_false, H | apply ltb_asym, H].
Qed.

(** [c' <= c < x] refutes [x <= c']. *)
Lemma above_const (x c c' : float) :
  (c <? x) = true -> (c' <=? c) = true -> (x <=? c') = false.
Proof.
  intros Hx Hc. apply ltb_leb_false. apply (leb_ltb_trans _ _ _ Hc Hx).
Qed.

Lemma is_number_not_nan (x : float) : is_number x = true -> x <> nan.
Proof. intros H ->. vm_compute in H. discriminate. Qed.

Lemma is_number_leb_refl (x : float) : is_number x = true -> (x <=? x) = true.
Proof. intros H. apply leb_refl, is_number_not_nan, H. Qed.

Lemma is_number_total (x y : float) :
  is_number x = true -> is_number y = true -> (x <=? y) = true \/ (y <? x) = true.
Proof. intros Hx Hy. apply leb_total; apply is_number_not_nan; assumption. Qed.

End FloatFacts.

(** ** The threshold rules of instr.py *)

Module InstrFacts.

Import FloatOrder FloatFacts Instr InstrSpec.
Local Open Scope float_scope.
Set Warnings "-inexact-float".

(** *** GRAVITY: the K-band bins *)

(** C5, as stated, fails at [magK = -4]: the first bin of the code is
    closed on the left ([magK >= -4.]), so a star of K magnitude exactly
    -4 is observable with the ATs at high resolution. *)
Lemma gravity_limit_K_minus4_observable :
  (-4 <=? -4) = true /\ ~ K_all_false (gravity_limit 0 (-4)).
Proof.
  split; [reflexivity |].
  intros (_ & _ & _ & H). vm_compute in H. discriminate.
Qed.

(** C5, amended: for every K magnitude with [magK < -4] or [magK > 9],
    [gravity_limit] returns false for the four K-band flags. *)
Theorem gravity_limit_K_out_of_range (magV magK : float) :
  (magK <? -4) = true \/ gtb magK 9 = true ->
  K_all_false (gravity_limit magV magK).
Proof.
  unfold gravity_limit, geb, gtb. intros [H | H].
  - destruct (below_const _ _ (-4) H eq_refl) as [E1 _].
    destruct (below_const _ _ (-1) H eq_refl) as [_ E2].
    destruct (below_const _ _ 1 H eq_refl) as [_ E3].
    destruct (below_const _ _ 4 H eq_refl) as [_ E4].
    destruct (below_const _ _ 8 H eq_refl) as [_ E5].
    rewrite E1, E2, E3, E4, E5. simpl. repeat split.
  - rewrite (above_const _ _ (-1) H eq_refl), (above_const _ _ 1 H eq_refl),
      (above_const _ _ 4 H eq_refl), (above_const _ _ 8 H eq_refl),
      (above_const _ _ 9 H eq_refl).
    rewrite !andb_false_r. simpl. repeat split.
Qed.

Lemma gravity_limit_K_out_of_range_witness :
  ((-4.5 <? -4) = true \/ gtb (-4.5) 9 = true) /\ K_all_false (gravity_limit 3 (-4.5)).
Proof.
  split.
  - left. reflexivity.
  - apply (gravity_limit_K_out_of_range 3 (-4.5)). left. reflexivity.
Defined.

(** *** MATISSE: the chains and the lists they read *)

Lemma chain_L_total (lim : list float) (mag : float) :
  (3 <= length lim)%nat -> exists r, chain_L lim mag = Ok r.
Proof.
  destruct lim as [|b0 [|b1 [|b2 rest]]]; simpl; try lia. intros _.
  unfold chain_L; simpl.
  destruct (mag <=? b2); [eauto |].
  destruct (gtb mag b2 && (mag <=? b1)); [eauto |].
  destruct (gtb mag b1 && (mag <=? b0)); eauto.
Qed.

Lemma chain_2_total (lim : list float) (mag : float) :
  (2 <= length lim)%nat -> exists r, chain_2 lim mag = Ok r.
Proof.
  destruct lim as [|b0 [|b1 rest]]; simpl; try lia. intros _.
  unfold chain_2; simpl.
  destruct (mag <=? b1); [eauto |].
  destruct (gtb mag b1 && (mag <=? b0)); eauto.
Qed.

Lemma chain_1_total (lim : list float) (mag : float) :
  (1 <= length lim)%nat -> exists r, chain_1 lim mag = Ok r.
Proof.
  destruct lim as [|b0 rest]; simpl; try lia. intros _.
  unfold chain_1; simpl. destruct (mag <=? b0); eauto.
Qed.

(** An empty list is exactly what triggers the fall-back. *)
Lemma or_commissioning_nil (estimated : list float) :
  or_commissioning [] estimated = estimated.
Proof. reflexivity. Qed.

Lemma or_commissioning_cons (b : float) (lim estimated : list float) :
  or_commissioning (b :: lim) estimated = b :: lim.
Proof. reflexivity. Qed.

Lemma or_commissioning_length (lim estimated : list float) (n : nat) :
  (length lim = 0 \/ n <= length lim)%nat -> (n <= length estimated)%nat ->
  (n <= length (or_commissioning lim estimated))%nat.
Proof.
  destruct lim as [|b lim]; simpl; [intros _ H; exact H |].
  intros [H | H] _; [discriminate | exact H].
Qed.

Local Ltac bind_cases :=
  repeat match goal with
  | |- context [mbind _ ?m] =>
      let E := fresh "E" in destruct m eqn:E; simpl; [| discriminate]
  end.

(** What a successful call of [matisse_limit] computed, slot by slot. *)
Lemma matisse_limit_slots (eso : limit_table) (magL magM magN magK : float)
    (source : string) (d : matisse_dic) :
  matisse_limit eso magL magM magN magK source = Ok d ->
  limK d = limK_of magK /\
  forall t m,
    chain_L (compared_list (chosen_table eso source) t m band_L) magL
      = Ok (mat_L (observable d t m)) /\
    chain_M t m (compared_list (chosen_table eso source) t m band_M) magM
      = Ok (mat_M (observable d t m)) /\
    chain_2 (compared_list (chosen_table eso source) t m band_N) magN
      = Ok (mat_N (observable d t m)).
Proof.
  unfold matisse_limit. bind_cases. intros [= <-].
  split; [reflexivity |].
  intros [] []; simpl; repeat split; assumption.
Qed.

Lemma matisse_limit_total (eso : limit_table) (magL magM magN magK : float)
    (source : string) :
  limits_well_formed (chosen_table eso source) = true ->
  exists d, matisse_limit eso magL magM magN magK source = Ok d.
Proof.
  unfold limits_well_formed. set (T := chosen_table eso source).
  rewrite !andb_true_iff, !orb_true_iff, !Nat.leb_le, !Nat.eqb_eq.
  intros (((((((((H1 & H2) & H3) & H4) & H5) & H6) & H7) & H8) & H9) & H10).
  unfold matisse_limit. fold T.
  destruct (chain_L_total (lim_L (lim_ft (lim_ut limit_commissioning_matisse))) magL) as [r1 ->];
    [simpl; lia |].
  destruct (chain_1_total
              (or_commissioning (lim_M (lim_ft (lim_ut T)))
                 (lim_M (lim_ft (lim_ut limit_commissioning_matisse)))) magM) as [r2 ->].
  { destruct (lim_M (lim_ft (lim_ut T))); simpl; lia. }
  destruct (chain_2_total
              (or_commissioning (lim_N (lim_ft (lim_ut T)))
                 (lim_N (lim_ft (lim_ut limit_commissioning_matisse)))) magN) as [r3 ->].
  { apply or_commissioning_length; [exact H1 | simpl; lia]. }
  destruct (chain_L_total (lim_L (lim_noft (lim_ut T))) magL H2) as [r4 ->].
  destruct (chain_2_total (lim_M (lim_noft (lim_ut T))) magM H3) as [r5 ->].
  destruct (chain_2_total (lim_N (lim_noft (lim_ut T))) magN H4) as [r6 ->].
  destruct (chain_L_total (lim_L (lim_ft (lim_at T))) magL H5) as [r7 ->].
  destruct (chain_2_total (lim_M (lim_ft (lim_at T))) magM H6) as [r8 ->].
  destruct (chain_2_total
              (or_commissioning (lim_N (lim_ft (lim_at T)))
                 (lim_N (lim_ft (lim_at limit_commissioning_matisse)))) magN) as [r9 ->].
  { apply or_commissioning_length; [exact H7 | simpl; lia]. }
  destruct (chain_L_total (lim_L (lim_noft (lim_at T))) magL H8) as [r10 ->].
  destruct (chain_2_total (lim_M (lim_noft (lim_at T))) magM H9) as [r11 ->].
  destruct (chain_2_total (lim_N (lim_noft (lim_at T))) magN H10) as [r12 ->].
  simpl. eauto.
Qed.

(** *** Not-a-number magnitudes *)

Lemma chain_L_nan (lim : list float) (r : res_L) :
  chain_L lim nan = Ok r -> r = {| L_LR := false; L_MR := false; L_HR := false |}.
Proof.
  unfold chain_L, gtb.
  destruct (index lim 2) as [l2|]; simpl; [| discriminate].
  rewrite leb_nan_l.
  destruct (index lim 1) as [l1|]; simpl; [| discriminate].
  rewrite ltb_nan_r. simpl.
  destruct (index lim 0) as [l0|]; simpl; [| discriminate].
  rewrite ltb_nan_r. simpl. congruence.
Qed.

Lemma chain_2_nan (lim : list float) (r : res_LR_HR) :
  chain_2 lim nan = Ok r -> r = {| LR := false; HR' := false |}.
Proof.
  unfold chain_2, gtb.
  destruct (index lim 1) as [l1|]; simpl; [| discriminate].
  rewrite leb_nan_l.
  destruct (index lim 0) as [l0|]; simpl; [| discriminate].
  rewrite ltb_nan_r. simpl. congruence.
Qed.

Lemma chain_1_nan (lim : list float) (r : res_LR_HR) :
  chain_1 lim nan = Ok r -> r = {| LR := false; HR' := false |}.
Proof.
  unfold chain_1.
  destruct (index lim 0) as [l0|]; simpl; [| discriminate].
  rewrite leb_nan_l. congruence.
Qed.

Lemma chain_M_nan (t : tel) (m : mode) (lim : list float) (r : res_LR_HR) :
  chain_M t m lim nan = Ok r -> r = {| LR := false; HR' := false |}.
Proof.
  destruct t, m; simpl; intros H;
    first [apply (chain_1_nan _ _ H) | apply (chain_2_nan _ _ H)].
Qed.

Lemma np_min_nan_l (b : float) : np_min nan b = nan.
Proof. reflexivity. Qed.

Lemma np_min_nan_r (a : float) : np_min a nan = nan.
Proof. unfold np_min. change (is_nan nan) with true. rewrite orb_true_r. reflexivity. Qed.

Lemma nan_compares_false_holds (eso : limit_table) (source : string) :
  nan_compares_false eso source.
Proof.
  unfold nan_compares_false. repeat apply conj.
  - intros magV. unfold gravity_limit, geb, gtb.
    rewrite !leb_nan_r, !ltb_nan_r. simpl. repeat split.
  - intros magK. unfold gravity_limit, geb, gtb.
    rewrite ?leb_nan_l, ?ltb_nan_r. simpl.
    repeat match goal with |- context [if ?c then _ else _] => destruct c end; reflexivity.
  - intros magV. unfold pionier_limit, geb. rewrite leb_nan_r. reflexivity.
  - intros magH magR magV. simpl. rewrite ?leb_nan_l. repeat split.
  - intros magK magR magV. simpl. rewrite ?leb_nan_l. repeat split.
  - intros magK magH magV. simpl. rewrite ?np_min_nan_r, ?leb_nan_l. repeat split.
  - intros magK magH magR. simpl. rewrite ?np_min_nan_l, ?leb_nan_l. repeat split.
  - intros magM magN magK d t m Hd.
    destruct (matisse_limit_slots _ _ _ _ _ _ _ Hd) as [_ Hs].
    destruct (Hs t m) as (HL & _ & _). apply (chain_L_nan _ _ HL).
  - intros magL magN magK d t m Hd.
    destruct (matisse_limit_slots _ _ _ _ _ _ _ Hd) as [_ Hs].
    destruct (Hs t m) as (_ & HM & _). apply (chain_M_nan _ _ _ _ HM).
  - intros magL magM magK d t m Hd.
    destruct (matisse_limit_slots _ _ _ _ _ _ _ Hd) as [_ Hs].
    destruct (Hs t m) as (_ & _ & HN). apply (chain_2_nan _ _ HN).
  - intros magL magM magN d Hd.
    destruct (matisse_limit_slots _ _ _ _ _ _ _ Hd) as [-> _].
    unfold limK_of, gtb. rewrite leb_nan_l, ltb_nan_r. reflexivity.
Qed.

(** *** Inclusive boundaries *)

Lemma chain_L_at_b2 (b0 b1 b2 : float) (rest : list float) :
  is_number b2 = true ->
  chain_L (b0 :: b1 :: b2 :: rest) b2 = Ok {| L_LR := true; L_MR := true; L_HR := true |}.
Proof.
  intros H2. unfold chain_L; simpl. rewrite (is_number_leb_refl _ H2). reflexivity.
Qed.

Lemma chain_L_at_b1 (b0 b1 b2 : float) (rest : list float) :
  is_number b1 = true -> is_number b2 = true ->
  exists hr, chain_L (b0 :: b1 :: b2 :: rest) b1
             = Ok {| L_LR := true; L_MR := true; L_HR := hr |}.
Proof.
  intros H1 H2. unfold chain_L, gtb; simpl.
  destruct (is_number_total b1 b2 H1 H2) as [E | E].
  - rewrite E. eauto.
  - rewrite (ltb_leb_false _ _ E), E, (is_number_leb_refl _ H1). simpl. eauto.
Qed.

Lemma chain_L_at_b0 (b0 b1 b2 : float) (rest : list float) :
  is_number b0 = true -> is_number b1 = true -> is_number b2 = true ->
  exists mr hr, chain_L (b0 :: b1 :: b2 :: rest) b0
                = Ok {| L_LR := true; L_MR := mr; L_HR := hr |}.
Proof.
  intros H0 H1 H2. unfold chain_L, gtb; simpl.
  destruct (is_number_total b0 b2 H0 H2) as [E | E].
  - rewrite E. eauto.
  - rewrite (ltb_leb_false _ _ E), E. simpl.
    destruct (is_number_total b0 b1 H0 H1) as [F | F].
    + rewrite F. eauto.
    + rewrite (ltb_leb_false _ _ F), F, (is_number_leb_refl _ H0). simpl. eauto.
Qed.

Lemma chain_2_at_b1 (b0 b1 : float) (rest : list float) :
  is_number b1 = true ->
  chain_2 (b0 :: b1 :: rest) b1 = Ok {| LR := true; HR' := true |}.
Proof.
  intros H1. unfold chain_2; simpl. rewrite (is_number_leb_refl _ H1). reflexivity.
Qed.

Lemma chain_2_at_b0 (b0 b1 : float) (rest : list float) :
  is_number b0 = true -> is_number b1 = true ->
  exists hr, chain_2 (b0 :: b1 :: rest) b0 = Ok {| LR := true; HR' := hr |}.
Proof.
  intros H0 H1. unfold chain_2, gtb; simpl.
  destruct (is_number_total b0 b1 H0 H1) as [E | E].
  - rewrite E. eauto.
  - rewrite (ltb_leb_false _ _ E), E, (is_number_leb_refl _ H0). simpl. eauto.
Qed.

Lemma chain_1_at_b0 (b0 : float) (rest : list float) :
  is_number b0 = true ->
  chain_1 (b0 :: rest) b0 = Ok {| LR := true; HR' := true |}.
Proof.
  intros H0. unfold chain_1; simpl. rewrite (is_number_leb_refl _ H0). reflexivity.
Qed.

Lemma chain_M_at_b0 (t : tel) (m : mode) (b0 b1 : float) (rest : list float) :
  is_number b0 = true -> is_number b1 = true ->
  exists hr, chain_M t m (b0 :: b1 :: rest) b0 = Ok {| LR := true; HR' := hr |}.
Proof.
  intros H0 H1. destruct t, m; simpl;
    first [apply chain_2_at_b0; assumption | rewrite chain_1_at_b0; eauto].
Qed.

Lemma np_min_le_10_l (magR : float) :
  is_number magR = true -> (np_min 10 magR <=? 10) = true.
Proof.
  intros H. unfold np_min. change (is_nan 10) with false.
  unfold is_number in H. apply negb_true_iff in H. rewrite H. simpl.
  destruct (is_number_total 10 magR eq_refl) as [E | E].
  - unfold is_number. rewrite H. reflexivity.
  - rewrite E. reflexivity.
  - rewrite (ltb_leb_false _ _ E). apply ltb_leb, E.
Qed.

Lemma np_min_le_10_r (magV : float) :
  is_number magV = true -> (np_min magV 10 <=? 10) = true.
Proof.
  intros H. unfold np_min. change (is_nan 10) with false.
  pose proof H as H'. unfold is_number in H'. apply negb_true_iff in H'. rewrite H'. simpl.
  destruct (magV <=? 10) eqn:E; [exact E | reflexivity].
Qed.

Lemma boundaries_inclusive_holds (eso : limit_table) (source : string) :
  boundaries_inclusive eso source.
Proof.
  unfold boundaries_inclusive. repeat apply conj.
  - intros magK. split.
    + unfold gravity_limit. simpl.
      repeat match goal with |- context [if ?c then _ else _] => destruct c end; reflexivity.
    + unfold gravity_limit. simpl.
      repeat match goal with |- context [if ?c then _ else _] => destruct c end; reflexivity.
  - intros magV. repeat split.
  - intros magV. split; reflexivity.
  - intros magK magH magR magV. repeat split.
  - intros magK magH mag Hn. simpl.
    rewrite (np_min_le_10_l _ Hn), (np_min_le_10_r _ Hn). split; reflexivity.
  - intros magL magM magN d. split; intros Hd;
      destruct (matisse_limit_slots _ _ _ _ _ _ _ Hd) as [-> _]; reflexivity.
  - intros t m b0 b1 b2 rest magM magN magK d Hl Hn.
    apply andb_true_iff in Hn as [Hn H2]. apply andb_true_iff in Hn as [H0 H1].
    repeat split; intros Hd;
      destruct (matisse_limit_slots _ _ _ _ _ _ _ Hd) as [_ Hs];
      destruct (Hs t m) as (HL & _ & _); rewrite Hl in HL.
    + rewrite (chain_L_at_b2 _ _ _ _ H2) in HL. injection HL as <-. reflexivity.
    + destruct (chain_L_at_b1 b0 _ _ rest H1 H2) as [hr E].
      rewrite E in HL. injection HL as <-. reflexivity.
    + destruct (chain_L_at_b0 _ _ _ rest H0 H1 H2) as (mr & hr & E).
      rewrite E in HL. injection HL as <-. reflexivity.
  - intros t m b0 b1 rest magL magN magK d Hl Hn.
    apply andb_true_iff in Hn as [H0 H1].
    split; intros Hd;
      destruct (matisse_limit_slots _ _ _ _ _ _ _ Hd) as [_ Hs];
      destruct (Hs t m) as (_ & HM & _); rewrite Hl in HM.
    + intros Hne. destruct t, m; simpl in HM |- *; try congruence;
        rewrite (chain_2_at_b1 _ _ _ H1) in HM; injection HM as <-; reflexivity.
    + destruct (chain_M_at_b0 t m _ _ rest H0 H1) as [hr E].
      rewrite E in HM. injection HM as <-. reflexivity.
  - intros t m b0 b1 rest magL magM magK d Hl Hn.
    apply andb_true_iff in Hn as [H0 H1].
    split; intros Hd;
      destruct (matisse_limit_slots _ _ _ _ _ _ _ Hd) as [_ Hs];
      destruct (Hs t m) as (_ & _ & HN); rewrite Hl in HN.
    + rewrite (chain_2_at_b1 _ _ _ H1) in HN. injection HN as <-. reflexivity.
    + destruct (chain_2_at_b0 _ _ rest H0 H1) as [hr E].
      rewrite E in HN. injection HN as <-. reflexivity.
Qed.

(** *** The chains of the M band *)

Lemma chain_2_two_tier (b0 b1 : float) (rest : list float) (mag : float) (r : res_LR_HR) :
  (b1 <=? b0) = true ->
  chain_2 (b0 :: b1 :: rest) mag = Ok r ->
  two_tier_rule b0 b1 mag r.
Proof.
  intros Hord. unfold chain_2, two_tier_rule, gtb; simpl.
  destruct (mag <=? b1) eqn:E1; simpl.
  - intros [= <-]; simpl. split; [| split].
    + intros _. split; reflexivity.
    + intros [H _]. rewrite (leb_ltb_false _ _ E1) in H. discriminate.
    + intros H. rewrite (leb_ltb_false _ _ (leb_trans _ _ _ E1 Hord)) in H. discriminate.
  - destruct ((b1 <? mag) && (mag <=? b0)) eqn:E2; intros [= <-]; simpl.
    + apply andb_true_iff in E2 as [E2 E3]. split; [| split].
      * intros H. discriminate.
      * intros _. split; reflexivity.
      * intros H. rewrite (leb_ltb_false _ _ E3) in H. discriminate.
    + split; [| split].
      * intros H. discriminate.
      * intros [H1 H2]. rewrite H1, H2 in E2. discriminate.
      * intros _. split; reflexivity.
Qed.

Lemma chain_1_single_tier (b0 : float) (rest : list float) (mag : float) (r : res_LR_HR) :
  chain_1 (b0 :: rest) mag = Ok r ->
  LR r = (mag <=? b0) /\ HR' r = (mag <=? b0).
Proof.
  unfold chain_1; simpl. destruct (mag <=? b0); intros [= <-]; split; reflexivity.
Qed.

(** *** The tables the program builds itself

    On a table of the scraped shape (assembled with its three- and
    two-entry lists, the UT/ft slots and AT/ft/N left empty) and on the
    commissioning table, the list [matisse_limit] reads is in every
    slot the chosen list, or the commissioning list when the chosen one
    is empty; and the UT/ft M-band test runs on [5, 5]. *)

Lemma compared_list_own_table (T : limit_table) (t : tel) (m : mode) (b : band) :
  own_table T -> compared_list T t m b = claimed_list T t m b.
Proof.
  intros [-> | (l1 & l2 & l3 & l4 & l5 & l6 & l7 & l8 & -> & Hwf)].
  - destruct t, m, b; reflexivity.
  - unfold limits_well_formed in Hwf.
    rewrite !andb_true_iff, !Nat.leb_le in Hwf.
    destruct Hwf as ((((((((H1 & H2) & H3) & H4) & H5) & H6) & H7) & H8) & H9).
    destruct t, m, b; try reflexivity; simpl; unfold claimed_list; simpl.
    + destruct l1; simpl in *; [lia | reflexivity].
    + destruct l2; simpl in *; [lia | reflexivity].
    + destruct l3; simpl in *; [lia | reflexivity].
    + destruct l7; simpl in *; [lia | reflexivity].
    + destruct l8; simpl in *; [lia | reflexivity].
    + destruct l4; simpl in *; [lia | reflexivity].
    + destruct l5; simpl in *; [lia | reflexivity].
    + destruct l6; simpl in *; [lia | reflexivity].
Qed.

Lemma UT_ft_M_own_table (eso : limit_table) (magL magM magN magK : float)
    (source : string) (d : matisse_dic) :
  own_table (chosen_table eso source) ->
  matisse_limit eso magL magM magN magK source = Ok d ->
  two_tier_rule 5 5 magM (mat_M (observable d tel_UT mode_ft)).
Proof.
  intros Hown Hd.
  destruct (matisse_limit_slots _ _ _ _ _ _ _ Hd) as [_ Hs].
  destruct (Hs tel_UT mode_ft) as (_ & HM & _).
  assert (E : compared_list (chosen_table eso source) tel_UT mode_ft band_M = [5; 5]).
  { destruct Hown as [-> | (l1 & l2 & l3 & l4 & l5 & l6 & l7 & l8 & -> & _)]; reflexivity. }
  change (chain_M tel_UT mode_ft) with chain_1 in HM. rewrite E in HM.
  apply chain_1_single_tier in HM as [HLR HHR].
  unfold two_tier_rule, gtb. rewrite HLR, HHR. split; [| split].
  - intros H. rewrite H. split; reflexivity.
  - intros [Ha Hb]. rewrite (ltb_leb_false _ _ Ha) in Hb. discriminate.
  - intros H. rewrite (ltb_leb_false _ _ H). split; reflexivity.
Qed.

End InstrFacts.

(** ** The provider and the call of [matisse_limit] *)

Module WebFacts.

Import FloatOrder FloatFacts Instr InstrSpec InstrFacts WebSpec.
Local Open Scope float_scope.
Set Warnings "-inexact-float".

(** *** The tables the provider returns *)

Lemma dic_web_of_well_formed (l : Web.web_limits) :
  limits_well_formed (Web.dic_web_of l) = true.
Proof.
  destruct l as [[[? ?] ?] [? ?] [? ?] [[? ?] ?] [? ?] [? ?] [[? ?] ?] [? ?]]. reflexivity.
Qed.

Lemma dic_web_of_own (l : Web.web_limits) : own_table (Web.dic_web_of l).
Proof.
  right. unfold Web.dic_web_of. do 8 eexists. split; [reflexivity |].
  apply (dic_web_of_well_formed l).
Qed.

Lemma limit_ESO_matisse_web_own (check : bool) (w w' : Web.world) (T : limit_table) :
  Web.limit_ESO_matisse_web check w = (Ok T, w') -> own_table T.
Proof.
  unfold Web.limit_ESO_matisse_web. destruct check.
  - destruct (Web.eso_page w) as [l | e]; intros [= <- _]; apply dic_web_of_own.
  - destruct (Web.cache_file w) as [l |]; intros [= <- _]; apply dic_web_of_own.
Qed.

Lemma dic_limit_own (source : string) (check : bool) (w w' : Web.world) (T : limit_table) :
  Web.dic_limit source check w = (Ok T, w') ->
  own_table T /\ chosen_table T source = T.
Proof.
  unfold Web.dic_limit, chosen_table. destruct (String.eqb source "ESO").
  - intros H. split; [apply (limit_ESO_matisse_web_own _ _ _ _ H) | reflexivity].
  - intros [= <- _]. split; [left |]; reflexivity.
Qed.

Lemma own_table_well_formed (T : limit_table) : own_table T -> limits_well_formed T = true.
Proof. intros [-> | (? & ? & ? & ? & ? & ? & ? & ? & _ & H)]; [reflexivity | exact H]. Qed.

(** *** The call and its body *)

Lemma matisse_limit_call (magL magM magN magK : float) (source : string) (check : bool)
    (w w' : Web.world) (T : limit_table) :
  Web.dic_limit source check w = (Ok T, w') ->
  Web.matisse_limit magL magM magN magK source check w
  = (Instr.matisse_limit T magL magM magN magK source, w').
Proof. intros H. unfold Web.matisse_limit. rewrite H. reflexivity. Qed.

Lemma matisse_limit_call_raises (magL magM magN magK : float) (source : string)
    (check : bool) (w w' : Web.world) (e : exn) :
  Web.dic_limit source check w = (Raise e, w') ->
  Web.matisse_limit magL magM magN magK source check w = (Raise e, w').
Proof. intros H. unfold Web.matisse_limit. rewrite H. reflexivity. Qed.

Lemma matisse_limit_call_returns (magL magM magN magK : float) (source : string)
    (check : bool) (w w' : Web.world) (T : limit_table) :
  Web.dic_limit source check w = (Ok T, w') ->
  exists d, Instr.matisse_limit T magL magM magN magK source = Ok d /\
            Web.matisse_limit magL magM magN magK source check w = (Ok d, w').
Proof.
  intros H. destruct (dic_limit_own _ _ _ _ _ H) as [Hown Hch].
  destruct (matisse_limit_total T magL magM magN magK source) as [d Hd].
  { rewrite Hch. apply own_table_well_formed, Hown. }
  exists d. split; [exact Hd |]. rewrite (matisse_limit_call _ _ _ _ _ _ _ _ _ H), Hd.
  reflexivity.
Qed.

Lemma matisse_limit_call_body (magL magM magN magK : float) (source : string)
    (check : bool) (w w' : Web.world) (T : limit_table) (d : matisse_dic) :
  Web.dic_limit source check w = (Ok T, w') ->
  Web.matisse_limit magL magM magN magK source check w = (Ok d, w') ->
  Instr.matisse_limit T magL magM magN magK source = Ok d /\
  own_table T /\ chosen_table T source = T.
Proof.
  intros H Hd. rewrite (matisse_limit_call _ _ _ _ _ _ _ _ _ H) in Hd.
  injection Hd as Hd. split; [exact Hd | apply (dic_limit_own _ _ _ _ _ H)].
Qed.

(** *** Which list a slot is compared against *)

(** C3: whenever the call returns, every slot was compared against the
    chosen table's list when that list is not empty and against the
    commissioning table's list when it is; with an empty AT/ft/N list
    the AT/ft/N flags are those of the commissioning list [1.6, 0.1]. *)
Theorem matisse_limit_compared_lists (magL magM magN magK : float) (source : string)
    (check : bool) (w w' : Web.world) (chosen : limit_table) (d : matisse_dic) :
  Web.dic_limit source check w = (Ok chosen, w') ->
  Web.matisse_limit magL magM magN magK source check w = (Ok d, w') ->
  compares_as_claimed chosen magL magM magN d.
Proof.
  intros H Hd.
  destruct (matisse_limit_call_body _ _ _ _ _ _ _ _ _ _ H Hd) as (Hbody & Hown & Hch).
  destruct (matisse_limit_slots _ _ _ _ _ _ _ Hbody) as [_ Hs]. rewrite Hch in Hs.
  assert (Hall : forall t m,
             chain_L (claimed_list chosen t m band_L) magL = Ok (mat_L (observable d t m)) /\
             chain_M t m (claimed_list chosen t m band_M) magM
               = Ok (mat_M (observable d t m)) /\
             chain_2 (claimed_list chosen t m band_N) magN = Ok (mat_N (observable d t m))).
  { intros t m. rewrite <- !(compared_list_own_table chosen) by exact Hown. apply Hs. }
  split; [exact Hall |].
  intros Hnil. destruct (Hall tel_AT mode_ft) as (_ & _ & HN).
  unfold claimed_list in HN. rewrite Hnil in HN. exact HN.
Qed.

Lemma matisse_limit_compared_lists_witness :
  Web.dic_limit "ESO" true online = (Ok example_web, refreshed) /\
  Web.matisse_limit 5 5 5 5 "ESO" true online = (Ok example_dic, refreshed) /\
  compares_as_claimed example_web 5 5 5 example_dic.
Proof.
  split; [reflexivity |]. split; [reflexivity |].
  apply (matisse_limit_compared_lists 5 5 5 5 "ESO" true online refreshed); reflexivity.
Defined.

(** *** The M band *)

(** C4: whenever the call returns, the M-band flags of each of the four
    configurations follow the two-tier rule over the configuration's
    effective list [b0, b1], a breakpoint list ([b1 <= b0]): the chosen
    table's list, or the commissioning list [5, 5] for UT/ft, where one
    test on [5] is made and both tiers coincide. *)
Theorem matisse_limit_M_band (magL magM magN magK : float) (source : string)
    (check : bool) (w w' : Web.world) (chosen : limit_table) (d : matisse_dic)
    (t : tel) (m : mode) (b0 b1 : float) (rest : list float) :
  Web.dic_limit source check w = (Ok chosen, w') ->
  Web.matisse_limit magL magM magN magK source check w = (Ok d, w') ->
  claimed_list chosen t m band_M = b0 :: b1 :: rest ->
  (b1 <=? b0) = true ->
  two_tier_rule b0 b1 magM (mat_M (observable d t m)).
Proof.
  intros H Hd Hl Hord.
  destruct (matisse_limit_call_body _ _ _ _ _ _ _ _ _ _ H Hd) as (Hbody & Hown & Hch).
  destruct (matisse_limit_slots _ _ _ _ _ _ _ Hbody) as [_ Hs]. rewrite Hch in Hs.
  destruct (Hs t m) as (_ & HM & _).
  rewrite (compared_list_own_table chosen t m band_M Hown), Hl in HM.
  destruct t, m; simpl in HM |- *; try apply (chain_2_two_tier _ _ _ _ _ Hord HM).
  assert (E : claimed_list chosen tel_UT mode_ft band_M = [5; 5]).
  { rewrite <- (compared_list_own_table chosen) by exact Hown.
    destruct Hown as [-> | (l1 & l2 & l3 & l4 & l5 & l6 & l7 & l8 & -> & _)]; reflexivity. }
  rewrite E in Hl. injection Hl as <- <- _.
  apply (UT_ft_M_own_table chosen magL magM magN magK source d);
    [rewrite Hch; exact Hown | exact Hbody].
Qed.

Lemma matisse_limit_M_band_witness :
  Web.dic_limit "ESO" true online = (Ok example_web, refreshed) /\
  Web.matisse_limit 5 5 5 5 "ESO" true online = (Ok example_dic, refreshed) /\
  (claimed_list example_web tel_UT mode_noft band_M = [6; 3.5] /\
   (3.5 <=? 6) = true /\
   two_tier_rule 6 3.5 5 (mat_M (observable example_dic tel_UT mode_noft))) /\
  (claimed_list example_web tel_UT mode_ft band_M = [5; 5] /\
   (5 <=? 5) = true /\
   two_tier_rule 5 5 5 (mat_M (observable example_dic tel_UT mode_ft))).
Proof.
  split; [reflexivity |]. split; [reflexivity |]. split.
  - split; [reflexivity |]. split; [reflexivity |].
    apply (matisse_limit_M_band 5 5 5 5 "ESO" true online refreshed example_web example_dic
             tel_UT mode_noft 6 3.5 []); reflexivity.
  - split; [reflexivity |]. split; [reflexivity |].
    apply (matisse_limit_M_band 5 5 5 5 "ESO" true online refreshed example_web example_dic
             tel_UT mode_ft 5 5 []); reflexivity.
Defined.

(** *** Totality, not-a-number and boundaries together *)

(** C7, as stated, fails for [matisse_limit]: on plain magnitudes the
    call raises when the provider does, [FileNotFoundError] without a
    cache file and the exception of the fetch without network. *)
Lemma matisse_limit_raises_with_the_provider :
  Web.matisse_limit 5 5 5 5 "ESO" false online = (Raise FileNotFoundError, online) /\
  (Web.matisse_limit 5 5 5 5 "ESO" true offline).1 = Raise URLError.
Proof. split; reflexivity. Qed.

(** C7, amended: [gravity_limit], [pionier_limit] and [chara_limit] are
    total functions with no raising operation; [matisse_limit] returns,
    for every magnitude, whenever the provider returned a table (which
    the commissioning source always does) and raises the provider's
    exception otherwise: its own comparisons and subscripts never
    raise; a not-a-number magnitude makes every leaf it feeds false;
    and every threshold is granted at the magnitude equal to it. *)
Theorem threshold_rules_total_inclusive_nan (source : string) (check : bool)
    (w : Web.world) :
  (forall magL magM magN magK,
     match (Web.dic_limit source check w).1 with
     | Ok chosen =>
         exists d,
           (Web.matisse_limit magL magM magN magK source check w).1 = Ok d /\
           Instr.matisse_limit chosen magL magM magN magK source = Ok d
     | Raise e => (Web.matisse_limit magL magM magN magK source check w).1 = Raise e
     end) /\
  (String.eqb source "ESO" = false ->
   forall magL magM magN magK,
     exists d, Web.matisse_limit magL magM magN magK source check w = (Ok d, w)) /\
  (forall eso, nan_compares_false eso source) /\
  (forall eso, boundaries_inclusive eso source).
Proof.
  split; [| split; [| split]].
  - intros magL magM magN magK.
    destruct (Web.dic_limit source check w) as [[chosen | e] w'] eqn:H; simpl.
    + destruct (matisse_limit_call_returns magL magM magN magK _ _ _ _ _ H) as (d & Hb & Hd).
      exists d. rewrite Hd. auto.
    + rewrite (matisse_limit_call_raises _ _ _ _ _ _ _ _ _ H). reflexivity.
  - intros Hs magL magM magN magK.
    assert (H : Web.dic_limit source check w = (Ok limit_commissioning_matisse, w)).
    { unfold Web.dic_limit. rewrite Hs. reflexivity. }
    destruct (matisse_limit_call_returns magL magM magN magK _ _ _ _ _ H) as (d & _ & Hd).
    exists d. exact Hd.
  - intros eso. apply nan_compares_false_holds.
  - intros eso. apply boundaries_inclusive_holds.
Qed.

End WebFacts.

(** ** Magnitude / flux conversion *)

Module FluxFacts.

Import Flux.

(** C2: on a band that is not in [conv_flux], the forward direction
    answers not-a-number, as the claim says, but the reverse direction has
    no [try] around the same dictionary lookup and lets [KeyError]
    escape.  This holds for any arithmetic. *)
Theorem MagToJy_unknown_band {N : Type} `{Arith N} (m : N) :
  MagToJy m "X" false = Ok not_a_number /\
  MagToJy m "X" true = Raise KeyError.
Proof. split; reflexivity. Qed.

Local Open Scope R_scope.

Lemma ln_10_pos : 0 < ln 10.
Proof.
  assert (H : ln 1 < ln 10) by (apply ln_increasing; lra).
  rewrite ln_1 in H. exact H.
Qed.

Lemma Q2R_10 : Q2R 10 = 10.
Proof. unfold Q2R; simpl. lra. Qed.

(** Every zero-magnitude flux of the table is positive. *)
Lemma conv_flux_F0_pos (band : string) (e : flux_entry) :
  conv_flux !! band = Some e -> 0 < Q2R (F0 e).
Proof.
  intros H. apply elem_of_list_to_map_2 in H.
  repeat (apply elem_of_cons in H as [H | H];
          [injection H as _ ->; unfold Q2R; simpl; lra |]).
  apply elem_of_nil in H. contradiction.
Qed.

(** C9: for every band of the Flux Conversion Table and, over exact real
    arithmetic, every magnitude [m] (5.0 among them), converting to flux
    with [F0 * 10^(-m/2.5)] and back with [-2.5 * log10(flux / F0)]
    returns [m]. *)
Theorem MagToJy_round_trip (band : string) (e : flux_entry) (m : R) :
  conv_flux !! band = Some e ->
  (flux ← MagToJy (XReal m) band false; MagToJy flux band true) = Ok (XReal m).
Proof.
  intros He. pose proof (conv_flux_F0_pos band e He) as Hpos.
  set (flux := Q2R (F0 e) * Rpower (Q2R 10) (m / Q2R (-2.5))).
  assert (Hfwd : MagToJy (XReal m) band false = Ok (XReal flux)).
  { unfold MagToJy, conv_flux_F0. rewrite He. reflexivity. }
  assert (Hrev : MagToJy (XReal flux) band true
                 = Ok (xlift2 Rmult (XReal (Q2R (-2.5)))
                         (xlog10 (XReal (flux / Q2R (F0 e)))))).
  { unfold MagToJy, conv_flux_F0. rewrite He. reflexivity. }
  rewrite Hfwd. change (MagToJy (XReal flux) band true = Ok (XReal m)).
  rewrite Hrev. f_equal.
  assert (Hq : flux / Q2R (F0 e) = Rpower 10 (m / -2.5)).
  { unfold flux. rewrite Q2R_10. change (Q2R (-2.5)) with (-2.5). field. lra. }
  rewrite Hq. unfold xlog10.
  destruct (Rlt_dec 0 (Rpower 10 (m / -2.5))) as [_ | Hn].
  - unfold xlift2. f_equal. change (Q2R (-2.5)) with (-2.5).
    unfold Rpower. rewrite ln_exp. pose proof ln_10_pos. field. lra.
  - exfalso. apply Hn. unfold Rpower. apply exp_pos.
Qed.

Lemma MagToJy_round_trip_witness :
  conv_flux !! "K" = Some {| wl := 2.179; F0 := 655 |} /\
  (flux ← MagToJy (XReal 5) "K" false; MagToJy flux "K" true) = Ok (XReal 5).
Proof.
  split.
  - reflexivity.
  - apply (MagToJy_round_trip "K" {| wl := 2.179; F0 := 655 |} 5). reflexivity.
Defined.

End FluxFacts.

(** ** Survey aggregation and the VLTI diagram *)

Module DisplayFacts.

Import FloatOrder Instr Display DisplaySpec.
Local Open Scope float_scope.

(** *** Appending to one list of the Count Result *)

Lemma append_if_same (c : bool) (b : bucket) (star : string) (dic : count_dic) :
  append_if c b star dic b = (dic b ++ if c then [star] else [])%list.
Proof.
  unfold append_if, append. destruct c.
  - rewrite decide_True by reflexivity. reflexivity.
  - rewrite app_nil_r. reflexivity.
Qed.

Lemma append_if_other (c : bool) (b b' : bucket) (star : string) (dic : count_dic) :
  b <> b' -> append_if c b' star dic b = dic b.
Proof.
  intros Hne. unfold append_if, append. destruct c; [| reflexivity].
  rewrite decide_False by exact Hne. reflexivity.
Qed.

(** *** What one pass of the second loop appends *)

Local Ltac appends :=
  repeat first [ rewrite append_if_same
               | rewrite append_if_other by discriminate ].

Lemma count_star_matched (star : string) (x : survey_record) (ins : instruments)
    (dic0 : count_dic) (l0 : list string) :
  Simbad x = true -> Ins x = Some ins ->
  exists dic1,
    count_star star x (dic0, l0) = Ok (dic1, l0) /\
    forall b, dic1 b = (dic0 b ++ if appended x ins b then [star] else [])%list.
Proof.
  intros HS HI. unfold count_star, subscript_Ins. rewrite HS, HI. simpl.
  eexists. split; [reflexivity |].
  intros b. unfold add_vs_mode_matisse, add_vs_mode_gravity, for_keys. simpl foldl.
  destruct b as [t m bd r | t r | | | bd | | | bd | r];
    try destruct t; try destruct m; try destruct bd; try destruct r;
    appends; rewrite ?app_nil_r; reflexivity.
Qed.

Lemma count_star_unmatched (star : string) (x : survey_record)
    (dic0 : count_dic) (l0 : list string) :
  Simbad x = false ->
  count_star star x (dic0, l0) = Ok (dic0, (l0 ++ [star])%list).
Proof. intros HS. unfold count_star. rewrite HS. reflexivity. Qed.

Lemma count_star_no_Ins (star : string) (x : survey_record) (st : count_dic * list string) :
  Simbad x = true -> Ins x = None -> count_star star x st = Raise TypeError.
Proof.
  intros HS HI. destruct st as [dic0 l0].
  unfold count_star, subscript_Ins. rewrite HS, HI. reflexivity.
Qed.

Lemma count_stars_cons (star : string) (x : survey_record)
    (rest : list (string * survey_record)) (st : count_dic * list string) :
  count_stars ((star, x) :: rest) st
  = (st' ← count_star star x st; count_stars rest st').
Proof. reflexivity. Qed.

(** Who is in a list after the second loop. *)
Lemma count_stars_bucket (stars : list (string * survey_record)) :
  forall dic0 l0 dic l,
    count_stars stars (dic0, l0) = Ok (dic, l) ->
    forall name b,
      name ∈ dic b <->
      name ∈ dic0 b \/
      exists x ins, (name, x) ∈ stars /\ Simbad x = true /\ Ins x = Some ins /\
                    appended x ins b = true.
Proof.
  induction stars as [| [star x] rest IH]; intros dic0 l0 dic l Hrun name b.
  - injection Hrun as <- <-. split; [auto |].
    intros [H | (x & ins & H & _)]; [exact H |]. apply elem_of_nil in H. contradiction.
  - rewrite count_stars_cons in Hrun.
    destruct (Simbad x) eqn:HS.
    + destruct (Ins x) as [ins |] eqn:HI.
      * destruct (count_star_matched star x ins dic0 l0 HS HI) as (dic1 & E & Hdic1).
        rewrite E in Hrun. simpl in Hrun.
        rewrite (IH _ _ _ _ Hrun name b), Hdic1, elem_of_app.
        split.
        -- intros [[H | H] | (x' & ins' & H & H')].
           ++ left. exact H.
           ++ right. destruct (appended x ins b) eqn:Ha.
              ** apply list_elem_of_singleton in H as ->.
                 exists x, ins. rewrite elem_of_cons. auto.
              ** apply elem_of_nil in H. contradiction.
           ++ right. exists x', ins'. rewrite elem_of_cons. auto.
        -- intros [H | (x' & ins' & H & HS' & HI' & Ha)]; [auto |].
           apply elem_of_cons in H as [[= -> ->] | H].
           ++ left. right. rewrite HI in HI'. injection HI' as ->.
              rewrite Ha. apply list_elem_of_singleton. reflexivity.
           ++ right. exists x', ins'. auto.
      * rewrite (count_star_no_Ins _ _ _ HS HI) in Hrun. discriminate.
    + rewrite (count_star_unmatched _ _ _ _ HS) in Hrun. simpl in Hrun.
      rewrite (IH _ _ _ _ Hrun name b). split.
      * intros [H | (x' & ins' & H & H')]; [auto |].
        right. exists x', ins'. rewrite elem_of_cons. auto.
      * intros [H | (x' & ins' & H & HS' & H')]; [auto |].
        apply elem_of_cons in H as [[= -> ->] | H]; [congruence |].
        right. exists x', ins'. auto.
Qed.

Lemma count_survey_second_loop (survey : gmap string survey_record)
    (out : list console) (r : result (count_dic * list string)) :
  count_survey survey = (out, r) ->
  r = Raise ZeroDivisionError \/ r = count_stars (map_to_list survey) (empty_dic, []).
Proof.
  unfold count_survey. destruct (count_sites (map_to_list survey)) as [n_chara n_vlti].
  unfold percentage.
  destruct (length (map_to_list survey) =? 0)%nat; intros [= <- <-]; auto.
Qed.

Lemma count_stars_returns (stars : list (string * survey_record)) :
  (forall star x, (star, x) ∈ stars -> Simbad x = true -> Ins x <> None) ->
  forall st, exists dic l, count_stars stars st = Ok (dic, l).
Proof.
  induction stars as [| [star x] rest IH]; intros Hins [dic0 l0].
  - eauto.
  - rewrite count_stars_cons.
    assert (Hrest : forall star' x', (star', x') ∈ rest -> Simbad x' = true -> Ins x' <> None).
    { intros star' x' Hin. apply (Hins star' x'). apply elem_of_cons. auto. }
    destruct (Simbad x) eqn:HS.
    + destruct (Ins x) as [ins |] eqn:HI.
      * destruct (count_star_matched star x ins dic0 l0 HS HI) as (dic1 & -> & _).
        apply (IH Hrest).
      * exfalso. apply (Hins star x); [apply elem_of_cons; auto | exact HS | exact HI].
    + rewrite (count_star_unmatched _ _ _ _ HS). apply (IH Hrest).
Qed.

(** [count_survey] returns on every non-empty collection whose
    Simbad-matched stars carry their [Ins] tree. *)
Lemma count_survey_returns (survey : gmap string survey_record) :
  survey <> ∅ ->
  (forall name x, survey !! name = Some x -> Simbad x = true -> Ins x <> None) ->
  exists out dic unmatched, count_survey survey = (out, Ok (dic, unmatched)).
Proof.
  intros Hne Hins.
  destruct (count_stars_returns (map_to_list survey)) with (st := (empty_dic, @nil string))
    as (dic & l & E).
  { intros star x Hin. apply (Hins star x). apply elem_of_map_to_list, Hin. }
  unfold count_survey. destruct (count_sites (map_to_list survey)) as [n_chara n_vlti].
  unfold percentage. rewrite length_map_to_list.
  apply map_size_non_empty_iff in Hne.
  destruct (Nat.eqb_spec (size survey) 0) as [E0 | _]; [contradiction |].
  rewrite E. eauto.
Qed.

(** *** Who enters which list *)

(** C1, as stated, fails on the CHARA lists: a star without any guide
    star (guide availability false) that CHARA can observe, that passes
    the PAVO limit and the tip-tilt limit, is listed under PAVO. *)
Lemma count_survey_CHARA_lists_ignore_guide :
  example_survey !! "HD 1" = Some star_A /\
  Simbad star_A = true /\
  guid_of (Guiding_star star_A) = false /\
  claimed_cond star_A example_ins b_PAVO = false /\
  count_survey example_survey = (example_out, Ok (example_count, example_unmatched)) /\
  example_count b_PAVO = ["HD 1"].
Proof. repeat split. Qed.

(** C1, amended: for every Survey Collection on which [count_survey]
    returns and every Simbad-matched star in it, the star's name is in a
    VLTI list (MATISSE, GRAVITY, PIONIER) iff the VLTI flag, the
    guide-availability flag and the instrument's leaf are true, and in a
    CHARA list iff the CHARA flag, the instrument's leaf and the CHARA
    tip-tilt [Guiding] flag are true (the guide availability is not
    consulted there).  The VEGA medium-resolution list, which the loop
    does not visit, is left out. *)
Theorem count_survey_buckets (survey : gmap string survey_record)
    (name : string) (x : survey_record) (ins : instruments)
    (out : list console) (dic : count_dic) (unmatched : list string) (b : bucket) :
  survey !! name = Some x ->
  Simbad x = true ->
  Ins x = Some ins ->
  count_survey survey = (out, Ok (dic, unmatched)) ->
  b <> b_VEGA vr_MR ->
  (name ∈ dic b <-> tested_cond x ins b = true).
Proof.
  intros Hlook HS HI Hrun Hb.
  destruct (count_survey_second_loop _ _ _ Hrun) as [E | E]; [discriminate |].
  symmetry in E. rewrite (count_stars_bucket _ _ _ _ _ E name b).
  assert (Ha : appended x ins b = tested_cond x ins b).
  { unfold appended. rewrite decide_False by exact Hb. reflexivity. }
  split.
  - intros [H | (x' & ins' & Hin & _ & HI' & Ha')].
    + apply elem_of_nil in H. contradiction.
    + apply elem_of_map_to_list in Hin. rewrite Hlook in Hin. injection Hin as <-.
      rewrite HI in HI'. injection HI' as <-. rewrite <- Ha. exact Ha'.
  - intros Ht. right. exists x, ins.
    split; [apply elem_of_map_to_list, Hlook |]. rewrite Ha. auto.
Qed.

Lemma count_survey_buckets_witness :
  example_survey !! "HD 1" = Some star_A /\
  Simbad star_A = true /\
  Ins star_A = Some example_ins /\
  count_survey example_survey = (example_out, Ok (example_count, example_unmatched)) /\
  b_PAVO <> b_VEGA vr_MR /\
  ("HD 1" ∈ example_count b_PAVO <-> tested_cond star_A example_ins b_PAVO = true).
Proof.
  split; [reflexivity |]. split; [reflexivity |]. split; [reflexivity |].
  split; [reflexivity |]. split; [discriminate |].
  apply (count_survey_buckets example_survey "HD 1" star_A example_ins
           example_out example_count example_unmatched b_PAVO);
    first [reflexivity | discriminate].
Defined.

(** *** The summary percentages *)

Lemma count_sites_from (stars : list (string * survey_record)) (n_chara n_vlti : nat) :
  foldl (fun '(n_chara, n_vlti) '(_, x) =>
           if Simbad x then
             if negb (bool_decide (SED x = None)) then
               let n_vlti := if VLTI (Observability x) then S n_vlti else n_vlti in
               let n_chara := if CHARA (Observability x) then S n_chara else n_chara in
               (n_chara, n_vlti)
             else (n_chara, n_vlti)
           else (n_chara, n_vlti))
        (n_chara, n_vlti) stars
  = ((n_chara + length (filter (fun p => counted CHARA p = true) stars))%nat,
     (n_vlti + length (filter (fun p => counted VLTI p = true) stars))%nat).
Proof.
  revert n_chara n_vlti.
  induction stars as [| [star x] rest IH]; intros n_chara n_vlti; simpl.
  - f_equal; lia.
  - rewrite !filter_cons.
    destruct (decide (counted CHARA (star, x) = true)) as [Hc | Hc];
      destruct (decide (counted VLTI (star, x) = true)) as [Hv | Hv];
      unfold counted in Hc, Hv; simpl in Hc, Hv;
      destruct (Simbad x), (SED x) as [sed |],
               (VLTI (Observability x)), (CHARA (Observability x));
      simpl in Hc, Hv |- *; try congruence;
      rewrite IH; simpl; f_equal; lia.
Qed.

Lemma count_sites_spec (survey : gmap string survey_record) :
  count_sites (map_to_list survey) = (site_count CHARA survey, site_count VLTI survey).
Proof. unfold count_sites. rewrite count_sites_from. reflexivity. Qed.

(** C10: on the empty collection [count_survey] stops with
    [ZeroDivisionError] once the header is printed; on every other
    collection it prints, for each site, the count of Simbad-matched,
    SED-present, site-observable stars and 100 times that count over the
    number of stars. *)
Theorem count_survey_percentages (survey : gmap string survey_record) :
  if decide (survey = ∅) then
    count_survey survey = ([cprint_header 0], Raise ZeroDivisionError)
  else
    exists counts,
      count_survey survey
      = ([cprint_header (size survey);
          print_observability (site_count VLTI survey) (site_percentage VLTI survey)
                              (site_count CHARA survey) (site_percentage CHARA survey)],
         counts).
Proof.
  destruct (decide (survey = ∅)) as [-> | Hne].
  - unfold count_survey. rewrite map_to_list_empty. reflexivity.
  - unfold count_survey. rewrite count_sites_spec. unfold percentage.
    rewrite length_map_to_list.
    apply map_size_non_empty_iff in Hne.
    destruct (Nat.eqb_spec (size survey) 0) as [E | _]; [contradiction |].
    eexists. reflexivity.
Qed.

(** *** The per-star VLTI diagram *)

(** C8: on a record whose [Ins] is absent, [plot_VLTI] prints the red
    line naming the star and returns [None]; nothing is raised. *)
Theorem plot_VLTI_absent_Ins (data : survey_record) :
  Ins data = None ->
  plot_VLTI data
  = ([cprint ("## Error: " ++ Name data ++ " not in Simbad!") "red"], Ok None).
Proof. intros H. unfold plot_VLTI. rewrite H. reflexivity. Qed.

Lemma plot_VLTI_absent_Ins_witness :
  Ins star_B = None /\
  plot_VLTI star_B = ([cprint "## Error: HD 9 not in Simbad!" "red"], Ok None).
Proof.
  split.
  - reflexivity.
  - apply (plot_VLTI_absent_Ins star_B). reflexivity.
Defined.

(** C6: whenever [Guiding_star] is a list, the test
    [len(data['Guiding_star'][0] > 0)] compares a list with an integer
    and raises; no label is shown, whatever the candidate lists hold.
    With one primary candidate the claim wants "Off axis". *)
Theorem plot_VLTI_candidate_lists_raise :
  (forall primary secondary,
     aff_guide (Guiding_list primary secondary) = Raise TypeError) /\
  Guiding_star star_C = Guiding_list ["HD 3"] [] /\
  plot_VLTI star_C = ([], Raise TypeError).
Proof. repeat split. Qed.

(** The other two shapes of [Guiding_star] are labelled as C6 says. *)
Lemma aff_guide_str_absent (s : string) :
  aff_guide (Guiding_str s) = Ok "Science" /\ aff_guide Guiding_absent = Ok "X".
Proof. split; reflexivity. Qed.

End DisplayFacts.

(** * Further properties of the code *)

(** ** Settling IEEE comparisons *)

Module FloatMore.
Import FloatOrder FloatFacts.
Local Open Scope float_scope.

Lemma SFeqb_refl_nan (x : spec_float) : SFeqb x x = false -> x = S754_nan.
Proof.
  unfold SFeqb, SFcompare. destruct x as [[]|[]| |[] m e]; try discriminate; try reflexivity.
  all: rewrite Z.compare_refl;
    change (Pos.compare_cont Eq m m) with (Pos.compare m m);
    rewrite Pos.compare_refl; discriminate.
Qed.

(** Not-a-number is the only float that is not a number. *)
Lemma not_number_nan (x : float) : is_number x = false -> x = nan.
Proof.
  unfold is_number, is_nan. intros H.
  rewrite negb_involutive, FloatAxioms.eqb_spec in H.
  apply Prim2SF_inj. rewrite (SFeqb_refl_nan _ H). reflexivity.
Qed.

Lemma leb_true_number_l (x y : float) : (x <=? y) = true -> is_number x = true.
Proof.
  intros H. destruct (is_number x) eqn:E; [reflexivity |].
  apply not_number_nan in E. subst. rewrite leb_nan_l in H. discriminate.
Qed.

Lemma leb_true_number_r (x y : float) : (x <=? y) = true -> is_number y = true.
Proof.
  intros H. destruct (is_number y) eqn:E; [reflexivity |].
  apply not_number_nan in E. subst. rewrite leb_nan_r in H. discriminate.
Qed.

Lemma ltb_true_number_l (x y : float) : (x <? y) = true -> is_number x = true.
Proof. intros H. apply (leb_true_number_l x y), ltb_leb, H. Qed.

Lemma ltb_true_number_r (x y : float) : (x <? y) = true -> is_number y = true.
Proof. intros H. apply (leb_true_number_r x y), ltb_leb, H. Qed.

(** Between numbers, [<=] failing is [>] holding. *)
Lemma leb_false_ltb (x y : float) :
  is_number x = true -> is_number y = true -> (x <=? y) = false -> (y <? x) = true.
Proof.
  intros Hx Hy H. destruct (is_number_total x y Hx Hy) as [E | E]; [congruence | exact E].
Qed.

Lemma ltb_false_leb (x y : float) :
  is_number x = true -> is_number y = true -> (x <? y) = false -> (y <=? x) = true.
Proof.
  intros Hx Hy H. destruct (is_number_total y x Hy Hx) as [E | E]; [exact E | congruence].
Qed.

(** Proves a comparison from the hypotheses and the order of the
    literals, through at most one literal or hypothesis. *)
Ltac ftrue :=
  first
    [ assumption
    | reflexivity
    | apply ltb_leb; assumption
    | match goal with
      | H : (?a <=? ?b) = true |- (?a <=? ?c) = true =>
          apply (leb_trans a b c H); first [assumption | reflexivity | apply ltb_leb; assumption]
      | H : (?b <=? ?c) = true |- (?a <=? ?c) = true =>
          apply (fun K => leb_trans a b c K H); first [assumption | reflexivity | apply ltb_leb; assumption]
      | H : (?a <? ?b) = true |- (?a <=? ?c) = true =>
          apply ltb_leb, (ltb_leb_trans a b c H); first [assumption | reflexivity | apply ltb_leb; assumption]
      | H : (?b <? ?c) = true |- (?a <=? ?c) = true =>
          apply ltb_leb, (fun K => leb_ltb_trans a b c K H); first [assumption | reflexivity | apply ltb_leb; assumption]
      | H : (?a <? ?b) = true |- (?a <? ?c) = true =>
          apply (ltb_leb_trans a b c H); first [assumption | reflexivity | apply ltb_leb; assumption]
      | H : (?b <? ?c) = true |- (?a <? ?c) = true =>
          apply (fun K => leb_ltb_trans a b c K H); first [assumption | reflexivity | apply ltb_leb; assumption]
      | H : (?a <=? ?b) = true |- (?a <? ?c) = true =>
          apply (leb_ltb_trans a b c H); first [assumption | reflexivity]
      | H : (?b <=? ?c) = true |- (?a <? ?c) = true =>
          apply (fun K => ltb_leb_trans a b c K H); first [assumption | reflexivity]
      end ].

Ltac ffalse :=
  first
    [ assumption
    | apply ltb_leb_false; ftrue
    | apply leb_ltb_false; ftrue ].

(** Rewrites every comparison of the goal that the hypotheses settle. *)
Ltac fsettle :=
  repeat match goal with
  | |- context [?a <=? ?b] =>
      first [ replace (a <=? b) with true by (symmetry; ftrue)
            | replace (a <=? b) with false by (symmetry; ffalse) ]
  | |- context [?a <? ?b] =>
      first [ replace (a <? b) with true by (symmetry; ftrue)
            | replace (a <? b) with false by (symmetry; ffalse) ]
  end.

(** Splits on the position of the number [x] with respect to [c]. *)
Ltac fsplit x c Hx :=
  let H := fresh "H" in
  destruct (is_number_total x c Hx eq_refl) as [H | H].

End FloatMore.

(** ** Threshold rules *)

Module InstrMore.
Import FloatOrder FloatFacts FloatMore Instr InstrSpec InstrFacts WebSpec WebFacts.
Local Open Scope float_scope.
Set Warnings "-inexact-float".

Lemma gravity_limit_K_flags (magV magK : float) :
  let d := gravity_limit magV magK in
  HR (g_AT_K d) = geb magK (-4) && (magK <=? 8) /\
  MR (g_AT_K d) = gtb magK (-1) && (magK <=? 8) /\
  HR (g_UT_K d) = gtb magK 1 && (magK <=? 9) /\
  MR (g_UT_K d) = gtb magK 4 && (magK <=? 9).
Proof.
  unfold gravity_limit, geb, gtb. cbv zeta.
  destruct (is_number magK) eqn:Hn.
  - destruct (is_number_total (-4) magK eq_refl Hn) as [H0 | H0];
      [fsplit magK (-1) Hn; [| fsplit magK 1 Hn; [| fsplit magK 4 Hn;
         [| fsplit magK 8 Hn; [| fsplit magK 9 Hn]]]] |];
      fsettle; simpl; repeat split; reflexivity.
  - apply not_number_nan in Hn. subst magK.
    rewrite ?leb_nan_l, ?leb_nan_r, ?ltb_nan_l, ?ltb_nan_r. simpl. repeat split; reflexivity.
Qed.

(** X1: Each K-band flag of [gravity_limit] is one interval of [magK]:
    AT/HR is [-4, 8], AT/MR is (-1, 8], UT/HR is (1, 9] and UT/MR is
    (4, 9]; not-a-number is in none of them. *)
Theorem gravity_limit_K_intervals (magV magK : float) :
  let d := gravity_limit magV magK in
  HR (g_AT_K d) = geb magK (-4) && (magK <=? 8) /\
  MR (g_AT_K d) = gtb magK (-1) && (magK <=? 8) /\
  HR (g_UT_K d) = gtb magK 1 && (magK <=? 9) /\
  MR (g_UT_K d) = gtb magK 4 && (magK <=? 9).
Proof. exact (gravity_limit_K_flags magV magK). Qed.

(** X2: The guide label depends on [magV] through two ceilings: 'AT' up to
    11, 'UT' up to 16, 'TooFaint' beyond and for not-a-number; the test
    [magV > 11] of the second branch never decides. *)
Theorem gravity_limit_V_cond (magV magK : float) :
  V_cond (gravity_limit magV magK)
  = if magV <=? 11 then "AT" else if magV <=? 16 then "UT" else "TooFaint".
Proof.
  unfold gravity_limit. cbv zeta.
  set (v := if magV <=? 11 then "AT" else if gtb magV 11 && (magV <=? 16) then "UT" else "TooFaint").
  assert (Hv : v = if magV <=? 11 then "AT" else if magV <=? 16 then "UT" else "TooFaint").
  { unfold v, gtb. destruct (magV <=? 11) eqn:E1; [reflexivity |].
    destruct (magV <=? 16) eqn:E2; [| rewrite andb_false_r; reflexivity].
    rewrite (leb_false_ltb magV 11 (leb_true_number_l _ _ E2) eq_refl E1). reflexivity. }
  rewrite <- Hv.
  repeat match goal with |- context [if ?c then _ else _] =>
    lazymatch c with context [magK] => destruct c end end; reflexivity.
Qed.

(** *** MATISSE: ceilings, nesting, the K gate *)

Lemma chain_L_ceilings (b0 b1 b2 : float) (rest : list float) (mag : float) (r : res_L) :
  (b2 <=? b1) = true -> (b1 <=? b0) = true ->
  chain_L (b0 :: b1 :: b2 :: rest) mag = Ok r ->
  r = {| L_LR := mag <=? b0; L_MR := mag <=? b1; L_HR := mag <=? b2 |}.
Proof.
  intros H21 H10. unfold chain_L, gtb; simpl.
  destruct (mag <=? b2) eqn:E2; simpl.
  - intros [= <-].
    assert (E1 : (mag <=? b1) = true) by ftrue.
    assert (E0 : (mag <=? b0) = true) by ftrue.
    rewrite E1, E0. reflexivity.
  - destruct (mag <=? b1) eqn:E1.
    + rewrite (leb_false_ltb mag b2 (leb_true_number_l _ _ E1) (leb_true_number_l _ _ H21) E2).
      simpl. intros [= <-].
      assert (E0 : (mag <=? b0) = true) by ftrue.
      rewrite E0. reflexivity.
    + rewrite andb_false_r. simpl.
      destruct (mag <=? b0) eqn:E0.
      * rewrite (leb_false_ltb mag b1 (leb_true_number_l _ _ E0) (leb_true_number_l _ _ H10) E1).
        simpl. intros [= <-]. reflexivity.
      * rewrite andb_false_r. intros [= <-]. reflexivity.
Qed.

Lemma chain_2_ceilings (b0 b1 : float) (rest : list float) (mag : float) (r : res_LR_HR) :
  (b1 <=? b0) = true ->
  chain_2 (b0 :: b1 :: rest) mag = Ok r ->
  r = {| LR := mag <=? b0; HR' := mag <=? b1 |}.
Proof.
  intros H10. unfold chain_2, gtb; simpl.
  destruct (mag <=? b1) eqn:E1; simpl.
  - intros [= <-]. assert (E0 : (mag <=? b0) = true) by ftrue. rewrite E0. reflexivity.
  - destruct (mag <=? b0) eqn:E0.
    + rewrite (leb_false_ltb mag b1 (leb_true_number_l _ _ E0) (leb_true_number_l _ _ H10) E1).
      simpl. intros [= <-]. reflexivity.
    + rewrite andb_false_r. intros [= <-]. reflexivity.
Qed.

(** X3: On an ordered L-band list [b0 >= b1 >= b2] the three flags of a
    slot are three independent ceilings. *)
Theorem matisse_limit_L_ceilings (eso : limit_table) (magL magM magN magK : float)
    (source : string) (d : matisse_dic) (t : tel) (m : mode)
    (b0 b1 b2 : float) (rest : list float) :
  matisse_limit eso magL magM magN magK source = Ok d ->
  compared_list (chosen_table eso source) t m band_L = b0 :: b1 :: b2 :: rest ->
  (b2 <=? b1) = true -> (b1 <=? b0) = true ->
  mat_L (observable d t m)
  = {| L_LR := magL <=? b0; L_MR := magL <=? b1; L_HR := magL <=? b2 |}.
Proof.
  intros Hd Hl H21 H10.
  destruct (matisse_limit_slots _ _ _ _ _ _ _ Hd) as [_ Hs].
  destruct (Hs t m) as (HL & _ & _). rewrite Hl in HL.
  apply (chain_L_ceilings _ _ _ _ _ _ H21 H10 HL).
Qed.

Lemma matisse_limit_L_ceilings_witness :
  matisse_limit example_web 5 5 5 5 "ESO" = Ok example_dic /\
  compared_list (chosen_table example_web "ESO") tel_AT mode_ft band_L = [7.5; 6; 4] /\
  (4 <=? 6) = true /\ (6 <=? 7.5) = true /\
  mat_L (observable example_dic tel_AT mode_ft)
  = {| L_LR := 5 <=? 7.5; L_MR := 5 <=? 6; L_HR := 5 <=? 4 |}.
Proof.
  split; [reflexivity |]. split; [reflexivity |]. split; [reflexivity |].
  split; [reflexivity |].
  apply (matisse_limit_L_ceilings example_web 5 5 5 5 "ESO" example_dic
           tel_AT mode_ft 7.5 6 4 []); reflexivity.
Defined.

(** X4: On an ordered N-band list [b0 >= b1] the two flags of a slot are two
    independent ceilings. *)
Theorem matisse_limit_N_ceilings (eso : limit_table) (magL magM magN magK : float)
    (source : string) (d : matisse_dic) (t : tel) (m : mode)
    (b0 b1 : float) (rest : list float) :
  matisse_limit eso magL magM magN magK source = Ok d ->
  compared_list (chosen_table eso source) t m band_N = b0 :: b1 :: rest ->
  (b1 <=? b0) = true ->
  mat_N (observable d t m) = {| LR := magN <=? b0; HR' := magN <=? b1 |}.
Proof.
  intros Hd Hl H10.
  destruct (matisse_limit_slots _ _ _ _ _ _ _ Hd) as [_ Hs].
  destruct (Hs t m) as (_ & _ & HN). rewrite Hl in HN.
  apply (chain_2_ceilings _ _ _ _ _ H10 HN).
Qed.

Lemma matisse_limit_N_ceilings_witness :
  matisse_limit example_web 5 5 5 5 "ESO" = Ok example_dic /\
  compared_list (chosen_table example_web "ESO") tel_AT mode_ft band_N = [1.6; 0.1] /\
  (0.1 <=? 1.6) = true /\
  mat_N (observable example_dic tel_AT mode_ft) = {| LR := 5 <=? 1.6; HR' := 5 <=? 0.1 |}.
Proof.
  split; [reflexivity |]. split; [reflexivity |]. split; [reflexivity |].
  apply (matisse_limit_N_ceilings example_web 5 5 5 5 "ESO" example_dic
           tel_AT mode_ft 1.6 0.1 []); reflexivity.
Defined.

Lemma chain_L_nested (lim : list float) (mag : float) (r : res_L) :
  chain_L lim mag = Ok r ->
  (L_HR r = true -> L_MR r = true) /\ (L_MR r = true -> L_LR r = true).
Proof.
  unfold chain_L.
  destruct (index lim 2) as [l2 |]; simpl; [| discriminate].
  destruct (mag <=? l2); [intros [= <-]; simpl; auto |].
  destruct (index lim 1) as [l1 |]; simpl; [| discriminate].
  destruct (gtb mag l2 && (mag <=? l1)); [intros [= <-]; simpl; auto |].
  destruct (index lim 0) as [l0 |]; simpl; [| discriminate].
  destruct (gtb mag l1 && (mag <=? l0)); intros [= <-]; simpl; auto.
Qed.

Lemma chain_2_nested (lim : list float) (mag : float) (r : res_LR_HR) :
  chain_2 lim mag = Ok r -> HR' r = true -> LR r = true.
Proof.
  unfold chain_2.
  destruct (index lim 1) as [l1 |]; simpl; [| discriminate].
  destruct (mag <=? l1); [intros [= <-]; simpl; auto |].
  destruct (index lim 0) as [l0 |]; simpl; [| discriminate].
  destruct (gtb mag l1 && (mag <=? l0)); intros [= <-]; simpl; auto.
Qed.

Lemma chain_1_nested (lim : list float) (mag : float) (r : res_LR_HR) :
  chain_1 lim mag = Ok r -> HR' r = true -> LR r = true.
Proof.
  unfold chain_1.
  destruct (index lim 0) as [l0 |]; simpl; [| discriminate].
  destruct (mag <=? l0); intros [= <-]; simpl; auto.
Qed.

(** X5: Whatever the table holds (ordered or not, numbers or not), the
    flags [matisse_limit] returns are nested in every slot: high
    resolution implies medium resolution implies low resolution. *)
Theorem matisse_limit_nested (eso : limit_table) (magL magM magN magK : float)
    (source : string) (d : matisse_dic) :
  matisse_limit eso magL magM magN magK source = Ok d -> nested_flags d.
Proof.
  intros Hd t m.
  destruct (matisse_limit_slots _ _ _ _ _ _ _ Hd) as [_ Hs].
  destruct (Hs t m) as (HL & HM & HN).
  destruct (chain_L_nested _ _ _ HL) as [H1 H2].
  split; [exact H1 |]. split; [exact H2 |]. split.
  - destruct t, m; simpl in HM;
      first [apply (chain_2_nested _ _ _ HM) | apply (chain_1_nested _ _ _ HM)].
  - apply (chain_2_nested _ _ _ HN).
Qed.

Lemma matisse_limit_nested_witness :
  matisse_limit example_web 5 5 5 5 "ESO" = Ok example_dic /\ nested_flags example_dic.
Proof.
  split; [reflexivity |].
  apply (matisse_limit_nested example_web 5 5 5 5 "ESO" example_dic). reflexivity.
Defined.

Lemma limK_of_ceilings (magK : float) :
  limK_of magK = {| limK_UT := magK <=? 10; limK_AT := magK <=? 7.5 |}.
Proof.
  unfold limK_of, gtb.
  destruct (magK <=? 7.5) eqn:E1.
  - assert (E2 : (magK <=? 10) = true) by ftrue. rewrite E2. reflexivity.
  - destruct (magK <=? 10) eqn:E2.
    + rewrite (leb_false_ltb magK 7.5 (leb_true_number_l _ _ E2) eq_refl E1). reflexivity.
    + rewrite andb_false_r. reflexivity.
Qed.

(** X6: The fringe-tracker gate is two ceilings on [magK]: 10 for the UTs,
    7.5 for the ATs; so the AT gate implies the UT gate. *)
Theorem matisse_limit_limK (eso : limit_table) (magL magM magN magK : float)
    (source : string) (d : matisse_dic) :
  matisse_limit eso magL magM magN magK source = Ok d ->
  limK d = {| limK_UT := magK <=? 10; limK_AT := magK <=? 7.5 |} /\
  (limK_AT (limK d) = true -> limK_UT (limK d) = true).
Proof.
  intros Hd. destruct (matisse_limit_slots _ _ _ _ _ _ _ Hd) as [-> _].
  rewrite limK_of_ceilings. split; [reflexivity |]. simpl. intros H. ftrue.
Qed.

Lemma matisse_limit_limK_witness :
  matisse_limit example_web 5 5 5 5 "ESO" = Ok example_dic /\
  (limK example_dic = {| limK_UT := 5 <=? 10; limK_AT := 5 <=? 7.5 |} /\
   (limK_AT (limK example_dic) = true -> limK_UT (limK example_dic) = true)).
Proof.
  split; [reflexivity |].
  apply (matisse_limit_limK example_web 5 5 5 5 "ESO" example_dic). reflexivity.
Defined.

(** X7: With any source but ['ESO'] the commissioning table is used: the
    call returns, and the table obtained from the ESO page plays no part. *)
Theorem matisse_limit_commissioning_returns (magL magM magN magK : float) (source : string) :
  String.eqb source "ESO" = false ->
  exists d, forall eso, matisse_limit eso magL magM magN magK source = Ok d.
Proof.
  intros Hs.
  destruct (matisse_limit_total limit_commissioning_matisse magL magM magN magK source)
    as [d Hd].
  { unfold chosen_table. rewrite Hs. reflexivity. }
  exists d. intros eso. rewrite <- Hd.
  unfold matisse_limit, chosen_table. rewrite Hs. reflexivity.
Qed.

Lemma matisse_limit_commissioning_returns_witness :
  String.eqb "consortium" "ESO" = false /\
  exists d, forall eso, matisse_limit eso 5 5 5 5 "consortium" = Ok d.
Proof.
  split; [reflexivity |].
  apply (matisse_limit_commissioning_returns 5 5 5 5 "consortium"). reflexivity.
Defined.

(** *** A brighter star is observable wherever a fainter one is *)

Lemma chain_L_brighter (lim : list float) (mag mag' : float) (r r' : res_L) :
  (mag' <=? mag) = true ->
  (forall x, index lim 2 = Ok x -> is_number x = true) ->
  chain_L lim mag = Ok r -> chain_L lim mag' = Ok r' ->
  (L_LR r = true -> L_LR r' = true) /\
  (L_MR r = true -> L_MR r' = true) /\
  (L_HR r = true -> L_HR r' = true).
Proof.
  intros Hle Hnum.
  destruct lim as [| b0 [| b1 [| b2 rest]]]; try discriminate.
  specialize (Hnum b2 eq_refl).
  pose proof (leb_true_number_l _ _ Hle) as Hn'.
  pose proof (leb_true_number_r _ _ Hle) as Hn.
  unfold chain_L, gtb; simpl.
  destruct (mag' <=? b2) eqn:A'; [intros _ [= <-]; simpl; auto |].
  destruct (mag <=? b2) eqn:A.
  { assert ((mag' <=? b2) = true) by ftrue. congruence. }
  rewrite (leb_false_ltb _ _ Hn' Hnum A'), (leb_false_ltb _ _ Hn Hnum A). simpl.
  destruct (mag' <=? b1) eqn:B'.
  { destruct (mag <=? b1), ((b1 <? mag) && (mag <=? b0));
      intros [= <-] [= <-]; simpl; auto. }
  destruct (mag <=? b1) eqn:B.
  { assert ((mag' <=? b1) = true) by ftrue. congruence. }
  simpl. destruct (b1 <? mag) eqn:C; simpl.
  - destruct (mag <=? b0) eqn:D; [| intros [= <-] _; simpl; repeat split; discriminate].
    rewrite (leb_false_ltb _ _ Hn' (ltb_true_number_l _ _ C) B').
    assert (D' : (mag' <=? b0) = true) by ftrue. rewrite D'. simpl.
    intros [= <-] [= <-]; simpl; auto.
  - intros [= <-] _; simpl; repeat split; discriminate.
Qed.

Lemma chain_2_brighter (lim : list float) (mag mag' : float) (r r' : res_LR_HR) :
  (mag' <=? mag) = true ->
  chain_2 lim mag = Ok r -> chain_2 lim mag' = Ok r' ->
  (LR r = true -> LR r' = true) /\ (HR' r = true -> HR' r' = true).
Proof.
  intros Hle.
  destruct lim as [| b0 [| b1 rest]]; try discriminate.
  pose proof (leb_true_number_l _ _ Hle) as Hn'.
  unfold chain_2, gtb; simpl.
  destruct (mag' <=? b1) eqn:A'; [intros _ [= <-]; simpl; auto |].
  destruct (mag <=? b1) eqn:A.
  { assert ((mag' <=? b1) = true) by ftrue. congruence. }
  destruct (b1 <? mag) eqn:C; simpl.
  - destruct (mag <=? b0) eqn:D; [| intros [= <-] _; simpl; split; discriminate].
    rewrite (leb_false_ltb _ _ Hn' (ltb_true_number_l _ _ C) A').
    assert (D' : (mag' <=? b0) = true) by ftrue. rewrite D'. simpl.
    intros [= <-] [= <-]; simpl; auto.
  - intros [= <-] _; simpl; split; discriminate.
Qed.

Lemma chain_1_brighter (lim : list float) (mag mag' : float) (r r' : res_LR_HR) :
  (mag' <=? mag) = true ->
  chain_1 lim mag = Ok r -> chain_1 lim mag' = Ok r' ->
  (LR r = true -> LR r' = true) /\ (HR' r = true -> HR' r' = true).
Proof.
  intros Hle.
  destruct lim as [| b0 rest]; try discriminate.
  unfold chain_1; simpl.
  destruct (mag <=? b0) eqn:A; [| intros [= <-] _; simpl; split; discriminate].
  assert (A' : (mag' <=? b0) = true) by ftrue. rewrite A'.
  intros [= <-] [= <-]; simpl; auto.
Qed.

(** X8: With the same table, a star at least as bright in L, M, N and K
    keeps every flag of a fainter one, provided the tightest L-band
    limits are numbers (with a not-a-number there the chain can drop a
    brighter star). *)
Theorem matisse_limit_brighter (eso : limit_table) (source : string)
    (magL magM magN magK magL' magM' magN' magK' : float) (d d' : matisse_dic) :
  matisse_limit eso magL magM magN magK source = Ok d ->
  matisse_limit eso magL' magM' magN' magK' source = Ok d' ->
  L_floor_is_number (chosen_table eso source) ->
  (magL' <=? magL) = true -> (magM' <=? magM) = true ->
  (magN' <=? magN) = true -> (magK' <=? magK) = true ->
  flags_kept d d'.
Proof.
  intros Hd Hd' Hnum HL HM HN HK.
  destruct (matisse_limit_slots _ _ _ _ _ _ _ Hd) as [Ek Hs].
  destruct (matisse_limit_slots _ _ _ _ _ _ _ Hd') as [Ek' Hs'].
  split; [| rewrite Ek, Ek', !limK_of_ceilings; simpl; split; intros H; ftrue].
  intros t m.
  destruct (Hs t m) as (EL & EM & EN). destruct (Hs' t m) as (EL' & EM' & EN').
  destruct (chain_L_brighter _ _ _ _ _ HL (Hnum t m) EL EL') as (H1 & H2 & H3).
  destruct (chain_2_brighter _ _ _ _ _ HN EN EN') as (H6 & H7).
  assert (H45 : (LR (mat_M (observable d t m)) = true -> LR (mat_M (observable d' t m)) = true) /\
                (HR' (mat_M (observable d t m)) = true -> HR' (mat_M (observable d' t m)) = true)).
  { destruct t, m; simpl in EM, EM' |- *;
      first [apply (chain_2_brighter _ _ _ _ _ HM EM EM')
            | apply (chain_1_brighter _ _ _ _ _ HM EM EM')]. }
  destruct H45 as [H4 H5]. repeat split; assumption.
Qed.

Lemma example_web_L_floor : L_floor_is_number (chosen_table example_web "ESO").
Proof. intros [] [] x; simpl; intros [= <-]; reflexivity. Defined.

Lemma matisse_limit_brighter_witness :
  matisse_limit example_web 5 5 5 5 "ESO" = Ok example_dic /\
  matisse_limit example_web 1 1 1 1 "ESO" = Ok example_dic_bright /\
  L_floor_is_number (chosen_table example_web "ESO") /\
  (1 <=? 5) = true /\
  flags_kept example_dic example_dic_bright.
Proof.
  split; [reflexivity |]. split; [reflexivity |].
  split; [exact example_web_L_floor |]. split; [reflexivity |].
  apply (matisse_limit_brighter example_web "ESO" 5 5 5 5 1 1 1 1
           example_dic example_dic_bright);
    first [reflexivity | exact example_web_L_floor].
Defined.

(** *** CHARA *)

(** X9: The CHARA ceilings on one magnitude are nested: VEGA HR, MR, LR and
    CLASSIC V on [magV]; MIRC, CLIMB (the same as MYSTIC) and CLASSIC on
    [magK]; MIRC and CLASSIC on [magH]. *)
Theorem chara_limit_nested (magK magH magR magV : float) :
  let d := chara_limit magK magH magR magV in
  (VEGA_HR (VEGA d) = true -> VEGA_MR (VEGA d) = true) /\
  (VEGA_MR (VEGA d) = true -> VEGA_LR (VEGA d) = true) /\
  (VEGA_LR (VEGA d) = true -> CLASSIC_V (CLASSIC d) = true) /\
  (MIRC_K (MIRC d) = true -> CLIMB_K d = true) /\
  MYSTIC_K d = CLIMB_K d /\
  (CLIMB_K d = true -> CLASSIC_K (CLASSIC d) = true) /\
  (MIRC_H (MIRC d) = true -> CLASSIC_H (CLASSIC d) = true).
Proof.
  simpl. repeat split; try reflexivity; intros H; ftrue.
Qed.

(** X10: Tip-tilt guiding needs both [magV] and [magR] to be numbers and one
    of them to be at most 10: a star with no V magnitude fails it
    however bright it is in R. *)
Theorem chara_limit_Guiding (magK magH magR magV : float) :
  Guiding (chara_limit magK magH magR magV)
  = is_number magV && is_number magR && ((magV <=? 10) || (magR <=? 10)).
Proof.
  simpl. unfold np_min, is_number.
  destruct (is_nan magV) eqn:NV; simpl; [rewrite ?leb_nan_l; reflexivity |].
  destruct (is_nan magR) eqn:NR; simpl; [rewrite ?leb_nan_l; reflexivity |].
  assert (HV : is_number magV = true) by (unfold is_number; rewrite NV; reflexivity).
  assert (HR : is_number magR = true) by (unfold is_number; rewrite NR; reflexivity).
  destruct (magV <=? magR) eqn:E.
  - destruct (magV <=? 10) eqn:E1; [reflexivity |]. simpl.
    destruct (magR <=? 10) eqn:E2; [| reflexivity].
    assert ((magV <=? 10) = true) by ftrue. congruence.
  - pose proof (leb_false_ltb _ _ HV HR E) as E'.
    destruct (magR <=? 10) eqn:E2; [rewrite orb_true_r; reflexivity |].
    destruct (magV <=? 10) eqn:E1; [| reflexivity].
    assert ((magR <=? 10) = true) by ftrue. congruence.
Qed.

(** *** The scraped table and the commissioning table *)

(** X11: With a scraped table, every UT fringe-tracked flag, the AT
    fringe-tracked N-band flags and the K gate are those obtained from
    the commissioning table. *)
Theorem matisse_limit_scraped_UT_ft
    (at_noft_L at_noft_M at_noft_N ut_noft_L ut_noft_M ut_noft_N at_ft_L at_ft_M : list float)
    (magL magM magN magK : float) (source : string) (d d' : matisse_dic) :
  matisse_limit
    (dic_web at_noft_L at_noft_M at_noft_N ut_noft_L ut_noft_M ut_noft_N at_ft_L at_ft_M)
    magL magM magN magK "ESO" = Ok d ->
  String.eqb source "ESO" = false ->
  matisse_limit limit_commissioning_matisse magL magM magN magK source = Ok d' ->
  mat_ft (mat_UT d) = mat_ft (mat_UT d') /\
  mat_N (mat_ft (mat_AT d)) = mat_N (mat_ft (mat_AT d')) /\
  limK d = limK d'.
Proof.
  intros Hd Hs Hd'.
  destruct (matisse_limit_slots _ _ _ _ _ _ _ Hd) as [Ek H].
  destruct (matisse_limit_slots _ _ _ _ _ _ _ Hd') as [Ek' H'].
  unfold chosen_table in H'. rewrite Hs in H'.
  destruct (H tel_UT mode_ft) as (EL & EM & EN).
  destruct (H' tel_UT mode_ft) as (EL' & EM' & EN').
  destruct (H tel_AT mode_ft) as (_ & _ & EA).
  destruct (H' tel_AT mode_ft) as (_ & _ & EA').
  unfold compared_list, or_commissioning in EL, EM, EN, EL', EM', EN', EA, EA'.
  simpl in EL, EM, EN, EL', EM', EN', EA, EA'.
  rewrite EL in EL'. rewrite EM in EM'. rewrite EN in EN'. rewrite EA in EA'.
  injection EL' as EL'. injection EM' as EM'. injection EN' as EN'. injection EA' as EA'.
  split; [| split; [exact EA' | congruence]].
  destruct (mat_ft (mat_UT d)), (mat_ft (mat_UT d')). simpl in *. congruence.
Qed.

Lemma matisse_limit_scraped_UT_ft_witness :
  matisse_limit example_web 5 5 5 5 "ESO" = Ok example_dic /\
  String.eqb "consortium" "ESO" = false /\
  matisse_limit limit_commissioning_matisse 5 5 5 5 "consortium"
    = Ok example_dic_commissioning /\
  (mat_ft (mat_UT example_dic) = mat_ft (mat_UT example_dic_commissioning) /\
   mat_N (mat_ft (mat_AT example_dic)) = mat_N (mat_ft (mat_AT example_dic_commissioning)) /\
   limK example_dic = limK example_dic_commissioning).
Proof.
  split; [reflexivity |]. split; [reflexivity |]. split; [reflexivity |].
  apply (matisse_limit_scraped_UT_ft [4; 1; -1.5] [3; 1] [-0.5; -2] [7; 3.5; 1] [6; 3.5]
           [2.5; 1] [7.5; 6; 4] [5; 1.5] 5 5 5 5 "consortium"
           example_dic example_dic_commissioning); reflexivity.
Defined.

(** *** How [matisse_limit] ends *)

(** X12: [matisse_limit] ends the way the provider of the table does,
    whatever the magnitudes.  With any source but ['ESO'] it returns
    and leaves the world alone.  With ['ESO'] and no refresh it returns
    when the cache file exists and raises [FileNotFoundError] when it
    does not, and leaves the world alone.  With ['ESO'] and a refresh
    it returns and replaces the cache when the page gave its
    magnitudes, and raises the exception of the fetch, keeping the
    cache, when it did not.  The subscripts of [matisse_limit] itself
    never fail: every list of a scraped table has the entries read. *)
Theorem matisse_limit_outcomes (magL magM magN magK : float) (source : string)
    (check : bool) (w : Web.world) :
  let call := Web.matisse_limit magL magM magN magK source check w in
  if String.eqb source "ESO" then
    if check then
      match Web.eso_page w with
      | Ok l => (exists d, call.1 = Ok d) /\ Web.cache_file call.2 = Some l
      | Raise e => call.1 = Raise e /\ Web.cache_file call.2 = Web.cache_file w
      end
    else
      match Web.cache_file w with
      | Some l => (exists d, call.1 = Ok d) /\ call.2 = w
      | None => call.1 = Raise FileNotFoundError /\ call.2 = w
      end
  else (exists d, call.1 = Ok d) /\ call.2 = w.
Proof.
  cbv zeta.
  destruct (Web.dic_limit source check w) as [[T | e] w'] eqn:H.
  - destruct (matisse_limit_call_returns magL magM magN magK _ _ _ _ _ H) as (d & _ & ->).
    simpl. unfold Web.dic_limit, Web.limit_ESO_matisse_web in H.
    destruct (String.eqb source "ESO"); [destruct check |].
    + destruct (Web.eso_page w) as [l | e]; [| discriminate].
      injection H as _ <-. simpl. eauto.
    + destruct (Web.cache_file w) as [l |]; [| discriminate].
      injection H as _ <-. eauto.
    + injection H as _ <-. eauto.
  - rewrite (matisse_limit_call_raises _ _ _ _ _ _ _ _ _ H).
    simpl. unfold Web.dic_limit, Web.limit_ESO_matisse_web in H.
    destruct (String.eqb source "ESO"); [destruct check |].
    + destruct (Web.eso_page w) as [l | e']; [discriminate |].
      injection H as <- <-. simpl. auto.
    + destruct (Web.cache_file w) as [l |]; [discriminate |].
      injection H as <- <-. auto.
    + discriminate.
Qed.

(** X27: After a call with ['ESO'] and a refresh that returned, the
    same call without refresh returns the same result and leaves the
    world as the refresh left it: the cache file holds the table that
    was just used. *)
Theorem matisse_limit_refresh_then_load (magL magM magN magK : float) (w w' : Web.world)
    (d : matisse_dic) :
  Web.matisse_limit magL magM magN magK "ESO" true w = (Ok d, w') ->
  Web.matisse_limit magL magM magN magK "ESO" false w' = (Ok d, w').
Proof.
  unfold Web.matisse_limit, Web.dic_limit, Web.limit_ESO_matisse_web.
  change (String.eqb "ESO" "ESO") with true. cbv iota.
  destruct (Web.eso_page w) as [l | e]; [| discriminate].
  intros [= Hd <-]. simpl. simpl in Hd. rewrite Hd. reflexivity.
Qed.

Lemma matisse_limit_refresh_then_load_witness :
  Web.matisse_limit 5 5 5 5 "ESO" true online = (Ok example_dic, refreshed) /\
  Web.matisse_limit 5 5 5 5 "ESO" false refreshed = (Ok example_dic, refreshed).
Proof.
  split; [reflexivity |].
  apply (matisse_limit_refresh_then_load 5 5 5 5 online refreshed example_dic). reflexivity.
Defined.

End InstrMore.

(** ** Magnitude / flux conversion, both ways *)

Module FluxMore.
Import Flux FluxFacts.
Local Open Scope R_scope.

Lemma MagToJy_forward (band : string) (e : flux_entry) (m : R) :
  conv_flux !! band = Some e ->
  MagToJy (XReal m) band false = Ok (XReal (Q2R (F0 e) * Rpower 10 (m / -2.5))).
Proof.
  intros He.
  transitivity (Ok (XReal (Q2R (F0 e) * Rpower (Q2R 10) (m / Q2R (-2.5))))).
  - unfold MagToJy, conv_flux_F0. rewrite He. reflexivity.
  - rewrite Q2R_10. reflexivity.
Qed.

Lemma MagToJy_reverse (band : string) (e : flux_entry) (f : R) :
  conv_flux !! band = Some e -> 0 < f ->
  MagToJy (XReal f) band true = Ok (XReal (-2.5 * (ln (f / Q2R (F0 e)) / ln 10))).
Proof.
  intros He Hf. pose proof (conv_flux_F0_pos band e He) as Hpos.
  transitivity (Ok (xlift2 Rmult (XReal (Q2R (-2.5))) (xlog10 (XReal (f / Q2R (F0 e)))))).
  - unfold MagToJy, conv_flux_F0. rewrite He. reflexivity.
  - unfold xlog10. destruct (Rlt_dec 0 (f / Q2R (F0 e))) as [_ | Hn].
    + reflexivity.
    + exfalso. apply Hn. apply Rdiv_lt_0_compat; assumption.
Qed.

(** X13: For every band of the table and every positive flux, converting to
    a magnitude and back to a flux returns the flux (over exact real
    arithmetic). *)
Theorem MagToJy_reverse_round_trip (band : string) (e : flux_entry) (f : R) :
  conv_flux !! band = Some e -> 0 < f ->
  (m ← MagToJy (XReal f) band true; MagToJy m band false) = Ok (XReal f).
Proof.
  intros He Hf. pose proof (conv_flux_F0_pos band e He) as Hpos.
  rewrite (MagToJy_reverse band e f He Hf).
  change (MagToJy (XReal (-2.5 * (ln (f / Q2R (F0 e)) / ln 10))) band false = Ok (XReal f)).
  rewrite (MagToJy_forward band e _ He). do 2 f_equal.
  pose proof ln_10_pos as H10.
  replace (-2.5 * (ln (f / Q2R (F0 e)) / ln 10) / -2.5) with (ln (f / Q2R (F0 e)) / ln 10)
    by (field; lra).
  unfold Rpower.
  replace (ln (f / Q2R (F0 e)) / ln 10 * ln 10) with (ln (f / Q2R (F0 e))) by (field; lra).
  rewrite exp_ln by (apply Rdiv_lt_0_compat; assumption).
  field. lra.
Qed.

Lemma MagToJy_reverse_round_trip_witness :
  conv_flux !! "K" = Some {| wl := 2.179; F0 := 655 |} /\ 0 < 1 /\
  (m ← MagToJy (XReal 1) "K" true; MagToJy m "K" false) = Ok (XReal 1).
Proof.
  split; [reflexivity |]. split; [lra |].
  apply (MagToJy_reverse_round_trip "K" {| wl := 2.179; F0 := 655 |} 1); [reflexivity | lra].
Defined.

Lemma Rpower_10_minus_2 : Rpower 10 (-2) = / 100.
Proof.
  replace (-2) with (Ropp (INR 2)) by (simpl; lra).
  rewrite Rpower_Ropp. f_equal. rewrite Rpower_pow by lra. simpl. lra.
Qed.

(** X14: The forward conversion follows the magnitude scale: the flux at
    magnitude 0 is the band's [F0], the flux is positive, five
    magnitudes more divide it by 100, and a larger magnitude gives a
    smaller flux. *)
Theorem MagToJy_magnitude_scale (band : string) (e : flux_entry) (m m' : R) :
  conv_flux !! band = Some e ->
  exists f : R -> R,
    (forall x, MagToJy (XReal x) band false = Ok (XReal (f x))) /\
    f 0 = Q2R (F0 e) /\
    0 < f m /\
    f (m + 5) = f m / 100 /\
    (m < m' -> f m' < f m).
Proof.
  intros He. pose proof (conv_flux_F0_pos band e He) as Hpos.
  exists (fun x => Q2R (F0 e) * Rpower 10 (x / -2.5)).
  split; [intros x; apply (MagToJy_forward band e x He) |].
  split; [| split; [| split]].
  - replace (0 / -2.5) with 0 by lra.
    rewrite Rpower_O by lra. lra.
  - apply Rmult_lt_0_compat; [exact Hpos | apply exp_pos].
  - replace ((m + 5) / -2.5) with (m / -2.5 + -2) by lra.
    rewrite Rpower_plus, Rpower_10_minus_2. field.
  - intros Hlt. apply Rmult_lt_compat_l; [exact Hpos |].
    apply Rpower_lt; lra.
Qed.

Lemma MagToJy_magnitude_scale_witness :
  conv_flux !! "K" = Some {| wl := 2.179; F0 := 655 |} /\
  exists f : R -> R,
    (forall x, MagToJy (XReal x) "K" false = Ok (XReal (f x))) /\
    f 0 = Q2R 655 /\
    0 < f 1 /\
    f (1 + 5) = f 1 / 100 /\
    (1 < 2 -> f 2 < f 1).
Proof.
  split; [reflexivity |].
  apply (MagToJy_magnitude_scale "K" {| wl := 2.179; F0 := 655 |} 1 2). reflexivity.
Defined.

End FluxMore.

(** ** The Count Result *)

Module DisplayMore.
Import FloatOrder FloatFacts FloatMore Instr InstrSpec InstrFacts InstrMore.
Import Display DisplaySpec DisplayFacts DiagramSpec.
Local Open Scope float_scope.

(** *** The unmatched list and the lists of the Count Result *)

Lemma count_stars_unmatched (stars : list (string * survey_record)) :
  forall dic0 l0 dic l,
    count_stars stars (dic0, l0) = Ok (dic, l) ->
    forall name,
      name ∈ l <-> name ∈ l0 \/ exists x, (name, x) ∈ stars /\ Simbad x = false.
Proof.
  induction stars as [| [star x] rest IH]; intros dic0 l0 dic l Hrun name.
  - injection Hrun as <- <-. split; [auto |].
    intros [H | (x & H & _)]; [exact H |]. apply elem_of_nil in H. contradiction.
  - rewrite count_stars_cons in Hrun.
    destruct (Simbad x) eqn:HS.
    + destruct (Ins x) as [ins |] eqn:HI.
      * destruct (count_star_matched star x ins dic0 l0 HS HI) as (dic1 & E & _).
        rewrite E in Hrun. simpl in Hrun.
        rewrite (IH _ _ _ _ Hrun name). split.
        -- intros [H | (x' & H & H')]; [auto |].
           right. exists x'. rewrite elem_of_cons. auto.
        -- intros [H | (x' & H & H')]; [auto |].
           apply elem_of_cons in H as [[= -> ->] | H]; [congruence |].
           right. exists x'. auto.
      * rewrite (count_star_no_Ins _ _ _ HS HI) in Hrun. discriminate.
    + rewrite (count_star_unmatched _ _ _ _ HS) in Hrun. simpl in Hrun.
      rewrite (IH _ _ _ _ Hrun name), elem_of_app, list_elem_of_singleton. split.
      * intros [[H | ->] | (x' & H & H')]; [auto | |].
        -- right. exists x. rewrite elem_of_cons. auto.
        -- right. exists x'. rewrite elem_of_cons. auto.
      * intros [H | (x' & H & H')]; [auto |].
        apply elem_of_cons in H as [[= -> ->] | H]; [auto |].
        right. exists x'. auto.
Qed.

Lemma count_survey_loop (survey : gmap string survey_record)
    (out : list console) (dic : count_dic) (unmatched : list string) :
  count_survey survey = (out, Ok (dic, unmatched)) ->
  count_stars (map_to_list survey) (empty_dic, []) = Ok (dic, unmatched).
Proof.
  intros Hrun. destruct (count_survey_second_loop _ _ _ Hrun) as [E | E];
    [discriminate | symmetry; exact E].
Qed.

(** X15: The unmatched list holds exactly the stars without a Simbad match;
    every name in a list of the Count Result is a Simbad-matched star of
    the collection; so no name is in both. *)
Theorem count_survey_splits (survey : gmap string survey_record)
    (out : list console) (dic : count_dic) (unmatched : list string) :
  count_survey survey = (out, Ok (dic, unmatched)) ->
  splits_the_stars survey dic unmatched.
Proof.
  intros Hrun. apply count_survey_loop in Hrun.
  assert (H1 : forall name,
             name ∈ unmatched <-> exists x, survey !! name = Some x /\ Simbad x = false).
  { intros name. rewrite (count_stars_unmatched _ _ _ _ _ Hrun name). split.
    - intros [H | (x & H & HS)]; [apply elem_of_nil in H; contradiction |].
      exists x. split; [apply elem_of_map_to_list, H | exact HS].
    - intros (x & H & HS). right. exists x. split; [apply elem_of_map_to_list, H | exact HS]. }
  assert (H2 : forall name b,
             name ∈ dic b -> exists x, survey !! name = Some x /\ Simbad x = true).
  { intros name b Hin. apply (count_stars_bucket _ _ _ _ _ Hrun name b) in Hin.
    destruct Hin as [H | (x & ins & H & HS & _)]; [apply elem_of_nil in H; contradiction |].
    exists x. split; [apply elem_of_map_to_list, H | exact HS]. }
  split; [exact H1 |]. split; [exact H2 |].
  intros name b Hin Hun. apply H2 in Hin as (x & Hx & HS).
  apply H1 in Hun as (x' & Hx' & HS'). congruence.
Qed.

Lemma count_survey_splits_witness :
  count_survey example_survey = (example_out, Ok (example_count, example_unmatched)) /\
  splits_the_stars example_survey example_count example_unmatched.
Proof.
  split; [reflexivity |].
  apply (count_survey_splits example_survey example_out example_count example_unmatched).
  reflexivity.
Defined.

(** *** No name is listed twice *)

Lemma count_stars_NoDup (stars : list (string * survey_record)) :
  forall dic0 l0 dic l,
    count_stars stars (dic0, l0) = Ok (dic, l) ->
    NoDup (stars.*1) ->
    (forall b, NoDup (dic0 b) /\ forall name, name ∈ dic0 b -> name ∉ stars.*1) ->
    (NoDup l0 /\ forall name, name ∈ l0 -> name ∉ stars.*1) ->
    (forall b, NoDup (dic b)) /\ NoDup l.
Proof.
  induction stars as [| [star x] rest IH]; intros dic0 l0 dic l Hrun Hnd Hdic Hl.
  - injection Hrun as <- <-. split; [intros b; apply Hdic | apply Hl].
  - rewrite count_stars_cons in Hrun. simpl in Hnd. apply NoDup_cons in Hnd as [Hstar Hnd].
    assert (Hfresh : forall (k : list string),
               NoDup k -> (forall name, name ∈ k -> name ∉ (star :: rest.*1)) ->
               forall (c : bool),
                 NoDup (k ++ if c then [star] else [])%list /\
                 forall name, name ∈ (k ++ if c then [star] else [])%list -> name ∉ rest.*1).
    { intros k Hk Hout c. split.
      - destruct c; [| rewrite app_nil_r; exact Hk].
        apply NoDup_app. split; [exact Hk |]. split; [| apply NoDup_singleton].
        intros name Hin Hs. apply list_elem_of_singleton in Hs as ->.
        apply (Hout star Hin). apply elem_of_cons. auto.
      - intros name Hin Hr. apply elem_of_app in Hin as [Hin | Hin].
        + apply (Hout name Hin). apply elem_of_cons. auto.
        + destruct c; [| apply elem_of_nil in Hin; contradiction].
          apply list_elem_of_singleton in Hin as ->. contradiction. }
    assert (Hkeep : forall (k : list string),
               (forall name, name ∈ k -> name ∉ (star :: rest.*1)) ->
               forall name, name ∈ k -> name ∉ rest.*1).
    { intros k Hout name Hin Hr. apply (Hout name Hin). apply elem_of_cons. auto. }
    destruct (Simbad x) eqn:HS.
    + destruct (Ins x) as [ins |] eqn:HI.
      * destruct (count_star_matched star x ins dic0 l0 HS HI) as (dic1 & E & Hdic1).
        rewrite E in Hrun. simpl in Hrun.
        apply (IH _ _ _ _ Hrun Hnd).
        -- intros b. rewrite Hdic1. destruct (Hdic b) as [Hb Hout].
           apply (Hfresh _ Hb Hout).
        -- destruct Hl as [Hl Hout]. split; [exact Hl | apply (Hkeep _ Hout)].
      * rewrite (count_star_no_Ins _ _ _ HS HI) in Hrun. discriminate.
    + rewrite (count_star_unmatched _ _ _ _ HS) in Hrun. simpl in Hrun.
      apply (IH _ _ _ _ Hrun Hnd).
      * intros b. destruct (Hdic b) as [Hb Hout]. split; [exact Hb | apply (Hkeep _ Hout)].
      * destruct Hl as [Hl Hout]. apply (Hfresh _ Hl Hout true).
Qed.

Lemma count_survey_NoDup_lists (survey : gmap string survey_record)
    (out : list console) (dic : count_dic) (unmatched : list string) :
  count_survey survey = (out, Ok (dic, unmatched)) ->
  (forall b, NoDup (dic b)) /\ NoDup unmatched.
Proof.
  intros Hrun. apply count_survey_loop in Hrun.
  apply (count_stars_NoDup _ _ _ _ _ Hrun).
  - apply NoDup_fst_map_to_list.
  - intros b. split; [apply NoDup_nil_2 |]. intros name H. apply elem_of_nil in H. contradiction.
  - split; [apply NoDup_nil_2 |]. intros name H. apply elem_of_nil in H. contradiction.
Qed.

(** X16: No star name is listed twice, in any list of the Count Result or in
    the unmatched list. *)
Theorem count_survey_NoDup (survey : gmap string survey_record)
    (out : list console) (dic : count_dic) (unmatched : list string) :
  count_survey survey = (out, Ok (dic, unmatched)) ->
  (forall b, NoDup (dic b)) /\ NoDup unmatched.
Proof. apply count_survey_NoDup_lists. Qed.

Lemma count_survey_NoDup_witness :
  count_survey example_survey = (example_out, Ok (example_count, example_unmatched)) /\
  ((forall b, NoDup (example_count b)) /\ NoDup example_unmatched).
Proof.
  split; [reflexivity |].
  apply (count_survey_NoDup example_survey example_out example_count example_unmatched).
  reflexivity.
Defined.

(** *** The list that is never filled *)

(** X17: The VEGA medium-resolution list of the Count Result stays empty,
    whatever the collection: the VEGA loop visits ['LR'] and ['HR'] only. *)
Theorem count_survey_VEGA_MR_empty (survey : gmap string survey_record)
    (out : list console) (dic : count_dic) (unmatched : list string) :
  count_survey survey = (out, Ok (dic, unmatched)) ->
  dic (b_VEGA vr_MR) = [].
Proof.
  intros Hrun. apply count_survey_loop in Hrun.
  destruct (dic (b_VEGA vr_MR)) as [| name k] eqn:E; [reflexivity |].
  assert (Hin : name ∈ dic (b_VEGA vr_MR)) by (rewrite E; apply elem_of_cons; auto).
  apply (count_stars_bucket _ _ _ _ _ Hrun) in Hin.
  destruct Hin as [H | (x & ins & _ & _ & _ & H)].
  - apply elem_of_nil in H. contradiction.
  - unfold appended in H. rewrite decide_True in H by reflexivity. discriminate.
Qed.

Lemma count_survey_VEGA_MR_empty_witness :
  count_survey example_survey = (example_out, Ok (example_count, example_unmatched)) /\
  VEGA_MR (VEGA (CHARA_ins example_ins)) = true /\
  example_count (b_VEGA vr_MR) = [].
Proof.
  split; [reflexivity |]. split; [reflexivity |].
  apply (count_survey_VEGA_MR_empty example_survey example_out example_count
           example_unmatched). reflexivity.
Defined.

(** *** How [count_survey] ends *)

Lemma count_stars_raises (stars : list (string * survey_record)) :
  forall st,
    (exists star x, (star, x) ∈ stars /\ Simbad x = true /\ Ins x = None) ->
    count_stars stars st = Raise TypeError.
Proof.
  induction stars as [| [star x] rest IH]; intros [dic0 l0] (s' & x' & Hin & HS' & HI').
  - apply elem_of_nil in Hin. contradiction.
  - rewrite count_stars_cons.
    destruct (Simbad x) eqn:HS.
    + destruct (Ins x) as [ins |] eqn:HI.
      * destruct (count_star_matched star x ins dic0 l0 HS HI) as (dic1 & -> & _). simpl.
        apply IH. apply elem_of_cons in Hin as [[= -> ->] | Hin]; [congruence |].
        exists s', x'. auto.
      * rewrite (count_star_no_Ins _ _ _ HS HI). reflexivity.
    + rewrite (count_star_unmatched _ _ _ _ HS). simpl.
      apply IH. apply elem_of_cons in Hin as [[= -> ->] | Hin]; [congruence |].
      exists s', x'. auto.
Qed.

Lemma matched_star_without_Ins_dec (stars : list (string * survey_record)) :
  (exists star x, (star, x) ∈ stars /\ Simbad x = true /\ Ins x = None) \/
  (forall star x, (star, x) ∈ stars -> Simbad x = true -> Ins x <> None).
Proof.
  induction stars as [| [star x] rest [(s' & x' & Hin & H) | IH]].
  - right. intros star x Hin. apply elem_of_nil in Hin. contradiction.
  - left. exists s', x'. split; [apply elem_of_cons; auto | exact H].
  - destruct (Simbad x) eqn:HS; [destruct (Ins x) as [ins |] eqn:HI |].
    + right. intros s' x' Hin. apply elem_of_cons in Hin as [[= -> ->] | Hin];
        [intros _; congruence | apply (IH s' x' Hin)].
    + left. exists star, x. split; [apply elem_of_cons; auto | auto].
    + right. intros s' x' Hin. apply elem_of_cons in Hin as [[= -> ->] | Hin];
        [intros; congruence | apply (IH s' x' Hin)].
Qed.

(** X18: [count_survey] ends in one of three ways: [ZeroDivisionError] on
    the empty collection; [TypeError] on a non-empty collection holding
    a Simbad-matched star without [Ins]; a returned pair otherwise. *)
Theorem count_survey_outcomes (survey : gmap string survey_record) :
  ((count_survey survey).2 = Raise ZeroDivisionError <-> survey = ∅) /\
  ((count_survey survey).2 = Raise TypeError <->
   survey <> ∅ /\ has_matched_star_without_Ins survey) /\
  ((exists dic unmatched, (count_survey survey).2 = Ok (dic, unmatched)) <->
   survey <> ∅ /\ ~ has_matched_star_without_Ins survey).
Proof.
  assert (Hempty : survey = ∅ -> (count_survey survey).2 = Raise ZeroDivisionError).
  { intros ->. unfold count_survey. rewrite map_to_list_empty. reflexivity. }
  assert (Hloop : survey <> ∅ ->
            (count_survey survey).2 = count_stars (map_to_list survey) (empty_dic, [])).
  { intros Hne. unfold count_survey.
    destruct (count_sites (map_to_list survey)) as [n_chara n_vlti].
    unfold percentage. rewrite length_map_to_list.
    apply map_size_non_empty_iff in Hne.
    destruct (Nat.eqb_spec (size survey) 0) as [E | _]; [contradiction | reflexivity]. }
  assert (Hbad : has_matched_star_without_Ins survey ->
            count_stars (map_to_list survey) (empty_dic, []) = Raise TypeError).
  { intros (name & x & Hx & HS & HI). apply count_stars_raises.
    exists name, x. split; [apply elem_of_map_to_list, Hx | auto]. }
  assert (Hgood : ~ has_matched_star_without_Ins survey ->
            exists dic l, count_stars (map_to_list survey) (empty_dic, []) = Ok (dic, l)).
  { intros Hno. apply count_stars_returns. intros star x Hin HS HI.
    apply Hno. exists star, x. split; [apply elem_of_map_to_list, Hin | auto]. }
  assert (Hdec : has_matched_star_without_Ins survey \/ ~ has_matched_star_without_Ins survey).
  { destruct (matched_star_without_Ins_dec (map_to_list survey))
      as [(star & x & Hin & HS & HI) | Hno].
    - left. exists star, x. split; [apply elem_of_map_to_list, Hin | auto].
    - right. intros (star & x & Hx & HS & HI).
      apply (Hno star x); [apply elem_of_map_to_list, Hx | exact HS | exact HI]. }
  destruct (decide (survey = ∅)) as [He | Hne].
  - rewrite (Hempty He). split; [tauto |]. split; split.
    + discriminate.
    + intros [Hne _]. contradiction.
    + intros (dic & l & E). discriminate.
    + intros [Hne _]. contradiction.
  - rewrite (Hloop Hne). destruct Hdec as [Hb | Hno].
    + rewrite (Hbad Hb). split; [split; [discriminate | contradiction] |].
      split; split.
      * auto.
      * reflexivity.
      * intros (dic & l & E). discriminate.
      * intros [_ Hno]. contradiction.
    + destruct (Hgood Hno) as (dic & l & E). rewrite E.
      split; [split; [discriminate | contradiction] |].
      split; split.
      * discriminate.
      * intros [_ Hb]. contradiction.
      * auto.
      * eauto.
Qed.

(** *** How long the lists can get *)

(** X19: A list of the Count Result and the unmatched list together hold no
    more names than the collection has stars. *)
Theorem count_survey_lengths (survey : gmap string survey_record)
    (out : list console) (dic : count_dic) (unmatched : list string) (b : bucket) :
  count_survey survey = (out, Ok (dic, unmatched)) ->
  (length (dic b) + length unmatched <= size survey)%nat.
Proof.
  intros Hrun.
  destruct (count_survey_NoDup_lists _ _ _ _ Hrun) as [Hdic Hun].
  apply count_survey_loop in Hrun.
  rewrite <- length_app, <- (length_map_to_list survey),
    <- (length_fmap fst (map_to_list survey)).
  apply submseteq_length, NoDup_submseteq.
  - apply NoDup_app. split; [apply Hdic |]. split; [| exact Hun].
    intros name Hin Hout.
    apply (count_stars_bucket _ _ _ _ _ Hrun) in Hin.
    apply (count_stars_unmatched _ _ _ _ _ Hrun) in Hout.
    destruct Hin as [Hin | (x & ins & Hx & HS & _)]; [apply elem_of_nil in Hin; contradiction |].
    destruct Hout as [Hout | (x' & Hx' & HS')]; [apply elem_of_nil in Hout; contradiction |].
    apply elem_of_map_to_list in Hx, Hx'. congruence.
  - intros name Hin. apply elem_of_app in Hin as [Hin | Hin].
    + apply (count_stars_bucket _ _ _ _ _ Hrun) in Hin.
      destruct Hin as [Hin | (x & ins & Hx & _)]; [apply elem_of_nil in Hin; contradiction |].
      apply list_elem_of_fmap. exists (name, x). auto.
    + apply (count_stars_unmatched _ _ _ _ _ Hrun) in Hin.
      destruct Hin as [Hin | (x & Hx & _)]; [apply elem_of_nil in Hin; contradiction |].
      apply list_elem_of_fmap. exists (name, x). auto.
Qed.

Lemma count_survey_lengths_witness :
  count_survey example_survey = (example_out, Ok (example_count, example_unmatched)) /\
  (length (example_count b_PIONIER) + length example_unmatched <= size example_survey)%nat.
Proof.
  split; [reflexivity |].
  apply (count_survey_lengths example_survey example_out example_count
           example_unmatched b_PIONIER). reflexivity.
Defined.

(** *** Lists of trees made by the threshold functions *)

Lemma count_stars_sublist (b b' : bucket) (stars : list (string * survey_record)) :
  (forall star x ins, (star, x) ∈ stars -> Ins x = Some ins ->
     appended x ins b = true -> appended x ins b' = true) ->
  forall dic0 l0 dic l,
    count_stars stars (dic0, l0) = Ok (dic, l) ->
    dic0 b `sublist_of` dic0 b' ->
    dic b `sublist_of` dic b'.
Proof.
  induction stars as [| [star x] rest IH]; intros Himp dic0 l0 dic l Hrun H0.
  - injection Hrun as <- <-. exact H0.
  - rewrite count_stars_cons in Hrun.
    assert (Hrest : forall star' x' ins, (star', x') ∈ rest -> Ins x' = Some ins ->
               appended x' ins b = true -> appended x' ins b' = true).
    { intros star' x' ins Hin. apply (Himp star' x' ins). apply elem_of_cons. auto. }
    destruct (Simbad x) eqn:HS.
    + destruct (Ins x) as [ins |] eqn:HI.
      * destruct (count_star_matched star x ins dic0 l0 HS HI) as (dic1 & E & Hdic1).
        rewrite E in Hrun. simpl in Hrun.
        apply (IH Hrest _ _ _ _ Hrun). rewrite !Hdic1.
        apply sublist_app; [exact H0 |].
        destruct (appended x ins b) eqn:Eb.
        -- rewrite (Himp star x ins (list_elem_of_here _ _) HI Eb). reflexivity.
        -- apply sublist_nil_l.
      * rewrite (count_star_no_Ins _ _ _ HS HI) in Hrun. discriminate.
    + rewrite (count_star_unmatched _ _ _ _ HS) in Hrun. simpl in Hrun.
      apply (IH Hrest _ _ _ _ Hrun H0).
Qed.

Lemma count_survey_sublist (b b' : bucket) (survey : gmap string survey_record)
    (out : list console) (dic : count_dic) (unmatched : list string) :
  count_survey survey = (out, Ok (dic, unmatched)) ->
  (forall name x ins, survey !! name = Some x -> Ins x = Some ins ->
     appended x ins b = true -> appended x ins b' = true) ->
  dic b `sublist_of` dic b'.
Proof.
  intros Hrun Himp. apply count_survey_loop in Hrun.
  apply (count_stars_sublist b b' _) with (1 := fun star x ins Hin =>
           Himp star x ins (proj1 (elem_of_map_to_list _ _ _) Hin)) (2 := Hrun).
  reflexivity.
Qed.

Lemma appended_leaf (x : survey_record) (ins : instruments) (b b' : bucket) :
  is_CHARA_bucket b = is_CHARA_bucket b' ->
  b' <> b_VEGA vr_MR ->
  (leaf ins b = true -> leaf ins b' = true) ->
  appended x ins b = true -> appended x ins b' = true.
Proof.
  intros Hsite Hb' Hleaf. unfold appended, tested_cond.
  rewrite (decide_False (P := b' = b_VEGA vr_MR)) by exact Hb'.
  destruct (decide (b = b_VEGA vr_MR)); [discriminate |].
  rewrite <- Hsite. destruct (is_CHARA_bucket b).
  - destruct (CHARA (Observability x)), (Guiding (CHARA_ins ins)), (leaf ins b);
      simpl; try discriminate. rewrite Hleaf; reflexivity.
  - destruct (VLTI (Observability x)), (guid_of (Guiding_star x)), (leaf ins b);
      simpl; try discriminate. rewrite Hleaf; reflexivity.
Qed.

(** X20: When [matisse_limit] and [gravity_limit] made the trees, the lists
    are nested: every MATISSE high-resolution list is a sub-list of the
    low-resolution list of the same telescope, mode and band, and every
    GRAVITY medium-resolution list is a sub-list of the high-resolution
    list of the same telescope. *)
Theorem count_survey_VLTI_lists_nested (survey : gmap string survey_record)
    (out : list console) (dic : count_dic) (unmatched : list string) :
  count_survey survey = (out, Ok (dic, unmatched)) ->
  VLTI_trees_from_limits survey ->
  (forall t m bd, dic (b_MATISSE t m bd mr_HR) `sublist_of` dic (b_MATISSE t m bd mr_LR)) /\
  (forall t, dic (b_GRAVITY t gr_MR) `sublist_of` dic (b_GRAVITY t gr_HR)).
Proof.
  intros Hrun Htrees. split.
  - intros t m bd. apply (count_survey_sublist _ _ _ _ _ _ Hrun).
    intros name x ins Hx HI. apply appended_leaf; [reflexivity | discriminate |].
    destruct (Htrees name x ins Hx HI) as [(eso & mL & mM & mN & mK & src & Hd) _].
    destruct (matisse_limit_slots _ _ _ _ _ _ _ Hd) as [_ Hs].
    destruct (Hs t m) as (HL & _ & HN).
    simpl. unfold matisse_leaf. destruct bd.
    + destruct (chain_L_nested _ _ _ HL) as [H1 H2]. intros H. apply H2, H1, H.
    + apply (chain_2_nested _ _ _ HN).
  - intros t. apply (count_survey_sublist _ _ _ _ _ _ Hrun).
    intros name x ins Hx HI. apply appended_leaf; [reflexivity | discriminate |].
    destruct (Htrees name x ins Hx HI) as [_ (mV & mK & E)].
    simpl. rewrite E. unfold gravity_leaf.
    destruct (gravity_limit_K_flags mV mK) as (E1 & E2 & E3 & E4).
    destruct t; rewrite ?E1, ?E2, ?E3, ?E4;
      intros H; apply andb_true_iff in H as [Ha Hb]; apply andb_true_iff; (split; [| exact Hb]);
      unfold geb, gtb in *; ftrue.
Qed.

Lemma example_survey_stars (name : string) (x : survey_record) :
  example_survey !! name = Some x -> x = star_A \/ x = star_B.
Proof.
  unfold example_survey. intros H.
  apply lookup_insert_Some in H as [[_ <-] | [_ H]]; [auto |].
  apply lookup_insert_Some in H as [[_ <-] | [_ H]]; [auto |].
  rewrite lookup_empty in H. discriminate.
Qed.

Lemma survey_S_VLTI_trees : VLTI_trees_from_limits survey_S.
Proof.
  intros name x ins Hx HI. unfold survey_S in Hx.
  apply lookup_insert_Some in Hx as [[_ <-] | [_ Hx]];
    [| rewrite lookup_empty in Hx; discriminate].
  injection HI as <-. split.
  - exists InstrSpec.example_web, 5, 5, 5, 5, "ESO"%string. reflexivity.
  - exists 5, 5. reflexivity.
Defined.

Lemma count_survey_VLTI_lists_nested_witness :
  count_survey survey_S = ((count_survey survey_S).1, Ok (count_S, [])) /\
  VLTI_trees_from_limits survey_S /\
  (count_S (b_MATISSE tel_UT mode_noft mb_L mr_HR) = [] /\
   count_S (b_MATISSE tel_UT mode_noft mb_L mr_LR) = ["HD 4"] /\
   count_S (b_MATISSE tel_UT mode_ft mb_L mr_HR) = ["HD 4"] /\
   count_S (b_GRAVITY tel_UT gr_MR) = ["HD 4"]) /\
  (forall t m bd, count_S (b_MATISSE t m bd mr_HR)
                  `sublist_of` count_S (b_MATISSE t m bd mr_LR)) /\
  (forall t, count_S (b_GRAVITY t gr_MR) `sublist_of` count_S (b_GRAVITY t gr_HR)).
Proof.
  split; [reflexivity |]. split; [exact survey_S_VLTI_trees |].
  split; [repeat split |].
  apply (count_survey_VLTI_lists_nested survey_S (count_survey survey_S).1 count_S []);
    [reflexivity | exact survey_S_VLTI_trees].
Defined.

(** X21: When [chara_limit] made the trees, the CHARA lists are nested the
    way its ceilings are: VEGA high resolution within VEGA low
    resolution within CLASSIC V; MIRC K within CLIMB within CLASSIC K;
    MIRC H within CLASSIC H; and the MYSTIC list is the CLIMB list. *)
Theorem count_survey_CHARA_lists_nested (survey : gmap string survey_record)
    (out : list console) (dic : count_dic) (unmatched : list string) :
  count_survey survey = (out, Ok (dic, unmatched)) ->
  CHARA_trees_from_limits survey ->
  dic (b_VEGA vr_HR) `sublist_of` dic (b_VEGA vr_LR) /\
  dic (b_VEGA vr_LR) `sublist_of` dic (b_CLASSIC cb_V) /\
  dic (b_MIRC mi_K) `sublist_of` dic b_CLIMB /\
  dic b_CLIMB `sublist_of` dic (b_CLASSIC cb_K) /\
  dic (b_MIRC mi_H) `sublist_of` dic (b_CLASSIC cb_H) /\
  dic b_MYSTIC = dic b_CLIMB.
Proof.
  intros Hrun Htrees.
  assert (Hsub : forall b b',
             is_CHARA_bucket b = is_CHARA_bucket b' -> b' <> b_VEGA vr_MR ->
             (forall ins magK magH magR magV,
                CHARA_ins ins = chara_limit magK magH magR magV ->
                leaf ins b = true -> leaf ins b' = true) ->
             dic b `sublist_of` dic b').
  { intros b b' Hsite Hb' Hleaf. apply (count_survey_sublist _ _ _ _ _ _ Hrun).
    intros name x ins Hx HI. apply appended_leaf; [exact Hsite | exact Hb' |].
    destruct (Htrees name x ins Hx HI) as (mK & mH & mR & mV & E).
    apply (Hleaf ins mK mH mR mV E). }
  repeat split; try (apply Hsub; [reflexivity | discriminate |];
                     intros ins mK mH mR mV E; simpl;
                     unfold vega_leaf, classic_leaf, mirc_leaf; rewrite E; simpl;
                     intros H; ftrue).
  apply (anti_symm sublist); (apply Hsub; [reflexivity | discriminate |]);
    intros ins mK mH mR mV E; simpl; rewrite E; simpl; intros H; exact H.
Qed.

Lemma example_survey_CHARA_trees : CHARA_trees_from_limits example_survey.
Proof.
  intros name x ins Hx HI.
  destruct (example_survey_stars name x Hx) as [-> | ->]; [| discriminate].
  injection HI as <-. exists 5, 5, 5, 5. reflexivity.
Defined.

Lemma count_survey_CHARA_lists_nested_witness :
  count_survey example_survey = (example_out, Ok (example_count, example_unmatched)) /\
  CHARA_trees_from_limits example_survey /\
  example_count (b_VEGA vr_HR) `sublist_of` example_count (b_VEGA vr_LR) /\
  example_count (b_VEGA vr_LR) `sublist_of` example_count (b_CLASSIC cb_V) /\
  example_count (b_MIRC mi_K) `sublist_of` example_count b_CLIMB /\
  example_count b_CLIMB `sublist_of` example_count (b_CLASSIC cb_K) /\
  example_count (b_MIRC mi_H) `sublist_of` example_count (b_CLASSIC cb_H) /\
  example_count b_MYSTIC = example_count b_CLIMB.
Proof.
  split; [reflexivity |]. split; [exact example_survey_CHARA_trees |].
  apply (count_survey_CHARA_lists_nested example_survey example_out example_count
           example_unmatched); [reflexivity | exact example_survey_CHARA_trees].
Defined.

End DisplayMore.

(** ** The diagrams *)

Module DiagramFacts.

Import FloatOrder Instr Display DisplaySpec DisplayFacts DisplayMore Diagram DiagramSpec.

Lemma color_green (c : bool) : color c = "g" <-> c = true.
Proof. destruct c; simpl; split; intros H; try reflexivity; discriminate. Qed.

Lemma count_survey_listed (survey : gmap string survey_record)
    (out : list console) (dic : count_dic) (unmatched : list string)
    (name : string) (data : survey_record) (b : bucket) :
  count_survey survey = (out, Ok (dic, unmatched)) ->
  survey !! name = Some data ->
  name ∈ dic b <->
  Simbad data = true /\ exists ins, Ins data = Some ins /\ appended data ins b = true.
Proof.
  intros Hrun Hdata. apply count_survey_loop in Hrun.
  rewrite (count_stars_bucket _ _ _ _ _ Hrun name b). split.
  - intros [H | (x & ins & Hx & HS & HI & Ha)]; [apply elem_of_nil in H; contradiction |].
    apply elem_of_map_to_list in Hx. rewrite Hdata in Hx. injection Hx as <-. eauto.
  - intros (HS & ins & HI & Ha). right. exists data, ins.
    split; [apply elem_of_map_to_list, Hdata | auto].
Qed.

(** *** plot_mat *)

(** X22: [plot_mat] never raises: on a record without [Ins] it draws
    nothing; otherwise it draws the low- and high-resolution markers of
    the row, and the medium-resolution marker for the L band only (the
    ['MR'] key is missing for M and N, and the error is swallowed). *)
Theorem plot_mat_markers_drawn (data : survey_record) (t : tel) (m : mode) (b : band) :
  (Ins data = None ->
   plot_mat data t m b = {| at_x0 := None; at_half_off := None; at_off := None |}) /\
  (Ins data <> None ->
   at_x0 (plot_mat data t m b) <> None /\
   at_off (plot_mat data t m b) <> None /\
   (at_half_off (plot_mat data t m b) <> None <-> b = band_L)).
Proof.
  unfold plot_mat, mat_marker, subscript_Ins. split.
  - intros ->. reflexivity.
  - destruct (Ins data) as [ins |]; [intros _ | intros H; contradiction].
    destruct b; simpl; repeat split; try discriminate; try reflexivity;
      intros H; try contradiction; discriminate.
Qed.

(** *** plot_VLTI and count_survey *)

Lemma plot_VLTI_markers_returned (data : survey_record) (fig : figure) (mk : VLTI_markers) :
  (plot_VLTI_markers data).2 = Ok (Some (fig, mk)) ->
  exists ins, Ins data = Some ins /\ mk = VLTI_observabilities data ins /\
    ((exists s, Guiding_star data = Guiding_str s) \/ Guiding_star data = Guiding_absent).
Proof.
  unfold plot_VLTI_markers, plot_VLTI.
  destruct (Ins data) as [ins |]; [| discriminate]. simpl.
  destruct (Guiding_star data) as [s | p q |]; simpl; try discriminate;
    intros [= _ <-]; exists ins; eauto.
Qed.

(** X23: When [plot_VLTI] draws its markers, a star is in a VLTI list of the
    Count Result exactly when it is matched in Simbad, its guide star is
    the string 'Science star' and the marker that goes with the list is
    green. *)
Theorem plot_VLTI_markers_and_lists (survey : gmap string survey_record)
    (out : list console) (dic : count_dic) (unmatched : list string)
    (name : string) (data : survey_record) (fig : figure) (mk : VLTI_markers) (b : bucket) :
  count_survey survey = (out, Ok (dic, unmatched)) ->
  survey !! name = Some data ->
  (plot_VLTI_markers data).2 = Ok (Some (fig, mk)) ->
  is_CHARA_bucket b = false ->
  name ∈ dic b <->
  Simbad data = true /\ Guiding_star data = Guiding_str "Science star" /\
  VLTI_marker mk b = Some "g".
Proof.
  intros Hrun Hdata Hplot Hb.
  rewrite (count_survey_listed _ _ _ _ _ _ b Hrun Hdata).
  destruct (plot_VLTI_markers_returned _ _ _ Hplot) as (ins & HI & -> & Hg).
  assert (Hmark : VLTI_marker (VLTI_observabilities data ins) b
                  = Some (color (leaf ins b && VLTI (Observability data)))).
  { destruct b as [t m bd r | t r | | | bd | | | bd | r]; try discriminate; simpl;
      [| reflexivity | reflexivity].
    unfold plot_mat, mat_marker, subscript_Ins. rewrite HI.
    destruct bd, r; simpl;
      match goal with |- context [if ?c then true else false] => destruct c end;
      reflexivity. }
  assert (Hguid : guid_of (Guiding_star data) = true <->
                  Guiding_star data = Guiding_str "Science star").
  { destruct Hg as [[s ->] | ->]; simpl.
    - destruct (String.eqb_spec s "Science star") as [-> | Hne]; split; intros H;
        try reflexivity; try discriminate. injection H as ->. contradiction.
    - split; discriminate. }
  assert (Happ : appended data ins b = true <->
                 guid_of (Guiding_star data) = true /\
                 leaf ins b && VLTI (Observability data) = true).
  { unfold appended, tested_cond. rewrite Hb.
    destruct (decide (b = b_VEGA vr_MR)) as [-> | _]; [discriminate |].
    rewrite !andb_true_iff. tauto. }
  rewrite Hmark. split.
  - intros (HS & ins' & HI' & Ha). rewrite HI in HI'. injection HI' as <-.
    apply Happ in Ha as [Ha1 Ha2]. rewrite Ha2. split; [exact HS |].
    split; [apply Hguid, Ha1 | reflexivity].
  - intros (HS & HG & Hm). split; [exact HS |]. exists ins. split; [exact HI |].
    apply Happ. split; [apply Hguid, HG |]. injection Hm as Hm. apply color_green, Hm.
Qed.

Lemma plot_VLTI_markers_and_lists_witness :
  count_survey survey_S = ((count_survey survey_S).1, Ok (count_S, [])) /\
  survey_S !! "HD 4" = Some star_S /\
  (plot_VLTI_markers star_S).2
  = Ok (Some ({| fig_star := "HD 4"; fig_guide := "Science"; fig_guide_color := "#8ee38e" |},
              VLTI_observabilities star_S ins_S)) /\
  is_CHARA_bucket b_PIONIER = false /\
  ("HD 4" ∈ count_S b_PIONIER <->
   Simbad star_S = true /\ Guiding_star star_S = Guiding_str "Science star" /\
   VLTI_marker (VLTI_observabilities star_S ins_S) b_PIONIER = Some "g").
Proof.
  split; [reflexivity |]. split; [reflexivity |]. split; [reflexivity |].
  split; [reflexivity |].
  apply (plot_VLTI_markers_and_lists survey_S (count_survey survey_S).1 count_S []
           "HD 4" star_S
           {| fig_star := "HD 4"; fig_guide := "Science"; fig_guide_color := "#8ee38e" |});
    reflexivity.
Defined.

(** X24: A star that cannot be observed from the VLTI site has every marker
    of [plot_VLTI] red. *)
Theorem plot_VLTI_unobservable_red (data : survey_record) (fig : figure) (mk : VLTI_markers) :
  VLTI (Observability data) = false ->
  (plot_VLTI_markers data).2 = Ok (Some (fig, mk)) ->
  all_red_VLTI mk.
Proof.
  intros Hv Hplot.
  destruct (plot_VLTI_markers_returned _ _ _ Hplot) as (ins & HI & -> & _).
  unfold all_red_VLTI, VLTI_observabilities. simpl. rewrite Hv. split; [| split].
  - intros t m b c. unfold mat_marker, subscript_Ins. rewrite HI, Hv. simpl.
    destruct b; simpl; rewrite ?andb_false_r; simpl;
      intros [H | [H | H]]; try discriminate; injection H as <-; reflexivity.
  - intros t r. rewrite andb_false_r. reflexivity.
  - rewrite andb_false_r. reflexivity.
Qed.

Lemma plot_VLTI_unobservable_red_witness :
  VLTI (Observability star_far) = false /\
  (plot_VLTI_markers star_far).2
  = Ok (Some ({| fig_star := "HD 5"; fig_guide := "Science"; fig_guide_color := "#8ee38e" |},
              VLTI_observabilities star_far ins_S)) /\
  all_red_VLTI (VLTI_observabilities star_far ins_S).
Proof.
  split; [reflexivity |]. split; [reflexivity |].
  apply (plot_VLTI_unobservable_red star_far
           {| fig_star := "HD 5"; fig_guide := "Science"; fig_guide_color := "#8ee38e" |});
    reflexivity.
Defined.

(** *** plot_CHARA and count_survey *)

Lemma plot_CHARA_returned (data : survey_record) (out : list console) (fig : CHARA_figure) :
  plot_CHARA data = (out, Some fig) ->
  exists ins, Ins data = Some ins /\
    forall b, CHARA_marker fig b =
      match b with
      | b_VEGA _ | b_MIRC mi_H | b_CLASSIC cb_H | b_CLASSIC cb_K =>
          Some (color (leaf ins b && CHARA (Observability data) && Guiding (CHARA_ins ins)))
      | b_PAVO | b_CLIMB =>
          Some (color (CHARA (Observability data) && Guiding (CHARA_ins ins)))
      | _ => None
      end.
Proof.
  unfold plot_CHARA. destruct (Ins data) as [ins |]; [| discriminate].
  intros [= _ <-]. exists ins. split; [reflexivity |].
  intros b. destruct b as [t m bd r | t r | | | bd | | | bd | r];
    try destruct bd; try destruct r; reflexivity.
Qed.

(** X25: For VEGA low and high resolution, MIRC H and CLASSIC H and K, a
    star is in the list of the Count Result exactly when it is matched
    in Simbad and its marker in [plot_CHARA] is green.  A star in the
    PAVO or the CLIMB list has a green marker too, but these two markers
    do not look at the instrument's flag: both are green as soon as the
    site and the tip-tilt flags are true. *)
Theorem plot_CHARA_markers_and_lists (survey : gmap string survey_record)
    (out : list console) (dic : count_dic) (unmatched : list string)
    (name : string) (data : survey_record) (out' : list console) (fig : CHARA_figure) :
  count_survey survey = (out, Ok (dic, unmatched)) ->
  survey !! name = Some data ->
  plot_CHARA data = (out', Some fig) ->
  (forall b, leaf_marked b = true ->
     (name ∈ dic b <-> Simbad data = true /\ CHARA_marker fig b = Some "g")) /\
  (name ∈ dic b_PAVO -> ch_PAVO fig = "g") /\
  (name ∈ dic b_CLIMB -> ch_CLIMB fig = "g") /\
  (forall ins, Ins data = Some ins ->
     ch_PAVO fig = color (CHARA (Observability data) && Guiding (CHARA_ins ins)) /\
     ch_CLIMB fig = color (CHARA (Observability data) && Guiding (CHARA_ins ins))).
Proof.
  intros Hrun Hdata Hplot.
  destruct (plot_CHARA_returned _ _ _ Hplot) as (ins & HI & Hmark).
  assert (Happ : forall b, is_CHARA_bucket b = true -> b <> b_VEGA vr_MR ->
             appended data ins b
             = leaf ins b && CHARA (Observability data) && Guiding (CHARA_ins ins)).
  { intros b Hb Hne. unfold appended, tested_cond. rewrite Hb, decide_False by exact Hne.
    destruct (leaf ins b), (CHARA (Observability data)); reflexivity. }
  assert (Hlisted : forall b, is_CHARA_bucket b = true -> b <> b_VEGA vr_MR ->
             name ∈ dic b <->
             Simbad data = true /\
             leaf ins b && CHARA (Observability data) && Guiding (CHARA_ins ins) = true).
  { intros b Hb Hne. rewrite (count_survey_listed _ _ _ _ _ _ b Hrun Hdata). split.
    - intros (HS & ins' & HI' & Ha). rewrite HI in HI'. injection HI' as <-.
      rewrite (Happ b Hb Hne) in Ha. auto.
    - intros (HS & Ha). split; [exact HS |]. exists ins. split; [exact HI |].
      rewrite (Happ b Hb Hne). exact Ha. }
  split; [| split; [| split]].
  - intros b Hb.
    assert (Hc : is_CHARA_bucket b = true /\ b <> b_VEGA vr_MR).
    { destruct b as [t m bd r | t r | | | bd | | | bd | r];
        try destruct bd; try destruct r; try discriminate; split; try reflexivity; discriminate. }
    destruct Hc as [Hc Hne]. rewrite (Hlisted b Hc Hne), Hmark.
    destruct b as [t m bd r | t r | | | bd | | | bd | r];
      try destruct bd; try destruct r; try discriminate;
      (split; intros [HS H]; (split; [exact HS |]);
       [rewrite H; reflexivity | injection H as H; apply color_green, H]).
  - intros Hin. apply (Hlisted b_PAVO eq_refl) in Hin as [_ Hin]; [| discriminate].
    specialize (Hmark b_PAVO). simpl in Hmark. injection Hmark as ->.
    apply color_green. simpl in Hin. rewrite !andb_true_iff in Hin. rewrite andb_true_iff. tauto.
  - intros Hin. apply (Hlisted b_CLIMB eq_refl) in Hin as [_ Hin]; [| discriminate].
    specialize (Hmark b_CLIMB). simpl in Hmark. injection Hmark as ->.
    apply color_green. simpl in Hin. rewrite !andb_true_iff in Hin. rewrite andb_true_iff. tauto.
  - intros ins' HI'. rewrite HI in HI'. injection HI' as <-.
    pose proof (Hmark b_PAVO) as H1. pose proof (Hmark b_CLIMB) as H2. simpl in H1, H2.
    injection H1 as ->. injection H2 as ->. split; reflexivity.
Qed.

Lemma plot_CHARA_markers_and_lists_witness :
  count_survey survey_S = ((count_survey survey_S).1, Ok (count_S, [])) /\
  survey_S !! "HD 4" = Some star_S /\
("HD 4" ∉ count_S b_PAVO) /\
  exists fig, plot_CHARA star_S = ([], Some fig) /\ ch_PAVO fig = "g" /\
    (forall b, leaf_marked b = true ->
       ("HD 4" ∈ count_S b <-> Simbad star_S = true /\ CHARA_marker fig b = Some "g")).
Proof.
  split; [reflexivity |]. split; [reflexivity |].
  split; [intros H; vm_compute in H; apply elem_of_nil in H; exact H |].
  eexists. split; [reflexivity |]. split; [reflexivity |].
  apply (plot_CHARA_markers_and_lists survey_S (count_survey survey_S).1 count_S []
           "HD 4" star_S [] _); reflexivity.
Defined.

(** X26: A star without tip-tilt guiding, or out of reach of the CHARA
    site, has every marker of [plot_CHARA] red. *)
Theorem plot_CHARA_unobservable_red (data : survey_record) (ins : instruments)
    (out : list console) (fig : CHARA_figure) :
  Ins data = Some ins ->
  CHARA (Observability data) && Guiding (CHARA_ins ins) = false ->
  plot_CHARA data = (out, Some fig) ->
  all_red_CHARA fig.
Proof.
  intros HI Hc. unfold plot_CHARA. rewrite HI. intros [= _ <-].
  unfold all_red_CHARA. simpl. rewrite <- !andb_assoc, Hc, !andb_false_r.
  repeat split. intros r. rewrite <- andb_assoc, Hc, andb_false_r. reflexivity.
Qed.

Lemma plot_CHARA_unobservable_red_witness :
  Ins star_far = Some ins_S /\
  CHARA (Observability star_far) && Guiding (CHARA_ins ins_S) = false /\
  exists fig, plot_CHARA star_far = ([], Some fig) /\ all_red_CHARA fig.
Proof.
  split; [reflexivity |]. split; [reflexivity |].
  eexists. split; [reflexivity |].
  apply (plot_CHARA_unobservable_red star_far ins_S []); reflexivity.
Defined.

End DiagramFacts.
